(** * ccid_serial.c: the serial transport of the GemPC Twin CCID driver

    A shallow embedding of [src/ccid_serial.c] and the properties of its
    framing protocol: [WriteSerial] (encode), [ReadSerial] (decode, a
    goto-driven state machine), [get_bytes] (buffered read), [ReadChunk]
    (blocking read with timeout), [OpenSerial] and [OpenSerialByName] (open
    the port), [CloseSerial] and [get_ccid_descriptor].

    Conventions.
    - C [int] and [unsigned char] values are [Z]; an assignment to an
      [unsigned char] is written with its truncation [to_uchar].
    - The serial line is a script of what [select] and [read] will answer,
      consumed from the front; a silent line (empty script) times out.
    - The DEBUG_* macros append to a diagnostic trace; it is the only place
      where the source reports card movements and checksum warnings.
    - The frame size that [ReadSerial] computes from the bytes of the wire
      is narrowed to [int] as the source stores it; the other [int]s are
      kept in range by the size of the buffer and are plain [Z].
    - Behaviour that C leaves undefined (a [memcpy] outside an array or with
      a negative size, an [int] sum that overflows) is the outcome
      [Undefined]; a loop that is cut short by the model's iteration budget
      is the outcome [OutOfFuel]. *)

From Stdlib Require Import ZArith List Lia Bool String.
From Stdlib Require DecimalString DecimalZ.
Import ListNotations.
Local Open Scope Z_scope.

(** ** Bytes and byte arrays *)

Definition is_byte (b : Z) : Prop := 0 <= b < 256.

(** Conversion to [unsigned char]. *)
Definition to_uchar (z : Z) : Z := z mod 256.

(** The range of [int], and the value an [int] holds after an assignment
    that does not fit (32 bits, two's complement). *)
Definition INT_MIN : Z := - 2 ^ 31.
Definition INT_MAX : Z := 2 ^ 31 - 1.

Definition to_int (z : Z) : Z := (z + 2 ^ 31) mod 2 ^ 32 - 2 ^ 31.

Definition in_int (z : Z) : bool := (INT_MIN <=? z) && (z <=? INT_MAX).

Definition len {A : Type} (l : list A) : Z := Z.of_nat (List.length l).

Definition take {A : Type} (n : Z) (l : list A) : list A := firstn (Z.to_nat n) l.

Definition drop {A : Type} (n : Z) (l : list A) : list A := skipn (Z.to_nat n) l.

(** [memcpy(dst, src + off, n)] seen from the source array: the [n] bytes
    copied, or [None] when the range leaves the array or [n] is negative
    (a negative [int] becomes a huge [size_t]). *)
Definition memcpy_from (src : list Z) (off n : Z) : option (list Z) :=
  if (0 <=? off) && (0 <=? n) && (off + n <=? len src)
  then Some (take n (drop off src))
  else None.

(** The array [dst] after [memcpy(dst + off, bs, len bs)], without a bounds
    check: the callers below do the check that fits them. *)
Definition overwrite (dst : list Z) (off : Z) (bs : list Z) : list Z :=
  take off dst ++ bs ++ drop (off + len bs) dst.

(** [memcpy(dst + off, bs, len bs)] into an array of fixed size: [None] when
    the bytes do not fit. *)
Definition memcpy_to (dst : list Z) (off : Z) (bs : list Z) : option (list Z) :=
  if (0 <=? off) && (off + len bs <=? len dst)
  then Some (overwrite dst off bs)
  else None.

(** LRC: the exclusive-or of all the bytes of a region. *)
Definition lrc_of (bs : list Z) : Z := fold_left Z.lxor bs 0.

(** ** Constants of the wire format *)

Definition SYNC : Z := 0x03.
Definition CTRL_ACK : Z := 0x06.
Definition CTRL_NAK : Z := 0x15.
Definition RDR_to_PC_NotifySlotChange : Z := 0x50.
Definition CARD_ABSENT : Z := 0x02.
Definition CARD_PRESENT : Z := 0x03.

(** 271 = max size for short APDU, 2 bytes for header, 1 byte checksum,
    doubled for echo. *)
Definition GEMPCTWIN_MAXBUF : Z := (271 + 2 + 1) * 2.

(** The enumeration [status_t] is declared in a header that is not part of
    the sources; the three enumerators that ccid_serial.c returns are kept as
    distinct values. *)
Inductive status_t : Set :=
| STATUS_SUCCESS
| STATUS_UNSUCCESSFUL
| STATUS_COMM_ERROR.

Definition status_eqb (a b : status_t) : bool :=
  match a, b with
  | STATUS_SUCCESS, STATUS_SUCCESS => true
  | STATUS_UNSUCCESSFUL, STATUS_UNSUCCESSFUL => true
  | STATUS_COMM_ERROR, STATUS_COMM_ERROR => true
  | _, _ => false
  end.

(** Modelled from the spec: the macro [dw2i] comes from a header that is not
    part of the sources; the spec describes the field it reads as a 32-bit
    little-endian payload length at a known offset. *)
Definition dw2i (a : list Z) (x : Z) : Z :=
  nth (Z.to_nat x) a 0
  + 256 * nth (Z.to_nat (x + 1)) a 0
  + 65536 * nth (Z.to_nat (x + 2)) a 0
  + 16777216 * nth (Z.to_nat (x + 3)) a 0.

(** ** Connection state *)

(** The fields of [_ccid_descriptor] (declared in ccid.h) that
    [OpenSerialByName] assigns. *)
Record _ccid_descriptor : Set := {
  real_bSeq : Z;
  readerID : Z;
  dwMaxCCIDMessageLength : Z;
  dwMaxIFSD : Z;
  dwFeatures : Z;
  bPINSupport : Z;
  dwDefaultClock : Z;
  dwMaxDataRate : Z;
  bMaxSlotIndex : Z;
  bCurrentSlotIndex : Z;
  arrayOfSupportedDataRates : list Z;
  readTimeout : Z
}.

Record _serialDevice : Set := {
  fd : Z;                      (* file handle on the serial port *)
  device : option string;      (* device used, NULL when the slot is free *)
  buffer : list Z;             (* serial communication buffer *)
  buffer_offset : Z;           (* next available byte *)
  buffer_offset_last : Z;      (* number of available bytes *)
  ccid : _ccid_descriptor
}.

(** What the next [select]/[read] pair on the descriptor will do. *)
Inductive io_event : Set :=
| SelectError                  (* select() returns -1 *)
| SelectTimeout                (* select() returns 0 *)
| ReadError                    (* descriptor ready, read() returns < 0 *)
| ReadData (bs : list Z).      (* descriptor ready, [bs] waits to be read *)

(** The calls of the DEBUG_COMM and DEBUG_CRITICAL macros, with their
    arguments. *)
Inductive debug_msg : Set :=
| COMM_start
| COMM_time_request (c : Z)
| CRITICAL_Got (c : Z)
| COMM_slot_change
| COMM_Card_removed
| COMM_Card_inserted
| COMM_Unknown_card_movement (c : Z)
| COMM_sync
| CRITICAL_Got_instead_of_ACK_NAK (c : Z)
| COMM_nak
| CRITICAL_Wrong_LRC (c : Z)
| COMM_ack
| COMM_frame_size (to_read : Z)
| COMM_lrc
| COMM_lrc_value (c : Z)
| COMM_available (available needed : Z)
| COMM_data_available
| COMM_some_data_available (present : Z)
| COMM_get_more_data (n : Z)
| COMM_offset (offset last_offset : Z)
| CRITICAL_select
| COMM_Timeout (sec : Z)
| COMM_read_error
| COMM_read (already_read min_length : Z)
| CRITICAL_command_too_long (length max : Z)
| CRITICAL_write_error
| COMM_Reader_index (reader_index : nat) (dev_name : string)
| CRITICAL_Device_already_in_use (dev_name : string)
| CRITICAL_open (dev_name : string)
| INFO_tcflush_error
| INFO_tcgetattr_error
| INFO_tcsetattr_error
| INFO_set_baudrate
| CRITICAL_Get_firmware_failed
| INFO_Firmware (rx : list Z)
| CRITICAL_Change_card_movement_notification_failed.

(** One reader slot, the line behind its descriptor and the diagnostics
    written so far. *)
Record state : Set := {
  dev : _serialDevice;
  line : list io_event;
  debug : list debug_msg
}.

Definition set_buffer (b : list Z) (d : _serialDevice) : _serialDevice :=
  {| fd := fd d; device := device d; buffer := b;
     buffer_offset := buffer_offset d;
     buffer_offset_last := buffer_offset_last d; ccid := ccid d |}.

Definition set_buffer_offset (o : Z) (d : _serialDevice) : _serialDevice :=
  {| fd := fd d; device := device d; buffer := buffer d;
     buffer_offset := o;
     buffer_offset_last := buffer_offset_last d; ccid := ccid d |}.

Definition set_buffer_offset_last (o : Z) (d : _serialDevice) : _serialDevice :=
  {| fd := fd d; device := device d; buffer := buffer d;
     buffer_offset := buffer_offset d;
     buffer_offset_last := o; ccid := ccid d |}.

Definition with_dev (f : _serialDevice -> _serialDevice) (s : state) : state :=
  {| dev := f (dev s); line := line s; debug := debug s |}.

Definition with_line (l : list io_event) (s : state) : state :=
  {| dev := dev s; line := l; debug := debug s |}.

Definition DEBUG (m : debug_msg) (s : state) : state :=
  {| dev := dev s; line := line s; debug := debug s ++ [m] |}.

Inductive outcome (A : Type) : Type :=
| Returns (a : A) (s : state)
| Undefined
| OutOfFuel.

Arguments Returns {A} a s.
Arguments Undefined {A}.
Arguments OutOfFuel {A}.

(** ** ReadChunk: read a minimum number of bytes *)

(** The [while (already_read < min_length)] loop.  [buffer] is always the
    slot's own buffer (the only caller passes it), so the bytes land in
    [buffer (dev s)] at [already_read].  [read] hands over at most
    [buffer_length - already_read] of the waiting bytes and leaves the rest
    on the line. *)
Fixpoint ReadChunk_loop (fuel : nat) (buffer_length min_length already_read : Z)
    (s : state) : outcome Z :=
  if already_read <? min_length then
    match fuel with
    | O => OutOfFuel
    | S fuel' =>
        match line s with
        | [] =>
            (* i = select(...) == 0 *)
            Returns (-1) (DEBUG (COMM_Timeout (readTimeout (ccid (dev s)))) s)
        | SelectError :: l =>
            Returns (-1) (DEBUG CRITICAL_select (with_line l s))
        | SelectTimeout :: l =>
            Returns (-1)
              (DEBUG (COMM_Timeout (readTimeout (ccid (dev s)))) (with_line l s))
        | ReadError :: l =>
            Returns (-1) (DEBUG COMM_read_error (with_line l s))
        | ReadData bs :: l =>
            let count := buffer_length - already_read in
            let got := take count bs in
            let rv := len got in
            let s := with_line (match drop count bs with
                                | [] => l
                                | rest => ReadData rest :: l
                                end) s in
            let s :=
              with_dev
                (fun d => set_buffer (overwrite (buffer d) already_read got) d)
                s in
            let already_read := already_read + rv in
            ReadChunk_loop fuel' buffer_length min_length already_read
              (DEBUG (COMM_read already_read min_length) s)
        end
    end
  else Returns already_read s.

Definition ReadChunk (fuel : nat) (buffer_length min_length : Z) (s : state)
  : outcome Z :=
  ReadChunk_loop fuel buffer_length min_length 0 s.

(** ** get_bytes: get n bytes *)

(** The bytes written to the caller's [buffer] (from its first byte on) are
    returned next to the status; after a failed chunk read these are the
    [present] bytes that were copied before it. *)
Definition get_bytes (fuel : nat) (length : Z) (s : state)
  : outcome (status_t * list Z) :=
  let offset := buffer_offset (dev s) in
  let offset_last := buffer_offset_last (dev s) in
  let s := DEBUG (COMM_available (offset_last - offset) length) s in
  if offset + length <=? offset_last then
    (* enough data are available *)
    let s := DEBUG COMM_data_available s in
    match memcpy_from (buffer (dev s)) offset length with
    | None => Undefined
    | Some out =>
        Returns (STATUS_SUCCESS, out)
          (with_dev (set_buffer_offset (buffer_offset (dev s) + length)) s)
    end
  else
    (* copy available data *)
    let present := offset_last - offset in
    let copied :=
      if 0 <? present then
        match memcpy_from (buffer (dev s)) offset present with
        | None => None
        | Some out => Some (out, DEBUG (COMM_some_data_available present) s)
        end
      else Some ([], s) in
    match copied with
    | None => Undefined
    | Some (out, s) =>
        (* get fresh data *)
        let s := DEBUG (COMM_get_more_data (length - present)) s in
        match ReadChunk fuel GEMPCTWIN_MAXBUF (length - present) s with
        | Undefined => Undefined
        | OutOfFuel => OutOfFuel
        | Returns rv s =>
            if rv <? 0 then Returns (STATUS_COMM_ERROR, out) s
            else if present <? 0 then
              (* buffer + present is in front of the caller's buffer *)
              Undefined
            else
              (* fill the buffer *)
              match memcpy_from (buffer (dev s)) 0 (length - present) with
              | None => Undefined
              | Some fresh =>
                  let s := with_dev (set_buffer_offset (length - present)) s in
                  let s := with_dev (set_buffer_offset_last rv) s in
                  Returns (STATUS_SUCCESS, out ++ fresh)
                    (DEBUG (COMM_offset (buffer_offset (dev s))
                              (buffer_offset_last (dev s))) s)
              end
        end
    end.

(** ** ReadSerial: receive bytes from the card reader *)

(** [if ((rv = get_bytes(...)) != STATUS_SUCCESS) return rv;] *)
Definition failed (rv : status_t) : bool := negb (status_eqb rv STATUS_SUCCESS).

(** The code under each label, with [goto start] as a parameter.  A result
    is the returned status and the contents of the caller's [buffer]; the
    parameter [length] of the source is unused and left out. *)
Section ReadSerial_labels.

Variable fuel : nat.
Variable goto_start : bool -> list Z -> state -> outcome (status_t * list Z).

Definition ReadSerial_slot_change (echo : bool) (buffer : list Z) (s : state)
  : outcome (status_t * list Z) :=
  let s := DEBUG COMM_slot_change s in
  match get_bytes fuel 1 s with
  | Undefined => Undefined
  | OutOfFuel => OutOfFuel
  | Returns (rv, out) s =>
      if failed rv then Returns (rv, buffer) s
      else
        let c := nth 0 out 0 in
        let s :=
          if c =? CARD_ABSENT then DEBUG COMM_Card_removed s
          else if c =? CARD_PRESENT then DEBUG COMM_Card_inserted s
          else DEBUG (COMM_Unknown_card_movement c) s in
        goto_start echo buffer s
  end.

Definition ReadSerial_nak (echo : bool) (buffer : list Z) (s : state)
  : outcome (status_t * list Z) :=
  let s := DEBUG COMM_nak s in
  match get_bytes fuel 1 s with
  | Undefined => Undefined
  | OutOfFuel => OutOfFuel
  | Returns (rv, out) s =>
      if failed rv then Returns (rv, buffer) s
      else
        let c := nth 0 out 0 in
        if negb (c =? Z.lxor SYNC CTRL_NAK) then
          Returns (STATUS_COMM_ERROR, buffer) (DEBUG (CRITICAL_Wrong_LRC c) s)
        else goto_start echo buffer s
  end.

Definition ReadSerial_ack (echo : bool) (buffer : list Z) (s : state)
  : outcome (status_t * list Z) :=
  let s := DEBUG COMM_ack s in
  (* normal CCID frame *)
  match get_bytes fuel 5 s with
  | Undefined => Undefined
  | OutOfFuel => OutOfFuel
  | Returns (rv, out) s =>
      match memcpy_to buffer 0 out with
      | None => Undefined
      | Some buffer =>
          if failed rv then Returns (rv, buffer) s
          else
            (* total frame size *)
            let to_read := to_int (10 + dw2i buffer 1) in
            let s := DEBUG (COMM_frame_size to_read) s in
            (* [int length] of get_bytes *)
            let length := to_int (to_read - 5) in
            if negb (in_int (buffer_offset (dev s) + length)) then
              (* [offset + length] in get_bytes overflows *)
              Undefined
            else
            match get_bytes fuel length s with
            | Undefined => Undefined
            | OutOfFuel => OutOfFuel
            | Returns (rv, out) s =>
                match memcpy_to buffer 5 out with
                | None => Undefined
                | Some buffer =>
                    if failed rv then Returns (rv, buffer) s
                    else
                      (* lrc *)
                      let s := DEBUG COMM_lrc s in
                      match get_bytes fuel 1 s with
                      | Undefined => Undefined
                      | OutOfFuel => OutOfFuel
                      | Returns (rv, out) s =>
                          if failed rv then Returns (rv, buffer) s
                          else
                            let c := nth 0 out 0 in
                            let s := DEBUG (COMM_lrc_value c) s in
                            let c :=
                              fold_left (fun c b => to_uchar (Z.lxor c b))
                                (take to_read buffer) c in
                            let s :=
                              if negb (c =? Z.lxor SYNC CTRL_ACK)
                              then DEBUG (CRITICAL_Wrong_LRC c) s else s in
                            if echo then goto_start false buffer s
                            else Returns (STATUS_SUCCESS, buffer) s
                      end
                end
            end
      end
  end.

Definition ReadSerial_sync (echo : bool) (buffer : list Z) (s : state)
  : outcome (status_t * list Z) :=
  let s := DEBUG COMM_sync s in
  match get_bytes fuel 1 s with
  | Undefined => Undefined
  | OutOfFuel => OutOfFuel
  | Returns (rv, out) s =>
      if failed rv then Returns (rv, buffer) s
      else
        let c := nth 0 out 0 in
        if c =? CTRL_ACK then ReadSerial_ack echo buffer s
        else if c =? CTRL_NAK then ReadSerial_nak echo buffer s
        else
          Returns (STATUS_COMM_ERROR, buffer)
            (DEBUG (CRITICAL_Got_instead_of_ACK_NAK c) s)
  end.

Definition ReadSerial_from_start (echo : bool) (buffer : list Z) (s : state)
  : outcome (status_t * list Z) :=
  let s := DEBUG COMM_start s in
  match get_bytes fuel 1 s with
  | Undefined => Undefined
  | OutOfFuel => OutOfFuel
  | Returns (rv, out) s =>
      if failed rv then Returns (rv, buffer) s
      else
        let c := nth 0 out 0 in
        if c =? RDR_to_PC_NotifySlotChange then ReadSerial_slot_change echo buffer s
        else if c =? SYNC then ReadSerial_sync echo buffer s
        else if c >=? 0x80 then
          goto_start echo buffer (DEBUG (COMM_time_request c) s)
        else Returns (STATUS_COMM_ERROR, buffer) (DEBUG (CRITICAL_Got c) s)
  end.

End ReadSerial_labels.

(** Control at the label [start]; [jumps] bounds how many more times the
    label may be reached, [fuel] bounds each [ReadChunk] loop. *)
Fixpoint ReadSerial_start (fuel jumps : nat) (echo : bool) (buffer : list Z)
    (s : state) : outcome (status_t * list Z) :=
  match jumps with
  | O => OutOfFuel
  | S jumps' =>
      ReadSerial_from_start fuel (ReadSerial_start fuel jumps') echo buffer s
  end.

Definition ReadSerial (fuel : nat) (buffer : list Z) (s : state)
  : outcome (status_t * list Z) :=
  (* we get the echo first *)
  ReadSerial_start fuel fuel true buffer s.

(** ** WriteSerial: send bytes to the card reader *)

Section WriteSerial.

(** [write(fd, buf, count)] of the operating system: the value it returns. *)
Variable write : Z -> list Z -> Z -> Z.

(** [low_level_buffer] is an uninitialised local array; its indeterminate
    bytes are zeros here, and only the first [length + 3] are handed to
    [write]. *)
Definition WriteSerial (length : Z) (buffer : list Z) (s : state)
  : outcome status_t :=
  let low_level_buffer := repeat 0 (Z.to_nat GEMPCTWIN_MAXBUF) in
  if length >? GEMPCTWIN_MAXBUF - 3 then
    Returns STATUS_UNSUCCESSFUL
      (DEBUG (CRITICAL_command_too_long length (GEMPCTWIN_MAXBUF - 3)) s)
  else
    (* header *)
    let low_level_buffer := overwrite low_level_buffer 0 [0x03] in
    let low_level_buffer := overwrite low_level_buffer 1 [0x06] in
    (* CCID command *)
    match memcpy_from buffer 0 length with
    | None => Undefined
    | Some command =>
        let low_level_buffer := overwrite low_level_buffer 2 command in
        (* checksum *)
        let lrc :=
          fold_left (fun lrc b => to_uchar (Z.lxor lrc b))
            (take (length + 2) low_level_buffer) 0 in
        let low_level_buffer := overwrite low_level_buffer (length + 2) [lrc] in
        if negb (write (fd (dev s)) (take (length + 3) low_level_buffer) (length + 3)
                 =? length + 3)
        then Returns STATUS_UNSUCCESSFUL (DEBUG CRITICAL_write_error s)
        else Returns STATUS_SUCCESS s
    end.

End WriteSerial.

(** ** OpenSerialByName: open the port *)

Definition SerialDataRates : list Z :=
  [10753; 14337; 15625; 17204; 20833; 21505; 23438; 25806; 28674; 31250;
   32258; 34409; 39063; 41667; 43011; 46875; 52083; 53763; 57348; 62500;
   64516; 68817; 71685; 78125; 83333; 86022; 93750; 104667; 107527; 114695;
   125000; 129032; 143369; 156250; 166667; 172043; 215054; 229391; 250000;
   344086; 0].

(** The calls made to the operating system on behalf of the port. *)
Inductive syscall : Set :=
| Sys_open (dev_name : string)
| Sys_tcflush (fd : Z)
| Sys_tcgetattr (fd : Z)
| Sys_tcsetattr (fd : Z)
| Sys_close (fd : Z).

(** The static array [serialDevice] (its length is
    [CCID_DRIVER_MAX_READERS]), the system calls made so far and the
    diagnostics written so far. *)
Record driver : Set := {
  serialDevice : list _serialDevice;
  syscalls : list syscall;
  messages : list debug_msg
}.

Definition sys (c : syscall) (g : driver) : driver :=
  {| serialDevice := serialDevice g; syscalls := syscalls g ++ [c];
     messages := messages g |}.

Definition say (m : debug_msg) (g : driver) : driver :=
  {| serialDevice := serialDevice g; syscalls := syscalls g;
     messages := messages g ++ [m] |}.

Fixpoint set_nth {A : Type} (n : nat) (x : A) (l : list A) : list A :=
  match n, l with
  | _, [] => []
  | O, _ :: l => x :: l
  | S n, y :: l => y :: set_nth n x l
  end.

(** [serialDevice[reader].field = ...]; [None] when [reader] is not an
    index of the array. *)
Definition update_slot (reader : nat) (f : _serialDevice -> _serialDevice)
    (g : driver) : option driver :=
  match nth_error (serialDevice g) reader with
  | None => None
  | Some d =>
      Some {| serialDevice := set_nth reader (f d) (serialDevice g);
              syscalls := syscalls g; messages := messages g |}
  end.

Definition set_fd (v : Z) (d : _serialDevice) : _serialDevice :=
  {| fd := v; device := device d; buffer := buffer d;
     buffer_offset := buffer_offset d;
     buffer_offset_last := buffer_offset_last d; ccid := ccid d |}.

Definition set_device (v : option string) (d : _serialDevice) : _serialDevice :=
  {| fd := fd d; device := v; buffer := buffer d;
     buffer_offset := buffer_offset d;
     buffer_offset_last := buffer_offset_last d; ccid := ccid d |}.

Definition set_ccid (v : _ccid_descriptor) (d : _serialDevice) : _serialDevice :=
  {| fd := fd d; device := device d; buffer := buffer d;
     buffer_offset := buffer_offset d;
     buffer_offset_last := buffer_offset_last d; ccid := v |}.

Definition set_readTimeout (v : Z) (c : _ccid_descriptor) : _ccid_descriptor :=
  {| real_bSeq := real_bSeq c; readerID := readerID c;
     dwMaxCCIDMessageLength := dwMaxCCIDMessageLength c;
     dwMaxIFSD := dwMaxIFSD c; dwFeatures := dwFeatures c;
     bPINSupport := bPINSupport c; dwDefaultClock := dwDefaultClock c;
     dwMaxDataRate := dwMaxDataRate c; bMaxSlotIndex := bMaxSlotIndex c;
     bCurrentSlotIndex := bCurrentSlotIndex c;
     arrayOfSupportedDataRates := arrayOfSupportedDataRates c;
     readTimeout := v |}.

(** The loop that checks if the same channel is not already used:
    [serialDevice[i].device && strcmp(serialDevice[i].device, dev_name) == 0]
    for some [i]. *)
Fixpoint channel_already_used (slots : list _serialDevice) (dev_name : string)
  : bool :=
  match slots with
  | [] => false
  | d :: slots =>
      match device d with
      | Some name =>
          if String.eqb name dev_name then true
          else channel_already_used slots dev_name
      | None => channel_already_used slots dev_name
      end
  end.

Section OpenSerialByName.

(** The answers of the operating system. *)
Variable sys_open : string -> Z.
Variable sys_tcflush : Z -> Z.
Variable sys_tcgetattr : Z -> Z.
Variable sys_tcsetattr : Z -> Z.

(** Constants of headers that are not part of the sources. *)
Variable GEMPCTWIN : Z.
Variable DEFAULT_COM_READ_TIMEOUT : Z.

(** [CmdEscape] of commands.c (not part of the sources): whether it returns
    [IFD_SUCCESS], the bytes received and what it does to the driver. *)
Variable CmdEscape : nat -> list Z -> driver -> bool * list Z * driver.

Notation "x <- m ;; k" := (match m with Some x => k | None => None end)
  (at level 61, m at next level, right associativity).

(** From the check of the channel to the reset of the buffer cursors: an
    early [return] of a status, or the driver in which the slot is set up.
    The contents of the [termios] structure are not kept, and neither is
    [ccid.pbSeq], a pointer to [ccid.real_bSeq]. *)
Definition OpenSerialByName_setup (reader_index : nat) (dev_name : string)
    (g : driver) : option (status_t * driver + driver) :=
  let reader := reader_index in
  let g := say (COMM_Reader_index reader_index dev_name) g in
  (* check if the same channel is not already used *)
  if channel_already_used (serialDevice g) dev_name then
    Some (inl (STATUS_UNSUCCESSFUL,
               say (CRITICAL_Device_already_in_use dev_name) g))
  else
    let fd := sys_open dev_name in
    g <- update_slot reader (set_fd fd) (sys (Sys_open dev_name) g) ;;
    if -1 =? fd then
      Some (inl (STATUS_UNSUCCESSFUL, say (CRITICAL_open dev_name) g))
    else
      (* set channel used *)
      g <- update_slot reader (set_device (Some dev_name)) g ;;
      (* empty in and out serial buffers *)
      let g := sys (Sys_tcflush fd) g in
      let g := if negb (sys_tcflush fd =? 0) then say INFO_tcflush_error g
               else g in
      (* get config attributes *)
      let g := sys (Sys_tcgetattr fd) g in
      if sys_tcgetattr fd =? -1 then
        let g := say INFO_tcgetattr_error g in
        g <- update_slot reader (set_fd (-1)) (sys (Sys_close fd) g) ;;
        Some (inl (STATUS_UNSUCCESSFUL, g))
      else
        (* set serial port speed to 115200 bauds *)
        let g := say INFO_set_baudrate g in
        let g := sys (Sys_tcsetattr fd) g in
        if sys_tcsetattr fd =? -1 then
          g <- update_slot reader (set_fd (-1)) (sys (Sys_close fd) g) ;;
          Some (inl (STATUS_UNSUCCESSFUL, say INFO_tcsetattr_error g))
        else
          g <- update_slot reader
                 (fun d =>
                    set_ccid
                      {| real_bSeq := 0;
                         readerID := GEMPCTWIN;
                         dwMaxCCIDMessageLength := 271;
                         dwMaxIFSD := 254;
                         dwFeatures := 0x00010230;
                         bPINSupport := 0x0;
                         dwDefaultClock := 4000;
                         dwMaxDataRate := 344086;
                         bMaxSlotIndex := 0;
                         bCurrentSlotIndex := 0;
                         arrayOfSupportedDataRates := SerialDataRates;
                         readTimeout := readTimeout (ccid d) |} d) g ;;
          g <- update_slot reader (set_buffer_offset 0) g ;;
          g <- update_slot reader (set_buffer_offset_last 0) g ;;
          Some (inr g).

(** The two commands sent to the reader once the slot is set up.  The
    received bytes are only logged. *)
Definition OpenSerialByName_probe (reader_index : nat) (g : driver)
  : option (status_t * driver) :=
  let reader := reader_index in
  (* perform a command to be sure a GemPC Twin reader is connected:
     get the reader firmware *)
  (* 2 seconds timeout to not wait too long if no reader is connected *)
  g <- update_slot reader
         (fun d => set_ccid (set_readTimeout 2 (ccid d)) d) g ;;
  let '(ok, rx_buffer, g) := CmdEscape reader_index [0x02] g in
  if negb ok then Some (STATUS_UNSUCCESSFUL, say CRITICAL_Get_firmware_failed g)
  else
    (* normal timeout *)
    g <- update_slot reader
           (fun d => set_ccid (set_readTimeout DEFAULT_COM_READ_TIMEOUT (ccid d)) d)
           g ;;
    let g := say (INFO_Firmware rx_buffer) g in
    (* perform a command to configure GemPC Twin reader card movement
       notification to synchronous mode *)
    let '(ok, _, g) := CmdEscape reader_index [0x01; 0x01; 0x01] g in
    if negb ok then
      Some (STATUS_UNSUCCESSFUL,
            say CRITICAL_Change_card_movement_notification_failed g)
    else Some (STATUS_SUCCESS, g).

Definition OpenSerialByName (reader_index : nat) (dev_name : string)
    (g : driver) : option (status_t * driver) :=
  r <- OpenSerialByName_setup reader_index dev_name g ;;
  match r with
  | inl early => Some early
  | inr g => OpenSerialByName_probe reader_index g
  end.

End OpenSerialByName.

(** CloseSerial: close the port. *)
Definition CloseSerial (reader_index : nat) (g : driver)
  : option (status_t * driver) :=
  match nth_error (serialDevice g) reader_index with
  | None => None
  | Some d =>
      match update_slot reader_index (set_fd (-1)) (sys (Sys_close (fd d)) g) with
      | None => None
      | Some g =>
          match update_slot reader_index (set_device None) g with
          | None => None
          | Some g => Some (STATUS_SUCCESS, g)
          end
      end
  end.

(** ** OpenSerial: open the port *)

(** The two diagnostics of [OpenSerial] itself; they come before those of
    [OpenSerialByName]. *)
Inductive OpenSerial_msg : Set :=
| COMM_Reader_index_Channel (reader_index : nat) (channel : Z)
| CRITICAL_wrong_port_number (channel : Z).

(** [sprintf(dev_name, "/dev/pcsc/%d", (int) channel)]. *)
Definition sprintf_dev_name (channel : Z) : string :=
  ("/dev/pcsc/" ++ DecimalString.NilZero.string_of_int (Z.to_int channel))%string.

Section OpenSerial.

Variable sys_open : string -> Z.
Variable sys_tcflush : Z -> Z.
Variable sys_tcgetattr : Z -> Z.
Variable sys_tcsetattr : Z -> Z.
Variable GEMPCTWIN : Z.
Variable DEFAULT_COM_READ_TIMEOUT : Z.
Variable CmdEscape : nat -> list Z -> driver -> bool * list Z * driver.

Definition OpenSerial (reader_index : nat) (channel : Z) (g : driver)
  : list OpenSerial_msg * option (status_t * driver) :=
  let log := [COMM_Reader_index_Channel reader_index channel] in
  (* Conversion of old-style ifd-handler 1.0 CHANNELID *)
  let channel :=
    if channel =? 0x0103F8 then 1
    else if channel =? 0x0102F8 then 2
    else if channel =? 0x0103E8 then 3
    else if channel =? 0x0102E8 then 4
    else channel in
  if channel <? 0 then
    (log ++ [CRITICAL_wrong_port_number channel],
     Some (STATUS_UNSUCCESSFUL, g))
  else
    (log,
     OpenSerialByName sys_open sys_tcflush sys_tcgetattr sys_tcsetattr
       GEMPCTWIN DEFAULT_COM_READ_TIMEOUT CmdEscape
       reader_index (sprintf_dev_name channel) g).

End OpenSerial.

(** get_ccid_descriptor: [&serialDevice[reader_index].ccid]. *)
Definition get_ccid_descriptor (reader_index : nat) (g : driver)
  : option _ccid_descriptor :=
  match nth_error (serialDevice g) reader_index with
  | Some d => Some (ccid d)
  | None => None
  end.

(** ** Vocabulary of the statements *)

(** [0 <= consumed_offset <= valid_length <= buffer_capacity]; the capacity
    is [sizeof(buffer)]. *)
Definition cursor_inv (d : _serialDevice) : Prop :=
  0 <= buffer_offset d
  /\ buffer_offset d <= buffer_offset_last d
  /\ buffer_offset_last d <= GEMPCTWIN_MAXBUF.

(** A slot whose cursors are sound and whose array has its declared size. *)
Definition wf_dev (d : _serialDevice) : Prop :=
  cursor_inv d /\ len (buffer d) = GEMPCTWIN_MAXBUF.

(** The bytes buffered and not yet consumed. *)
Definition available (d : _serialDevice) : list Z :=
  take (buffer_offset_last d - buffer_offset d) (drop (buffer_offset d) (buffer d)).

(** The bytes a line will deliver, when it delivers bytes only (no timeout
    and no error before the script ends). *)
Fixpoint incoming (l : list io_event) : option (list Z) :=
  match l with
  | [] => Some []
  | ReadData bs :: l =>
      match incoming l with
      | Some D => Some (bs ++ D)
      | None => None
      end
  | _ => None
  end.

(** The byte stream in front of the decoder: what is buffered, then what
    the line delivers. *)
Definition pending (s : state) : option (list Z) :=
  match incoming (line s) with
  | Some D => Some (available (dev s) ++ D)
  | None => None
  end.

(** [feeds s bs]: a sound slot that faces exactly the byte stream [bs]. *)
Definition feeds (s : state) (bs : list Z) : Prop :=
  wf_dev (dev s) /\ pending s = Some bs.

(** The diagnostics that report something to the reader of the log: card
    movements, checksum warnings and failures.  The remaining messages
    narrate the control flow. *)
Definition notable (m : debug_msg) : bool :=
  match m with
  | COMM_Card_removed | COMM_Card_inserted | COMM_Unknown_card_movement _
  | CRITICAL_Got _ | CRITICAL_Got_instead_of_ACK_NAK _ | CRITICAL_Wrong_LRC _
  | CRITICAL_select | COMM_Timeout _ | COMM_read_error
  | CRITICAL_command_too_long _ _ | CRITICAL_write_error
  | CRITICAL_Device_already_in_use _ | CRITICAL_open _
  | CRITICAL_Get_firmware_failed
  | CRITICAL_Change_card_movement_notification_failed => true
  | _ => false
  end.

Definition reported (s : state) : list debug_msg := filter notable (debug s).

(** The requests for fresh data: [get_bytes] logs one right before each
    call of [ReadChunk]. *)
Definition is_chunk_request (m : debug_msg) : bool :=
  match m with
  | COMM_get_more_data _ => true
  | _ => false
  end.

Definition chunk_requests (s : state) : list debug_msg :=
  filter is_chunk_request (debug s).

(** A line that makes the next [select]/[read] pair fail: it stays silent
    (the script is over, or says so) or one of the two calls reports an
    error. *)
Definition fails_next (l : list io_event) : bool :=
  match l with
  | ReadData _ :: _ => false
  | _ => true
  end.

(** The diagnostic [ReadChunk] writes when it meets such a line; [t] is the
    timeout of the connection. *)
Definition failure_msg (t : Z) (l : list io_event) : debug_msg :=
  match l with
  | SelectError :: _ => CRITICAL_select
  | ReadError :: _ => COMM_read_error
  | _ => COMM_Timeout t
  end.

(** A line that stays silent for a whole timeout. *)
Definition times_out (l : list io_event) : bool :=
  match l with
  | [] | SelectTimeout :: _ => true
  | _ => false
  end.

(** One message on the wire: SYNC, ACK, a frame and its trailing LRC byte. *)
Definition message (frame : list Z) (lrc : Z) : list Z :=
  [SYNC; CTRL_ACK] ++ frame ++ [lrc].

(** The LRC byte that makes a message well formed. *)
Definition frame_lrc (frame : list Z) : Z :=
  Z.lxor (Z.lxor SYNC CTRL_ACK) (lrc_of frame).

(** What the [ack] path reports about the LRC byte [lrc] that trails
    [frame]: nothing when it matches, one warning otherwise. *)
Definition lrc_diagnostic (frame : list Z) (lrc : Z) : list debug_msg :=
  let c := Z.lxor lrc (lrc_of frame) in
  if c =? Z.lxor SYNC CTRL_ACK then [] else [CRITICAL_Wrong_LRC c].

(** What the [slot_change] path reports about the movement code [c]. *)
Definition movement (c : Z) : debug_msg :=
  if c =? CARD_ABSENT then COMM_Card_removed
  else if c =? CARD_PRESENT then COMM_Card_inserted
  else COMM_Unknown_card_movement c.

(** A CCID frame as [ReadSerial] delimits it: 10 bytes of header, whose bytes
    1 to 4 declare the number [L] of data bytes that follow. *)
Definition ccid_frame (frame : list Z) (L : Z) : Prop :=
  Forall is_byte frame /\ dw2i frame 1 = L /\ len frame = 10 + L.

(** A frame as [ReadSerial] delimits it on any header: as long as the
    [int] that [10 + dw2i(buffer, 1)] gives, which counts the declared
    length modulo [2 ^ 32], and not shorter than the header. *)
Definition wire_frame (frame : list Z) : Prop :=
  Forall is_byte frame
  /\ len frame = to_int (10 + dw2i frame 1)
  /\ 5 <= len frame.

(** A response made of a 5-byte header declaring [L] and of [L] payload
    bytes, five bytes shorter than a CCID frame. *)
Definition short_frame (frame : list Z) (L : Z) : Prop :=
  Forall is_byte frame /\ dw2i frame 1 = L /\ len frame = 5 + L.

(** What the reader may send between the messages of an exchange: a time
    request (one byte from 0x80 up), a slot-change notification with its
    movement code, or a NAK with its LRC. *)
Inductive interleaved : Set :=
| Time_request (c : Z)
| Slot_change (c : Z)
| Nak.

Definition on_wire (i : interleaved) : list Z :=
  match i with
  | Time_request c => [c]
  | Slot_change c => [RDR_to_PC_NotifySlotChange; c]
  | Nak => [SYNC; CTRL_NAK; Z.lxor SYNC CTRL_NAK]
  end.

Definition interleaved_ok (i : interleaved) : Prop :=
  match i with
  | Time_request c => 0x80 <= c
  | _ => True
  end.

Definition report_of (i : interleaved) : list debug_msg :=
  match i with
  | Slot_change c => [movement c]
  | _ => []
  end.

(** The legacy CHANNELID values and the channels they stand for. *)
Definition legacy_channel (channel : Z) : Z :=
  if channel =? 0x0103F8 then 1
  else if channel =? 0x0102F8 then 2
  else if channel =? 0x0103E8 then 3
  else if channel =? 0x0102E8 then 4
  else channel.

(** Whether some slot owns the device path. *)
Definition owned (dev_name : string) (g : driver) : Prop :=
  exists i d, nth_error (serialDevice g) i = Some d /\ device d = Some dev_name.

(** The driver in which slot [reader] holds [d]. *)
Definition put_slot (reader : nat) (d : _serialDevice) (g : driver) : driver :=
  {| serialDevice := set_nth reader d (serialDevice g);
     syscalls := syscalls g; messages := messages g |}.


(** ** Sample connections *)

Definition status_of {A : Type} (o : outcome (status_t * A)) : option status_t :=
  match o with
  | Returns (rv, _) _ => Some rv
  | _ => None
  end.

Definition sample_ccid : _ccid_descriptor :=
  {| real_bSeq := 0; readerID := 0; dwMaxCCIDMessageLength := 271;
     dwMaxIFSD := 254; dwFeatures := 0x00010230; bPINSupport := 0;
     dwDefaultClock := 4000; dwMaxDataRate := 344086; bMaxSlotIndex := 0;
     bCurrentSlotIndex := 0; arrayOfSupportedDataRates := SerialDataRates;
     readTimeout := 2 |}.

(** A slot just opened on descriptor 3: nothing buffered. *)
Definition sample_slot : _serialDevice :=
  {| fd := 3; device := Some "/dev/pcsc/1"%string;
     buffer := repeat 0 (Z.to_nat GEMPCTWIN_MAXBUF);
     buffer_offset := 0; buffer_offset_last := 0; ccid := sample_ccid |}.

(** A slot that was never opened. *)
Definition free_slot : _serialDevice :=
  {| fd := 0; device := None;
     buffer := repeat 0 (Z.to_nat GEMPCTWIN_MAXBUF);
     buffer_offset := 0; buffer_offset_last := 0; ccid := sample_ccid |}.

Definition on_line (l : list io_event) : state :=
  {| dev := sample_slot; line := l; debug := [] |}.

(** A slot with two unconsumed bytes, 0x90 0x00, at offsets 1 and 2. *)
Definition sample_slot_2 : _serialDevice :=
  {| fd := 3; device := Some "/dev/pcsc/1"%string;
     buffer := [0x16; 0x90; 0x00] ++ repeat 0 (Z.to_nat GEMPCTWIN_MAXBUF - 3);
     buffer_offset := 1; buffer_offset_last := 3; ccid := sample_ccid |}.

Definition on_line_2 (l : list io_event) : state :=
  {| dev := sample_slot_2; line := l; debug := [] |}.

(** PC_to_RDR_GetSlotStatus, no data: what the reader echoes. *)
Definition sample_command : list Z := [0x65; 0; 0; 0; 0; 0; 0; 0; 0; 0].

(** RDR_to_PC_DataBlock with the two data bytes 0x90 0x00. *)
Definition sample_response : list Z :=
  [0x80; 2; 0; 0; 0; 0; 0; 0; 0; 0; 0x90; 0x00].

(** A response with a 5-byte header declaring no payload, and its message. *)
Definition short_response : list Z := [0x80; 0; 0; 0; 0].

(** A response whose header declares 0xFFFFFFFF bytes, with 4 bytes behind
    the header. *)
Definition wrapped_response : list Z :=
  [0x80; 0xFF; 0xFF; 0xFF; 0xFF; 1; 2; 3; 4].


Definition sample_driver : driver :=
  {| serialDevice := [sample_slot; free_slot]; syscalls := []; messages := [] |}.

(** A slot that was closed after an exchange: the path is free, the cursors
    are where the last read left them. *)
Definition closed_slot : _serialDevice :=
  {| fd := -1; device := None;
     buffer := repeat 0 (Z.to_nat GEMPCTWIN_MAXBUF);
     buffer_offset := 20; buffer_offset_last := 28; ccid := sample_ccid |}.

Definition stale_driver : driver :=
  {| serialDevice := [sample_slot; closed_slot]; syscalls := [];
     messages := [] |}.

(** * Properties *)

(** ** Machine integers *)

Lemma to_int_small (z : Z) : INT_MIN <= z <= INT_MAX -> to_int z = z.
Proof.
  unfold INT_MIN, INT_MAX, to_int. intros H.
  rewrite Z.mod_small by lia. lia.
Qed.

Lemma to_int_range (z : Z) : INT_MIN <= to_int z <= INT_MAX.
Proof.
  unfold INT_MIN, INT_MAX, to_int.
  pose proof (Z.mod_pos_bound (z + 2 ^ 31) (2 ^ 32)). lia.
Qed.


Lemma in_int_true (z : Z) : INT_MIN <= z <= INT_MAX -> in_int z = true.
Proof.
  intros H. unfold in_int. apply andb_true_intro. split; apply Z.leb_le; lia.
Qed.

(** ** Arrays with integer indices *)

Lemma len_nonneg {A} (l : list A) : 0 <= len l.
Proof. unfold len. lia. Qed.

Lemma len_app {A} (a b : list A) : len (a ++ b) = len a + len b.
Proof. unfold len. rewrite length_app. lia. Qed.

Lemma len_cons {A} (x : A) (l : list A) : len (x :: l) = 1 + len l.
Proof. unfold len. cbn [List.length]. lia. Qed.

Lemma len_take {A} (n : Z) (l : list A) :
  0 <= n <= len l -> len (take n l) = n.
Proof. unfold len, take. intros H. rewrite length_firstn. lia. Qed.

Lemma len_take_le {A} (n : Z) (l : list A) : len (take n l) <= len l.
Proof. unfold len, take. rewrite length_firstn. lia. Qed.

Lemma len_take_min {A} (n : Z) (l : list A) :
  0 <= n -> len (take n l) = Z.min n (len l).
Proof. unfold len, take. intros H. rewrite length_firstn. lia. Qed.

Lemma len_drop {A} (n : Z) (l : list A) :
  0 <= n <= len l -> len (drop n l) = len l - n.
Proof. unfold len, drop. intros H. rewrite length_skipn. lia. Qed.

Lemma take_all {A} (n : Z) (l : list A) : len l <= n -> take n l = l.
Proof. unfold len, take. intros H. apply firstn_all2. lia. Qed.

Lemma take_none {A} (n : Z) (l : list A) : n <= 0 -> take n l = [].
Proof.
  unfold take. intros H. replace (Z.to_nat n) with O by lia. reflexivity.
Qed.

Lemma drop_all {A} (n : Z) (l : list A) : len l <= n -> drop n l = [].
Proof. unfold len, drop. intros H. apply skipn_all2. lia. Qed.

Lemma drop_none {A} (n : Z) (l : list A) : n <= 0 -> drop n l = l.
Proof.
  unfold drop. intros H. replace (Z.to_nat n) with O by lia. reflexivity.
Qed.

Lemma drop_nil_len {A} (n : Z) (l : list A) : drop n l = [] -> len l <= Z.max 0 n.
Proof.
  unfold len, drop. intros H. apply (f_equal (@List.length A)) in H.
  rewrite length_skipn in H. simpl in H. lia.
Qed.

Lemma drop_cons_len {A} (n : Z) (l : list A) (x : A) (r : list A) :
  drop n l = x :: r -> n < len l.
Proof.
  unfold len, drop. intros H. apply (f_equal (@List.length A)) in H.
  rewrite length_skipn in H. simpl in H. lia.
Qed.

Lemma take_drop {A} (n : Z) (l : list A) : take n l ++ drop n l = l.
Proof. apply firstn_skipn. Qed.

Lemma take_app_l {A} (n : Z) (a b : list A) :
  n <= len a -> take n (a ++ b) = take n a.
Proof.
  unfold len, take. intros H. rewrite firstn_app.
  replace (Z.to_nat n - List.length a)%nat with O by lia.
  simpl. apply app_nil_r.
Qed.

Lemma take_app_r {A} (n : Z) (a b : list A) :
  len a <= n -> take n (a ++ b) = a ++ take (n - len a) b.
Proof.
  unfold len, take. intros H. rewrite firstn_app.
  rewrite firstn_all2 by lia.
  replace (Z.to_nat n - List.length a)%nat
    with (Z.to_nat (n - Z.of_nat (List.length a))) by lia.
  reflexivity.
Qed.

Lemma drop_app_l {A} (n : Z) (a b : list A) :
  n <= len a -> drop n (a ++ b) = drop n a ++ b.
Proof.
  unfold len, drop. intros H. rewrite skipn_app.
  replace (Z.to_nat n - List.length a)%nat with O by lia.
  reflexivity.
Qed.

Lemma drop_app_r {A} (n : Z) (a b : list A) :
  len a <= n -> drop n (a ++ b) = drop (n - len a) b.
Proof.
  unfold len, drop. intros H. rewrite skipn_app.
  rewrite skipn_all2 by lia.
  replace (Z.to_nat n - List.length a)%nat
    with (Z.to_nat (n - Z.of_nat (List.length a))) by lia.
  reflexivity.
Qed.

Lemma drop_drop {A} (a b : Z) (l : list A) :
  0 <= a -> 0 <= b -> drop a (drop b l) = drop (a + b) l.
Proof.
  unfold drop. intros Ha Hb. rewrite skipn_skipn. f_equal. lia.
Qed.

Lemma take_take {A} (n m : Z) (l : list A) :
  n <= m -> take n (take m l) = take n l.
Proof.
  unfold take. intros H. rewrite firstn_firstn. f_equal. lia.
Qed.

Lemma drop_take {A} (a b : Z) (l : list A) :
  0 <= a -> drop a (take b l) = take (b - a) (drop a l).
Proof.
  unfold take, drop. intros H. rewrite skipn_firstn_comm. f_equal. lia.
Qed.

Lemma take_len_app {A} (a b : list A) : take (len a) (a ++ b) = a.
Proof. rewrite take_app_l by lia. apply take_all. lia. Qed.

Lemma drop_len_app {A} (a b : list A) : drop (len a) (a ++ b) = b.
Proof.
  rewrite drop_app_r by lia. apply drop_none. lia.
Qed.

Lemma nth_0_take_1 (l : list Z) (x : Z) (r : list Z) :
  l = x :: r -> nth 0 (take 1 l) 0 = x.
Proof. intros ->. reflexivity. Qed.

Lemma len_overwrite (dst : list Z) (off : Z) (bs : list Z) :
  0 <= off -> off + len bs <= len dst -> len (overwrite dst off bs) = len dst.
Proof.
  intros H0 H1. pose proof (len_nonneg bs). unfold overwrite.
  rewrite !len_app, len_take, len_drop by lia. lia.
Qed.

Lemma overwrite_overwrite (dst : list Z) (off : Z) (x y : list Z) :
  0 <= off <= len dst ->
  overwrite (overwrite dst off x) (off + len x) y = overwrite dst off (x ++ y).
Proof.
  intros H. pose proof (len_nonneg x). pose proof (len_nonneg y).
  unfold overwrite.
  assert (Ht : len (take off dst) = off) by (apply len_take; lia).
  set (tl := drop (off + len x) dst).
  assert (E1 : take (off + len x) (take off dst ++ x ++ tl) = take off dst ++ x).
  { rewrite take_app_r by lia. rewrite Ht.
    replace (off + len x - off) with (len x) by lia.
    now rewrite take_len_app. }
  assert (E2 : drop (off + len x + len y) (take off dst ++ x ++ tl)
               = drop (off + len (x ++ y)) dst).
  { rewrite drop_app_r by lia. rewrite Ht.
    rewrite drop_app_r by lia.
    unfold tl. rewrite drop_drop by lia. rewrite len_app. f_equal. lia. }
  rewrite E1, E2. now rewrite <- !app_assoc.
Qed.

Lemma overwrite_nil (dst : list Z) (off : Z) : overwrite dst off [] = dst.
Proof.
  unfold overwrite. simpl. replace (off + len (@nil Z)) with off.
  - apply take_drop.
  - unfold len. cbn [List.length]. lia.
Qed.

Lemma memcpy_from_ok (src : list Z) (off n : Z) :
  0 <= off -> 0 <= n -> off + n <= len src ->
  memcpy_from src off n = Some (take n (drop off src)).
Proof.
  intros H0 H1 H2. unfold memcpy_from.
  replace (0 <=? off) with true by (symmetry; apply Z.leb_le; lia).
  replace (0 <=? n) with true by (symmetry; apply Z.leb_le; lia).
  replace (off + n <=? len src) with true by (symmetry; apply Z.leb_le; lia).
  reflexivity.
Qed.

Lemma memcpy_from_Some (src : list Z) (off n : Z) (out : list Z) :
  memcpy_from src off n = Some out ->
  0 <= off /\ 0 <= n /\ off + n <= len src /\ out = take n (drop off src).
Proof.
  unfold memcpy_from.
  destruct (0 <=? off) eqn:E0; [|discriminate].
  destruct (0 <=? n) eqn:E1; [|discriminate].
  destruct (off + n <=? len src) eqn:E2; [|discriminate].
  simpl. intros [= <-].
  apply Z.leb_le in E0, E1, E2. auto.
Qed.

Lemma memcpy_to_ok (dst : list Z) (off : Z) (bs : list Z) :
  0 <= off -> off + len bs <= len dst ->
  memcpy_to dst off bs = Some (overwrite dst off bs).
Proof.
  intros H0 H1. unfold memcpy_to.
  replace (0 <=? off) with true by (symmetry; apply Z.leb_le; lia).
  replace (off + len bs <=? len dst) with true by (symmetry; apply Z.leb_le; lia).
  reflexivity.
Qed.
(** ** ReadChunk *)

Lemma ReadChunk_loop_done fuel BL min a s :
  min <= a -> ReadChunk_loop fuel BL min a s = Returns a s.
Proof.
  intros H. destruct fuel; simpl;
    replace (a <? min) with false by (symmetry; apply Z.ltb_ge; lia);
    reflexivity.
Qed.

(** Whatever the line does, a chunk read leaves the cursors alone, and a
    non-negative result lies between the minimum asked for and the size of
    the buffer. *)
Lemma ReadChunk_loop_returns fuel BL min :
  forall a s rv s',
    0 <= a <= BL ->
    ReadChunk_loop fuel BL min a s = Returns rv s' ->
    buffer_offset (dev s') = buffer_offset (dev s)
    /\ buffer_offset_last (dev s') = buffer_offset_last (dev s)
    /\ (rv = -1 \/ (min <= rv /\ a <= rv <= BL)).
Proof.
  induction fuel as [|fuel IH]; intros a s rv s' Ha H; simpl in H;
    destruct (a <? min) eqn:E.
  - discriminate.
  - injection H as <- <-. apply Z.ltb_ge in E. intuition lia.
  - destruct (line s) as [|[| | |bs] l] eqn:El;
      try (injection H as <- <-; simpl; intuition lia).
    apply IH in H.
    + simpl in H. destruct H as (H1 & H2 & H3).
      pose proof (len_nonneg (take (BL - a) bs)). intuition lia.
    + pose proof (len_nonneg (take (BL - a) bs)).
      pose proof (len_take_min (BL - a) bs). lia.
  - injection H as <- <-. apply Z.ltb_ge in E. intuition lia.
Qed.
Lemma reported_DEBUG m s :
  reported (DEBUG m s) = reported s ++ (if notable m then [m] else []).
Proof.
  unfold reported, DEBUG. simpl. rewrite filter_app. simpl.
  destruct (notable m); reflexivity.
Qed.

Lemma chunk_requests_DEBUG m s :
  chunk_requests (DEBUG m s)
  = chunk_requests s ++ (if is_chunk_request m then [m] else []).
Proof.
  unfold chunk_requests, DEBUG. simpl. rewrite filter_app. simpl.
  destruct (is_chunk_request m); reflexivity.
Qed.

Lemma incoming_cons_data bs l D :
  incoming (ReadData bs :: l) = Some D ->
  exists D', incoming l = Some D' /\ D = bs ++ D'.
Proof.
  simpl. destruct (incoming l) as [D'|]; [|discriminate].
  intros [= <-]. eauto.
Qed.

(** On a line that delivers bytes only, and enough of them, a chunk read
    returns between [min_length] and [buffer_length] bytes, lands them in
    the buffer from [already_read] on and leaves the others on the line. *)
Lemma ReadChunk_loop_data fuel BL min :
  forall a s D,
    incoming (line s) = Some D ->
    0 <= a <= BL -> BL <= len (buffer (dev s)) ->
    min - a <= len D -> min <= BL ->
    (List.length (line s) <= fuel)%nat ->
    exists rv s',
      ReadChunk_loop fuel BL min a s = Returns rv s'
      /\ min <= rv /\ a <= rv <= BL /\ rv - a <= len D
      /\ buffer (dev s') = overwrite (buffer (dev s)) a (take (rv - a) D)
      /\ incoming (line s') = Some (drop (rv - a) D)
      /\ (List.length (line s') <= List.length (line s))%nat
      /\ buffer_offset (dev s') = buffer_offset (dev s)
      /\ buffer_offset_last (dev s') = buffer_offset_last (dev s)
      /\ reported s' = reported s
      /\ chunk_requests s' = chunk_requests s.
Proof.
  induction fuel as [|fuel IH]; intros a s D HD Ha Hbuf Hmin HBL Hfuel.
  - destruct (Z.ltb_spec a min) as [E|E].
    + destruct (line s); [|simpl in Hfuel; lia].
      injection HD as <-. change (len (@nil Z)) with 0 in Hmin. lia.
    + exists a, s. rewrite ReadChunk_loop_done by lia.
      replace (a - a) with 0 by lia.
      rewrite take_none, drop_none, overwrite_nil by lia.
      pose proof (len_nonneg D). repeat split; auto; lia.
  - destruct (Z.ltb_spec a min) as [E|E].
    2:{ exists a, s. rewrite ReadChunk_loop_done by lia.
        replace (a - a) with 0 by lia.
        rewrite take_none, drop_none, overwrite_nil by lia.
        pose proof (len_nonneg D). repeat split; auto; lia. }
    simpl. replace (a <? min) with true by (symmetry; apply Z.ltb_lt; lia).
    destruct (line s) as [|[| | |bs] l] eqn:El; try discriminate.
    { injection HD as <-. change (len (@nil Z)) with 0 in Hmin. lia. }
    apply incoming_cons_data in HD. destruct HD as (D' & HD' & ->).
    rewrite len_app in Hmin. pose proof (len_nonneg bs) as Hbs.
    pose proof (len_nonneg D') as HD'0.
    destruct (drop (BL - a) bs) as [|x r] eqn:Edrop.
    + (* the whole of [bs] is read *)
      apply drop_nil_len in Edrop.
      rewrite (take_all (BL - a) bs) by lia.
      set (s1 := DEBUG _ _).
      destruct (IH (a + len bs) s1 D') as (rv & s' & Hrun & H1 & H2 & H3 & H4 & H5 & H6 & H7 & H8 & H9 & H10).
      * exact HD'.
      * lia.
      * subst s1. simpl. rewrite len_overwrite; lia.
      * lia.
      * lia.
      * subst s1. simpl. simpl in Hfuel. lia.
      * exists rv, s'. rewrite Hrun. subst s1. simpl in *.
        rewrite reported_DEBUG in H9. rewrite chunk_requests_DEBUG in H10.
        simpl in H9, H10. rewrite app_nil_r in H9, H10.
        rewrite len_app.
        repeat split; try lia; auto.
        -- rewrite H4. rewrite overwrite_overwrite by lia.
           rewrite take_app_r by lia. do 3 f_equal. lia.
        -- rewrite H5. rewrite drop_app_r by lia. do 2 f_equal. lia.
    + (* [read] fills the buffer and leaves the rest of [bs] on the line *)
      pose proof (drop_cons_len _ _ _ _ Edrop) as Hlt.
      assert (Hgot : len (take (BL - a) bs) = BL - a) by (apply len_take; lia).
      rewrite Hgot. replace (a + (BL - a)) with BL by lia.
      rewrite ReadChunk_loop_done by lia.
      eexists _, _. split; [reflexivity|]. simpl.
      rewrite reported_DEBUG, chunk_requests_DEBUG. simpl. rewrite !app_nil_r.
      rewrite len_app.
      repeat split; try lia; auto.
      * rewrite take_app_l by lia. reflexivity.
      * rewrite HD'. rewrite drop_app_l by lia. rewrite Edrop. reflexivity.
Qed.
(** A line that fails before [min_length] bytes have come makes the chunk
    read return -1, whatever was read before; the last diagnostic names the
    failure. *)
Lemma ReadChunk_loop_fails BL min :
  forall chunks fuel a s tail,
    line s = map ReadData chunks ++ tail ->
    fails_next tail = true ->
    0 <= a -> a + len (List.concat chunks) < min -> a + len (List.concat chunks) <= BL ->
    (List.length chunks < fuel)%nat ->
    exists s' tr,
      ReadChunk_loop fuel BL min a s = Returns (-1) s'
      /\ buffer_offset (dev s') = buffer_offset (dev s)
      /\ buffer_offset_last (dev s') = buffer_offset_last (dev s)
      /\ debug s' = debug s ++ tr ++ [failure_msg (readTimeout (ccid (dev s))) tail]
      /\ filter is_chunk_request tr = [].
Proof.
  induction chunks as [|c chunks IH]; intros fuel a s tail Hl Ht Ha Hlt HBL Hfuel.
  - simpl in Hl. change (len (List.concat [])) with 0 in Hlt.
    destruct fuel as [|fuel]; [simpl in Hfuel; lia|].
    simpl. replace (a <? min) with true by (symmetry; apply Z.ltb_lt; lia).
    rewrite Hl.
    destruct tail as [|[| | |bs] tl]; try discriminate;
      eexists _, []; simpl; repeat split; reflexivity.
  - simpl in Hl. cbn [List.concat] in Hlt, HBL. rewrite len_app in Hlt, HBL.
    pose proof (len_nonneg c). pose proof (len_nonneg (List.concat chunks)).
    destruct fuel as [|fuel]; [simpl in Hfuel; lia|].
    simpl. replace (a <? min) with true by (symmetry; apply Z.ltb_lt; lia).
    rewrite Hl.
    rewrite (drop_all (BL - a) c) by lia.
    rewrite (take_all (BL - a) c) by lia.
    set (s1 := DEBUG _ _).
    destruct (IH fuel (a + len c) s1 tail) as (s' & tr & Hrun & H1 & H2 & H3 & H4);
      try (subst s1; simpl; auto; lia).
    + simpl in Hfuel. lia.
    + exists s', (COMM_read (a + len c) min :: tr).
      rewrite Hrun. subst s1. simpl in *.
      repeat split; auto.
      rewrite H3. rewrite <- !app_assoc. reflexivity.
Qed.
(** ** get_bytes *)

Lemma feeds_DEBUG m s bs : feeds (DEBUG m s) bs <-> feeds s bs.
Proof. reflexivity. Qed.

Lemma len_available d : wf_dev d -> len (available d) = buffer_offset_last d - buffer_offset d.
Proof.
  intros [(H0 & H1 & H2) Hlen]. unfold available.
  rewrite len_take; [reflexivity|]. rewrite len_drop by lia. lia.
Qed.

(** Enough data are available: the request is served from the buffer. *)
Lemma get_bytes_buffered fuel n s :
  wf_dev (dev s) -> 0 <= n ->
  buffer_offset (dev s) + n <= buffer_offset_last (dev s) ->
  get_bytes fuel n s
  = Returns (STATUS_SUCCESS, take n (available (dev s)))
      (with_dev (set_buffer_offset (buffer_offset (dev s) + n))
         (DEBUG COMM_data_available
            (DEBUG (COMM_available
                      (buffer_offset_last (dev s) - buffer_offset (dev s)) n) s))).
Proof.
  intros [(H0 & H1 & H2) Hlen] Hn Hle. unfold get_bytes.
  replace (buffer_offset (dev s) + n <=? buffer_offset_last (dev s)) with true
    by (symmetry; apply Z.leb_le; lia).
  simpl. rewrite memcpy_from_ok by lia.
  unfold available. rewrite take_take by lia. reflexivity.
Qed.

(** Not enough data: what is present is copied, one chunk read brings at
    least the shortfall, and the cursors then delimit the surplus. *)
Lemma get_bytes_refill fuel n s D :
  wf_dev (dev s) ->
  let present := buffer_offset_last (dev s) - buffer_offset (dev s) in
  present < n -> n - present <= GEMPCTWIN_MAXBUF ->
  incoming (line s) = Some D -> n - present <= len D ->
  (List.length (line s) <= fuel)%nat ->
  exists rv s',
    get_bytes fuel n s
    = Returns (STATUS_SUCCESS, available (dev s) ++ take (n - present) D) s'
    /\ n - present <= rv <= GEMPCTWIN_MAXBUF /\ rv <= len D
    /\ buffer_offset (dev s') = n - present
    /\ buffer_offset_last (dev s') = rv
    /\ buffer (dev s') = overwrite (buffer (dev s)) 0 (take rv D)
    /\ incoming (line s') = Some (drop rv D)
    /\ (List.length (line s') <= List.length (line s))%nat
    /\ reported s' = reported s
    /\ chunk_requests s' = chunk_requests s ++ [COMM_get_more_data (n - present)]
    /\ exists s1 s2,
         ReadChunk fuel GEMPCTWIN_MAXBUF (n - present) s1 = Returns rv s2
         /\ dev s1 = dev s /\ line s1 = line s
         /\ buffer (dev s') = buffer (dev s2) /\ line s' = line s2.
Proof.
  intros Hwf present Hlt Hcap HD Hlen Hfuel.
  pose proof (len_available _ Hwf) as Hav.
  destruct Hwf as [(H0 & H1 & H2) Hbuf].
  unfold get_bytes. fold present.
  replace (buffer_offset (dev s) + n <=? buffer_offset_last (dev s)) with false
    by (symmetry; apply Z.leb_gt; lia).
  assert (Hout :
    exists s0,
      (if 0 <? present
       then match memcpy_from (buffer (dev (DEBUG (COMM_available present n) s)))
                    (buffer_offset (dev s)) present with
            | Some out =>
                Some (out, DEBUG (COMM_some_data_available present)
                             (DEBUG (COMM_available present n) s))
            | None => None
            end
       else Some ([], DEBUG (COMM_available present n) s))
      = Some (available (dev s), s0)
      /\ dev s0 = dev s /\ line s0 = line s
      /\ reported s0 = reported s /\ chunk_requests s0 = chunk_requests s).
  { destruct (Z.ltb_spec 0 present) as [E|E].
    - simpl. rewrite memcpy_from_ok by (fold present; lia).
      eexists. split; [reflexivity|].
      rewrite !reported_DEBUG, !chunk_requests_DEBUG. simpl.
      rewrite !app_nil_r. auto.
    - eexists. split.
      + unfold available. fold present. rewrite take_none by lia. reflexivity.
      + rewrite !reported_DEBUG, !chunk_requests_DEBUG. simpl.
        rewrite !app_nil_r. auto. }
  destruct Hout as (s0 & -> & Hd0 & Hl0 & Hr0 & Hc0).
  unfold ReadChunk.
  set (s1 := DEBUG (COMM_get_more_data (n - present)) s0).
  destruct (ReadChunk_loop_data fuel GEMPCTWIN_MAXBUF (n - present) 0 s1 D)
    as (rv & s2 & Hrun & R1 & R2 & R3 & R4 & R5 & R6 & R7 & R8 & R9 & R10);
    try (subst s1; simpl; rewrite ?Hd0, ?Hl0; auto; lia).
  rewrite Hrun.
  replace (rv <? 0) with false by (symmetry; apply Z.ltb_ge; lia).
  replace (present <? 0) with false by (symmetry; apply Z.ltb_ge; lia).
  subst s1. simpl in R4, R5, R6, R7, R8. rewrite Hd0 in R4, R7, R8.
  rewrite Hl0 in R6.
  rewrite reported_DEBUG in R9. rewrite chunk_requests_DEBUG in R10.
  simpl in R9, R10. rewrite app_nil_r in R9.
  replace (rv - 0) with rv in * by lia.
  assert (Hlen2 : len (buffer (dev s2)) = GEMPCTWIN_MAXBUF).
  { rewrite R4. rewrite len_overwrite; rewrite ?len_take; lia. }
  rewrite memcpy_from_ok by lia.
  assert (Hfresh : take (n - present) (drop 0 (buffer (dev s2)))
                   = take (n - present) D).
  { rewrite drop_none by lia. rewrite R4. unfold overwrite.
    rewrite (take_none 0) by lia. simpl.
    rewrite take_app_l by (rewrite len_take; lia).
    apply take_take. lia. }
  rewrite Hfresh.
  eexists rv, _. split; [reflexivity|].
  simpl. rewrite reported_DEBUG, chunk_requests_DEBUG. simpl.
  rewrite !app_nil_r.
  split; [lia|]. split; [lia|]. split; [reflexivity|]. split; [reflexivity|].
  split; [exact R4|]. split; [exact R5|]. split; [lia|].
  split; [change (reported s2 = reported s); congruence|].
  split.
  - change (chunk_requests s2
            = chunk_requests s ++ [COMM_get_more_data (n - present)]).
    congruence.
  - exists (DEBUG (COMM_get_more_data (n - present)) s0), s2.
    repeat split; auto.
Qed.
Lemma pending_Some s bs :
  pending s = Some bs ->
  exists D, incoming (line s) = Some D /\ bs = available (dev s) ++ D.
Proof.
  unfold pending. destruct (incoming (line s)) as [D|]; [|discriminate].
  intros [= <-]. eauto.
Qed.

(** After a refill the unconsumed bytes are the surplus of the chunk. *)
Lemma available_refilled d buf rv k D :
  buffer d = overwrite buf 0 (take rv D) ->
  buffer_offset d = k -> buffer_offset_last d = rv ->
  0 <= k <= rv -> rv <= len D ->
  available d = drop k (take rv D).
Proof.
  intros Hb Ho Hl Hk Hrv. unfold available. rewrite Hb, Ho, Hl.
  unfold overwrite. rewrite (take_none 0) by lia. simpl.
  assert (HX : len (take rv D) = rv) by (apply len_take; lia).
  rewrite drop_app_l by lia.
  rewrite take_app_l by (rewrite len_drop; lia).
  apply take_all. rewrite len_drop; lia.
Qed.

(** In front of a byte stream [bs] that is long enough, [get_bytes] returns
    its first [n] bytes and leaves the decoder in front of the others. *)
Lemma get_bytes_feeds fuel n s bs :
  feeds s bs -> 0 <= n <= len bs -> n <= GEMPCTWIN_MAXBUF ->
  (List.length (line s) <= fuel)%nat ->
  exists s',
    get_bytes fuel n s = Returns (STATUS_SUCCESS, take n bs) s'
    /\ feeds s' (drop n bs)
    /\ reported s' = reported s
    /\ (List.length (line s') <= List.length (line s))%nat.
Proof.
  intros [Hwf Hp] Hn Hcap Hfuel.
  destruct (pending_Some _ _ Hp) as (D & HD & ->).
  pose proof (len_available _ Hwf) as Hav.
  pose proof (len_nonneg D) as HD0.
  rewrite len_app in Hn.
  destruct (Z_le_gt_dec (buffer_offset (dev s) + n) (buffer_offset_last (dev s)))
    as [Hle|Hgt].
  - rewrite get_bytes_buffered by (auto; lia).
    eexists. split; [|split; [|split]].
    + rewrite take_app_l by lia. reflexivity.
    + destruct Hwf as [(H0 & H1 & H2) Hbuf].
      split; [split; [unfold cursor_inv; simpl; lia|exact Hbuf]|].
      unfold pending. simpl. rewrite HD. f_equal.
      rewrite drop_app_l by lia. f_equal.
      unfold available. simpl.
      rewrite drop_take by lia. rewrite drop_drop by lia.
      f_equal; [lia|f_equal; lia].
    + unfold reported. simpl. rewrite !filter_app. simpl.
      now rewrite !app_nil_r.
    + simpl. lia.
  - pose proof (get_bytes_refill fuel n s D Hwf) as R. cbv zeta in R.
    destruct Hwf as [(H0 & H1 & H2) Hbuf].
    destruct R as (rv & s' & Hrun & R1 & R2 & R3 & R4 & R5 & R6 & R7 & R8 & _);
      [lia|lia|exact HD|lia|exact Hfuel|].
    exists s'. rewrite Hrun.
    set (present := buffer_offset_last (dev s) - buffer_offset (dev s)) in *.
    split; [|split; [|split]]; auto.
    + rewrite take_app_r by lia. rewrite Hav. reflexivity.
    + split.
      * split; [unfold cursor_inv; lia|].
        rewrite R5. rewrite len_overwrite; rewrite ?len_take; lia.
      * unfold pending. rewrite R6. f_equal.
        rewrite (available_refilled _ _ rv (n - present) D R5) by (auto; lia).
        rewrite drop_app_r by lia. rewrite Hav.
        rewrite drop_take by lia.
        rewrite <- (take_drop (rv - (n - present)) (drop (n - present) D)) at 2.
        f_equal. rewrite drop_drop by lia. f_equal. lia.
Qed.

(** Every return of [get_bytes], successful or not, keeps the cursors
    inside the buffer; a failure does not move them. *)
Lemma get_bytes_cursors fuel n s rv out s' :
  cursor_inv (dev s) ->
  get_bytes fuel n s = Returns (rv, out) s' ->
  cursor_inv (dev s')
  /\ (rv <> STATUS_SUCCESS ->
      rv = STATUS_COMM_ERROR
      /\ buffer_offset (dev s') = buffer_offset (dev s)
      /\ buffer_offset_last (dev s') = buffer_offset_last (dev s)).
Proof.
  intros (H0 & H1 & H2). unfold get_bytes.
  destruct (Z.leb_spec (buffer_offset (dev s) + n) (buffer_offset_last (dev s)))
    as [Hle|Hgt].
  - simpl. destruct (memcpy_from _ _ _) as [o|] eqn:Em; [|discriminate].
    apply memcpy_from_Some in Em. intros [= <- <- <-]. simpl.
    split; [unfold cursor_inv; simpl; lia|congruence].
  - set (present := buffer_offset_last (dev s) - buffer_offset (dev s)).
    match goal with
    | |- match ?c with _ => _ end = _ -> _ =>
        assert (Hc : forall o s0, c = Some (o, s0) -> dev s0 = dev s)
    end.
    { intros o s0. destruct (0 <? present).
      - simpl. destruct (memcpy_from _ _ _); [|discriminate].
        now intros [= <- <-].
      - now intros [= <- <-]. }
    match goal with
    | |- match ?c with _ => _ end = _ -> _ => destruct c as [[o s0]|]
    end; [|discriminate].
    specialize (Hc o s0 eq_refl).
    unfold ReadChunk.
    destruct (ReadChunk_loop _ _ _ _ _) as [r s2| |] eqn:Erun; try discriminate.
    apply ReadChunk_loop_returns in Erun; [|unfold GEMPCTWIN_MAXBUF; lia].
    simpl in Erun. rewrite Hc in Erun. destruct Erun as (E1 & E2 & E3).
    destruct (Z.ltb_spec r 0) as [Hneg|Hpos].
    + intros [= <- <- <-]. split; [unfold cursor_inv; lia|auto].
    + destruct (present <? 0); [discriminate|].
      destruct (memcpy_from _ _ _); [|discriminate].
      intros [= <- <- <-]. simpl. fold present.
      split; [unfold cursor_inv; subst present; simpl; lia|congruence].
Qed.
(** A chunk read that fails makes [get_bytes] fail with
    [STATUS_COMM_ERROR], the cursors where they were. *)
Lemma get_bytes_fails fuel n s chunks tail :
  wf_dev (dev s) ->
  let present := buffer_offset_last (dev s) - buffer_offset (dev s) in
  present < n ->
  line s = map ReadData chunks ++ tail ->
  fails_next tail = true ->
  len (List.concat chunks) < n - present ->
  len (List.concat chunks) <= GEMPCTWIN_MAXBUF ->
  (List.length chunks < fuel)%nat ->
  exists s' tr,
    get_bytes fuel n s = Returns (STATUS_COMM_ERROR, available (dev s)) s'
    /\ buffer_offset (dev s') = buffer_offset (dev s)
    /\ buffer_offset_last (dev s') = buffer_offset_last (dev s)
    /\ debug s' = debug s ++ tr ++ [failure_msg (readTimeout (ccid (dev s))) tail]
    /\ filter is_chunk_request tr = [COMM_get_more_data (n - present)].
Proof.
  intros Hwf present Hlt Hline Htail Hshort Hcap Hfuel.
  pose proof (len_available _ Hwf) as Hav.
  destruct Hwf as [(H0 & H1 & H2) Hbuf].
  unfold get_bytes. fold present.
  replace (buffer_offset (dev s) + n <=? buffer_offset_last (dev s)) with false
    by (symmetry; apply Z.leb_gt; lia).
  assert (Hout :
    exists s0 tr0,
      (if 0 <? present
       then match memcpy_from (buffer (dev (DEBUG (COMM_available present n) s)))
                    (buffer_offset (dev s)) present with
            | Some out =>
                Some (out, DEBUG (COMM_some_data_available present)
                             (DEBUG (COMM_available present n) s))
            | None => None
            end
       else Some ([], DEBUG (COMM_available present n) s))
      = Some (available (dev s), s0)
      /\ dev s0 = dev s /\ line s0 = line s
      /\ debug s0 = debug s ++ tr0 /\ filter is_chunk_request tr0 = []).
  { destruct (Z.ltb_spec 0 present) as [E|E].
    - simpl. rewrite memcpy_from_ok by (fold present; lia).
      eexists _, [_; _]. split; [reflexivity|]. simpl.
      rewrite <- app_assoc. repeat split; reflexivity.
    - eexists _, [_]. split.
      + unfold available. fold present. rewrite take_none by lia. reflexivity.
      + simpl. repeat split; reflexivity. }
  destruct Hout as (s0 & tr0 & -> & Hd0 & Hl0 & Hdb0 & Hc0).
  unfold ReadChunk.
  set (s1 := DEBUG (COMM_get_more_data (n - present)) s0).
  destruct (ReadChunk_loop_fails GEMPCTWIN_MAXBUF (n - present) chunks fuel 0 s1 tail)
    as (s2 & tr & Hrun & R1 & R2 & R3 & R4);
    try (subst s1; simpl; rewrite ?Hd0, ?Hl0; auto; lia).
  rewrite Hrun. simpl.
  exists s2, (tr0 ++ COMM_get_more_data (n - present) :: tr).
  subst s1. simpl in R1, R2, R3. rewrite Hd0 in R1, R2, R3.
  repeat split; auto.
  - rewrite R3, Hdb0. rewrite <- !app_assoc. reflexivity.
  - rewrite filter_app, Hc0. simpl. now rewrite R4.
Qed.
(** ** Checksums *)

Lemma lxor_byte a b : is_byte a -> is_byte b -> is_byte (Z.lxor a b).
Proof.
  unfold is_byte. intros Ha Hb.
  assert (H0 : 0 <= Z.lxor a b) by (apply Z.lxor_nonneg; lia).
  split; [exact H0|].
  destruct (Z.eq_dec (Z.lxor a b) 0) as [->|Hnz]; [lia|].
  change 256 with (2 ^ 8). apply Z.log2_lt_pow2; [lia|].
  pose proof (Z.log2_lxor a b ltac:(lia) ltac:(lia)) as Hl.
  assert (La : Z.log2 a < 8).
  { destruct (Z.eq_dec a 0) as [->|]; [reflexivity|].
    apply Z.log2_lt_pow2; [lia|]. change (2 ^ 8) with 256. lia. }
  assert (Lb : Z.log2 b < 8).
  { destruct (Z.eq_dec b 0) as [->|]; [reflexivity|].
    apply Z.log2_lt_pow2; [lia|]. change (2 ^ 8) with 256. lia. }
  lia.
Qed.

Lemma to_uchar_byte b : is_byte b -> to_uchar b = b.
Proof. unfold is_byte, to_uchar. intros H. apply Z.mod_small. lia. Qed.

Lemma fold_lxor_from bs : forall c, fold_left Z.lxor bs c = Z.lxor c (lrc_of bs).
Proof.
  unfold lrc_of. induction bs as [|b bs IH]; intros c; simpl.
  - now rewrite Z.lxor_0_r.
  - rewrite IH. rewrite (IH b). now rewrite Z.lxor_assoc.
Qed.

Lemma lrc_of_byte bs : Forall is_byte bs -> is_byte (lrc_of bs).
Proof.
  intros H. unfold lrc_of.
  assert (G : forall c, is_byte c -> is_byte (fold_left Z.lxor bs c)).
  { induction H as [|b bs Hb _ IH]; intros c Hc; simpl; auto.
    apply IH. now apply lxor_byte. }
  apply G. unfold is_byte. lia.
Qed.

(** The loops [c ^= buffer[i]] and [lrc ^= low_level_buffer[i]], run in
    [unsigned char], compute the plain exclusive-or of bytes. *)
Lemma fold_uchar_lxor bs :
  Forall is_byte bs ->
  forall c, is_byte c ->
    fold_left (fun c b => to_uchar (Z.lxor c b)) bs c = Z.lxor c (lrc_of bs).
Proof.
  induction 1 as [|b bs Hb Hbs IH]; intros c Hc; simpl.
  - unfold lrc_of. simpl. now rewrite Z.lxor_0_r.
  - rewrite to_uchar_byte by now apply lxor_byte.
    rewrite IH by now apply lxor_byte.
    unfold lrc_of. simpl. rewrite (fold_lxor_from bs b).
    now rewrite Z.lxor_assoc.
Qed.

Lemma lrc_of_app a b : lrc_of (a ++ b) = Z.lxor (lrc_of a) (lrc_of b).
Proof. unfold lrc_of at 1. rewrite fold_left_app. apply fold_lxor_from. Qed.

(** The LRC byte [frame_lrc frame] is the one that passes the check. *)
Lemma lrc_diagnostic_good frame : lrc_diagnostic frame (frame_lrc frame) = [].
Proof.
  unfold lrc_diagnostic, frame_lrc. cbv zeta.
  rewrite Z.lxor_assoc, Z.lxor_nilpotent, Z.lxor_0_r.
  now rewrite Z.eqb_refl.
Qed.

Lemma lrc_diagnostic_bad frame lrc :
  lrc <> frame_lrc frame ->
  lrc_diagnostic frame lrc = [CRITICAL_Wrong_LRC (Z.lxor lrc (lrc_of frame))].
Proof.
  intros H. unfold lrc_diagnostic. cbv zeta.
  destruct (Z.eqb_spec (Z.lxor lrc (lrc_of frame)) (Z.lxor SYNC CTRL_ACK)) as [E|E];
    [|reflexivity].
  exfalso. apply H. unfold frame_lrc. rewrite <- E.
  now rewrite Z.lxor_assoc, Z.lxor_nilpotent, Z.lxor_0_r.
Qed.

Lemma dw2i_nonneg a x : Forall is_byte a -> 0 <= dw2i a x.
Proof.
  intros H. unfold dw2i.
  assert (G : forall i, 0 <= nth i a 0).
  { intros i. destruct (nth_in_or_default i a 0) as [Hin|E]; [|lia].
    rewrite Forall_forall in H. apply H in Hin. unfold is_byte in Hin. lia. }
  pose proof (G (Z.to_nat x)). pose proof (G (Z.to_nat (x + 1))).
  pose proof (G (Z.to_nat (x + 2))). pose proof (G (Z.to_nat (x + 3))). lia.
Qed.

(** The length field is read from the 5 bytes that were stored first. *)
Lemma dw2i_header buf frame :
  5 <= len frame -> dw2i (overwrite buf 0 (take 5 frame)) 1 = dw2i frame 1.
Proof.
  intros H. unfold dw2i, overwrite. rewrite (take_none 0) by lia. simpl app.
  assert (G : forall i, (i < 5)%nat ->
            nth i (take 5 frame ++ drop (0 + len (take 5 frame)) buf) 0
            = nth i frame 0).
  { intros i Hi. rewrite app_nth1
      by (unfold take, len in *; rewrite length_firstn; lia).
    rewrite <- (take_drop 5 frame) at 2.
    rewrite app_nth1 by (unfold take, len in *; rewrite length_firstn; lia).
    reflexivity. }
  rewrite !G by (simpl; lia). reflexivity.
Qed.
(** ** ReadSerial, one message at a time *)

Lemma get_byte_feeds fuel s c rest :
  feeds s (c :: rest) -> (List.length (line s) <= fuel)%nat ->
  exists s',
    get_bytes fuel 1 s = Returns (STATUS_SUCCESS, [c]) s'
    /\ feeds s' rest
    /\ reported s' = reported s
    /\ (List.length (line s') <= List.length (line s))%nat.
Proof.
  intros Hf Hfuel.
  destruct (get_bytes_feeds fuel 1 s (c :: rest) Hf) as (s' & H); auto.
  - rewrite len_cons. pose proof (len_nonneg rest). lia.
  - unfold GEMPCTWIN_MAXBUF. lia.
  - exists s'. exact H.
Qed.

(** A declared length that fits the buffer is not changed by the
    narrowing to [int], and the sum of [get_bytes] does not overflow. *)
Ltac frame_in_int Hf L :=
  rewrite (to_int_small (10 + L))
    by (unfold INT_MIN, INT_MAX, GEMPCTWIN_MAXBUF in *; lia);
  rewrite (to_int_small (10 + L - 5))
    by (unfold INT_MIN, INT_MAX, GEMPCTWIN_MAXBUF in *; lia);
  rewrite in_int_true
    by (destruct Hf as [[(? & ? & ?) _] _];
        unfold INT_MIN, INT_MAX, GEMPCTWIN_MAXBUF in *; unfold DEBUG;
        cbn [dev]; lia);
  cbn [negb].

Ltac read_byte Hf s1 :=
  let E := fresh "E" in
  let R := fresh "R" in
  let L := fresh "L" in
  let Hf' := fresh "Hf" in
  match goal with
  | |- context [get_bytes ?fuel 1 ?s] =>
      destruct (get_byte_feeds fuel s _ _ Hf) as (s1 & E & Hf' & R & L);
      [simpl; lia|];
      rewrite E; clear E Hf; rename Hf' into Hf;
      rewrite ?reported_DEBUG in R; simpl in R, L; rewrite ?app_nil_r in R;
      cbv beta iota;
      change (failed STATUS_SUCCESS) with false; cbv beta iota;
      change (nth 0 [?c] 0) with c
  end.

(** A slot-change notification is reported and control returns to
    [start], the echo flag and the caller's buffer untouched. *)
Lemma ReadSerial_notification fuel k echo buf s c rest :
  feeds s (RDR_to_PC_NotifySlotChange :: c :: rest) ->
  (List.length (line s) <= fuel)%nat ->
  exists s',
    ReadSerial_from_start fuel k echo buf s = k echo buf s'
    /\ feeds s' rest
    /\ reported s' = reported s ++ [movement c]
    /\ (List.length (line s') <= List.length (line s))%nat.
Proof.
  intros Hf Hfuel. unfold ReadSerial_from_start.
  apply (feeds_DEBUG COMM_start) in Hf.
  read_byte Hf s1.
  change (RDR_to_PC_NotifySlotChange =? RDR_to_PC_NotifySlotChange) with true.
  cbv beta iota. unfold ReadSerial_slot_change.
  apply (feeds_DEBUG COMM_slot_change) in Hf.
  read_byte Hf s2.
  eexists. split; [reflexivity|].
  unfold movement.
  destruct (c =? CARD_ABSENT); [|destruct (c =? CARD_PRESENT)];
    rewrite reported_DEBUG; simpl;
    (split; [exact Hf|split; [congruence|lia]]).
Qed.
(** A time request is dropped and control returns to [start]. *)
Lemma ReadSerial_time_request fuel k echo buf s c rest :
  feeds s (c :: rest) -> 0x80 <= c ->
  (List.length (line s) <= fuel)%nat ->
  exists s',
    ReadSerial_from_start fuel k echo buf s = k echo buf s'
    /\ feeds s' rest
    /\ reported s' = reported s
    /\ (List.length (line s') <= List.length (line s))%nat.
Proof.
  intros Hf Hc Hfuel. unfold ReadSerial_from_start.
  apply (feeds_DEBUG COMM_start) in Hf.
  read_byte Hf s1.
  replace (c =? RDR_to_PC_NotifySlotChange) with false
    by (symmetry; apply Z.eqb_neq; unfold RDR_to_PC_NotifySlotChange; lia).
  replace (c =? SYNC) with false
    by (symmetry; apply Z.eqb_neq; unfold SYNC; lia).
  replace (c >=? 0x80) with true by (symmetry; apply Z.geb_le; lia).
  eexists. split; [reflexivity|].
  rewrite reported_DEBUG. simpl. rewrite app_nil_r.
  split; [exact Hf|split; [congruence|lia]].
Qed.

(** Any other first byte ends the decode with [STATUS_COMM_ERROR]. *)
Lemma ReadSerial_bad_start fuel k echo buf s c rest :
  feeds s (c :: rest) ->
  c <> RDR_to_PC_NotifySlotChange -> c <> SYNC -> c < 0x80 ->
  (List.length (line s) <= fuel)%nat ->
  exists s',
    ReadSerial_from_start fuel k echo buf s = Returns (STATUS_COMM_ERROR, buf) s'
    /\ feeds s' rest
    /\ reported s' = reported s ++ [CRITICAL_Got c].
Proof.
  intros Hf H1 H2 H3 Hfuel. unfold ReadSerial_from_start.
  apply (feeds_DEBUG COMM_start) in Hf.
  read_byte Hf s1.
  replace (c =? RDR_to_PC_NotifySlotChange) with false
    by (symmetry; apply Z.eqb_neq; lia).
  replace (c =? SYNC) with false by (symmetry; apply Z.eqb_neq; lia).
  replace (c >=? 0x80) with false
    by (symmetry; rewrite Z.geb_leb; apply Z.leb_gt; lia).
  eexists. split; [reflexivity|].
  rewrite reported_DEBUG. simpl.
  split; [exact Hf|congruence].
Qed.

(** After SYNC, a byte that is neither ACK nor NAK ends the decode with
    [STATUS_COMM_ERROR]. *)
Lemma ReadSerial_bad_control fuel k echo buf s c rest :
  feeds s (SYNC :: c :: rest) ->
  c <> CTRL_ACK -> c <> CTRL_NAK ->
  (List.length (line s) <= fuel)%nat ->
  exists s',
    ReadSerial_from_start fuel k echo buf s = Returns (STATUS_COMM_ERROR, buf) s'
    /\ feeds s' rest
    /\ reported s' = reported s ++ [CRITICAL_Got_instead_of_ACK_NAK c].
Proof.
  intros Hf H1 H2 Hfuel. unfold ReadSerial_from_start.
  apply (feeds_DEBUG COMM_start) in Hf.
  read_byte Hf s1.
  change (SYNC =? RDR_to_PC_NotifySlotChange) with false.
  change (SYNC =? SYNC) with true. cbv beta iota.
  unfold ReadSerial_sync.
  apply (feeds_DEBUG COMM_sync) in Hf.
  read_byte Hf s2.
  replace (c =? CTRL_ACK) with false by (symmetry; apply Z.eqb_neq; lia).
  replace (c =? CTRL_NAK) with false by (symmetry; apply Z.eqb_neq; lia).
  eexists. split; [reflexivity|].
  rewrite reported_DEBUG. simpl.
  split; [exact Hf|congruence].
Qed.

(** SYNC, NAK: the third byte decides.  The LRC of a NAK is
    [SYNC ^ CTRL_NAK]; with it control returns to [start], with any other
    byte the decode ends with [STATUS_COMM_ERROR]. *)
Lemma ReadSerial_nak_step fuel k echo buf s c rest :
  feeds s (SYNC :: CTRL_NAK :: c :: rest) ->
  (List.length (line s) <= fuel)%nat ->
  exists s',
    ReadSerial_from_start fuel k echo buf s
    = (if c =? Z.lxor SYNC CTRL_NAK then k echo buf s'
       else Returns (STATUS_COMM_ERROR, buf) s')
    /\ feeds s' rest
    /\ reported s'
       = reported s
         ++ (if c =? Z.lxor SYNC CTRL_NAK then [] else [CRITICAL_Wrong_LRC c])
    /\ (List.length (line s') <= List.length (line s))%nat.
Proof.
  intros Hf Hfuel. unfold ReadSerial_from_start.
  apply (feeds_DEBUG COMM_start) in Hf.
  read_byte Hf s1.
  change (SYNC =? RDR_to_PC_NotifySlotChange) with false.
  change (SYNC =? SYNC) with true. cbv beta iota.
  unfold ReadSerial_sync.
  apply (feeds_DEBUG COMM_sync) in Hf.
  read_byte Hf s2.
  change (CTRL_NAK =? CTRL_ACK) with false.
  change (CTRL_NAK =? CTRL_NAK) with true. cbv beta iota.
  unfold ReadSerial_nak.
  apply (feeds_DEBUG COMM_nak) in Hf.
  read_byte Hf s3.
  destruct (c =? Z.lxor SYNC CTRL_NAK); cbv beta iota; simpl negb; cbv iota.
  - exists s3. rewrite app_nil_r.
    split; [reflexivity|split; [exact Hf|split; [congruence|lia]]].
  - eexists. split; [reflexivity|].
    rewrite reported_DEBUG. simpl.
    split; [exact Hf|split; [congruence|lia]].
Qed.
Lemma overwrite_frame buf frame :
  overwrite (overwrite buf 0 (take 5 frame)) 5 (drop 5 frame)
  = overwrite buf 0 frame.
Proof.
  destruct (Z_le_gt_dec 5 (len frame)) as [H|H].
  - replace 5 with (0 + len (take 5 frame)) at 2
      by (rewrite len_take; lia).
    rewrite overwrite_overwrite by (pose proof (len_nonneg buf); lia).
    now rewrite take_drop.
  - rewrite (take_all 5 frame), (drop_all 5 frame) by lia.
    unfold overwrite at 1. simpl app.
    replace (5 + len (@nil Z)) with 5 by (unfold len; simpl; lia).
    now rewrite take_drop.
Qed.

Lemma take_overwrite_frame buf frame :
  take (len frame) (overwrite buf 0 frame) = frame.
Proof.
  unfold overwrite. rewrite (take_none 0) by lia. simpl app.
  apply take_len_app.
Qed.

(** SYNC, ACK, a frame and its LRC byte, the frame being as long as the
    [int] that [ReadSerial] computes from its header: the frame lands in the
    caller's buffer and a wrong LRC is reported, nothing more; after the
    echo control returns to [start], after the response the decode
    returns. *)
Lemma ReadSerial_frame_read fuel k echo buf s frame lrc rest :
  feeds s (message frame lrc ++ rest) ->
  Forall is_byte frame -> is_byte lrc ->
  len frame = to_int (10 + dw2i frame 1) ->
  5 <= len frame -> len frame - 5 <= GEMPCTWIN_MAXBUF -> len frame <= len buf ->
  (List.length (line s) <= fuel)%nat ->
  exists s',
    ReadSerial_from_start fuel k echo buf s
    = (if echo then k false (overwrite buf 0 frame) s'
       else Returns (STATUS_SUCCESS, overwrite buf 0 frame) s')
    /\ feeds s' rest
    /\ reported s' = reported s ++ lrc_diagnostic frame lrc
    /\ (List.length (line s') <= List.length (line s))%nat.
Proof.
  intros Hf Hbytes Hlrc Hlen H5 Hcap Hbuf Hfuel.
  change (message frame lrc ++ rest)
    with (SYNC :: CTRL_ACK :: (frame ++ [lrc]) ++ rest) in Hf.
  rewrite <- app_assoc in Hf. simpl app in Hf.
  unfold ReadSerial_from_start.
  apply (feeds_DEBUG COMM_start) in Hf.
  read_byte Hf s1.
  change (SYNC =? RDR_to_PC_NotifySlotChange) with false.
  change (SYNC =? SYNC) with true. cbv beta iota.
  unfold ReadSerial_sync.
  apply (feeds_DEBUG COMM_sync) in Hf.
  read_byte Hf s2.
  change (CTRL_ACK =? CTRL_ACK) with true. cbv beta iota.
  unfold ReadSerial_ack.
  (* the first 5 bytes *)
  apply (feeds_DEBUG COMM_ack) in Hf.
  destruct (get_bytes_feeds fuel 5 _ _ Hf) as (s3 & E3 & Hf3 & R3 & L3).
  { rewrite len_app. pose proof (len_nonneg (lrc :: rest)). lia. }
  { unfold GEMPCTWIN_MAXBUF. lia. }
  { simpl. lia. }
  simpl in L3.
  rewrite E3. clear E3 Hf. cbv beta iota.
  rewrite take_app_l by lia.
  rewrite memcpy_to_ok by (rewrite ?len_take; lia).
  change (failed STATUS_SUCCESS) with false. cbv beta iota.
  rewrite dw2i_header by lia. rewrite <- Hlen.
  rewrite drop_app_l in Hf3 by lia.
  cbv zeta.
  rewrite (to_int_small (len frame - 5))
    by (unfold INT_MIN, INT_MAX, GEMPCTWIN_MAXBUF in *; lia).
  rewrite in_int_true
    by (destruct Hf3 as [[(? & ? & ?) _] _];
        unfold INT_MIN, INT_MAX, GEMPCTWIN_MAXBUF in *; unfold DEBUG;
        cbn [dev]; lia).
  cbn [negb].
  (* the rest of the frame *)
  apply (feeds_DEBUG (COMM_frame_size (len frame))) in Hf3.
  destruct (get_bytes_feeds fuel (len frame - 5) _ _ Hf3)
    as (s4 & E4 & Hf4 & R4 & L4).
  { rewrite len_app, len_drop by lia. pose proof (len_nonneg (lrc :: rest)). lia. }
  { lia. }
  { simpl. lia. }
  simpl in L4.
  rewrite E4. clear E4 Hf3. cbv beta iota.
  assert (Hrest : len (drop 5 frame) = len frame - 5) by (rewrite len_drop; lia).
  replace (take (len frame - 5) (drop 5 frame ++ lrc :: rest)) with (drop 5 frame)
    by (rewrite <- Hrest; symmetry; apply take_len_app).
  replace (drop (len frame - 5) (drop 5 frame ++ lrc :: rest)) with (lrc :: rest)
    in Hf4 by (rewrite <- Hrest; symmetry; apply drop_len_app).
  rewrite memcpy_to_ok
    by (rewrite ?len_overwrite by (rewrite ?len_take; lia); lia).
  change (failed STATUS_SUCCESS) with false. cbv beta iota.
  rewrite overwrite_frame.
  (* the LRC byte *)
  apply (feeds_DEBUG COMM_lrc) in Hf4.
  read_byte Hf4 s5.
  rewrite take_overwrite_frame.
  rewrite fold_uchar_lxor by assumption.
  rewrite !reported_DEBUG in *. simpl in R3, R4, R0, L3, L4.
  rewrite ?app_nil_r in *.
  unfold lrc_diagnostic. cbv zeta.
  destruct (Z.lxor lrc (lrc_of frame) =? Z.lxor SYNC CTRL_ACK);
    simpl negb; cbv iota.
  - eexists. split; [reflexivity|].
    rewrite reported_DEBUG. simpl. rewrite !app_nil_r.
    split; [exact Hf4|split; [congruence|lia]].
  - eexists. split; [reflexivity|].
    rewrite !reported_DEBUG. simpl. rewrite !app_nil_r.
    split; [exact Hf4|split; [congruence|lia]].
Qed.

(** The same for a frame of [10 + L] bytes that declares [L] and fits the
    buffer, where the narrowing changes nothing. *)
Lemma ReadSerial_frame_step fuel k echo buf s frame L lrc rest :
  feeds s (message frame lrc ++ rest) ->
  ccid_frame frame L -> is_byte lrc ->
  5 + L <= GEMPCTWIN_MAXBUF -> 10 + L <= len buf ->
  (List.length (line s) <= fuel)%nat ->
  exists s',
    ReadSerial_from_start fuel k echo buf s
    = (if echo then k false (overwrite buf 0 frame) s'
       else Returns (STATUS_SUCCESS, overwrite buf 0 frame) s')
    /\ feeds s' rest
    /\ reported s' = reported s ++ lrc_diagnostic frame lrc
    /\ (List.length (line s') <= List.length (line s))%nat.
Proof.
  intros Hf (Hbytes & HL & Hlen) Hlrc Hcap Hbuf Hfuel.
  pose proof (dw2i_nonneg frame 1 Hbytes) as HL0. rewrite HL in HL0.
  apply (ReadSerial_frame_read fuel k echo buf s frame lrc rest Hf Hbytes Hlrc);
    try lia; try assumption.
  rewrite HL, Hlen. symmetry. apply to_int_small.
  unfold INT_MIN, INT_MAX, GEMPCTWIN_MAXBUF in *. lia.
Qed.
(** ** ReadSerial, whole exchanges *)

Lemma ReadSerial_start_S fuel jumps echo buf s :
  ReadSerial_start fuel (S jumps) echo buf s
  = ReadSerial_from_start fuel (ReadSerial_start fuel jumps) echo buf s.
Proof. reflexivity. Qed.

(** From [start], an echo and a response, each SYNC, ACK, frame, LRC byte:
    the decode returns [STATUS_SUCCESS], the caller's buffer holds the
    response on top of the echo, the bytes that follow stay unread and the
    log has the LRC warnings and nothing else. *)
Lemma ReadSerial_exchange fuel jumps buf s e Le lrc_e r Lr lrc_r rest :
  ccid_frame e Le -> ccid_frame r Lr -> is_byte lrc_e -> is_byte lrc_r ->
  5 + Le <= GEMPCTWIN_MAXBUF -> 5 + Lr <= GEMPCTWIN_MAXBUF ->
  10 + Le <= len buf -> 10 + Lr <= len buf ->
  feeds s (message e lrc_e ++ message r lrc_r ++ rest) ->
  (List.length (line s) <= fuel)%nat ->
  exists s',
    ReadSerial_start fuel (S (S jumps)) true buf s
    = Returns (STATUS_SUCCESS, overwrite (overwrite buf 0 e) 0 r) s'
    /\ feeds s' rest
    /\ reported s' = reported s ++ lrc_diagnostic e lrc_e ++ lrc_diagnostic r lrc_r.
Proof.
  intros He Hr Hle Hlr Hce Hcr Hbe Hbr Hf Hfuel.
  rewrite ReadSerial_start_S.
  destruct (ReadSerial_frame_step fuel (ReadSerial_start fuel (S jumps)) true
              buf s e Le lrc_e _ Hf He Hle Hce Hbe Hfuel)
    as (s1 & E1 & Hf1 & R1 & L1).
  rewrite E1. rewrite ReadSerial_start_S.
  assert (Hb1 : len (overwrite buf 0 e) = len buf).
  { destruct He as (_ & _ & Hlen). apply len_overwrite; lia. }
  destruct (ReadSerial_frame_step fuel (ReadSerial_start fuel jumps) false
              (overwrite buf 0 e) s1 r Lr lrc_r _ Hf1 Hr Hlr Hcr)
    as (s2 & E2 & Hf2 & R2 & L2); [lia|lia|].
  rewrite E2. exists s2.
  split; [reflexivity|split; [exact Hf2|]].
  rewrite R2, R1. now rewrite app_assoc.
Qed.

(** The response, once stored, is what the caller's buffer starts with. *)
Lemma delivered_frame buf e r :
  take (len r) (overwrite (overwrite buf 0 e) 0 r) = r.
Proof. apply take_overwrite_frame. Qed.

(** ** Statuses *)

Lemma get_bytes_status fuel n s rv out s' :
  get_bytes fuel n s = Returns (rv, out) s' ->
  rv = STATUS_SUCCESS \/ rv = STATUS_COMM_ERROR.
Proof.
  unfold get_bytes.
  destruct (_ <=? _).
  - destruct (memcpy_from _ _ _); [|discriminate]. intros [= <- _ _]. auto.
  - match goal with
    | |- match ?c with _ => _ end = _ -> _ => destruct c as [[o s0]|]
    end; [|discriminate].
    destruct (ReadChunk _ _ _ _) as [r s2| |]; try discriminate.
    destruct (r <? 0).
    + intros [= <- _ _]. auto.
    + destruct (_ <? 0); [discriminate|].
      destruct (memcpy_from _ _ _); [|discriminate]. intros [= <- _ _]. auto.
Qed.

(** [ReadSerial] returns nothing but [STATUS_SUCCESS] and
    [STATUS_COMM_ERROR]. *)
Lemma ReadSerial_from_start_status fuel k :
  (forall echo buf s rv b s',
      k echo buf s = Returns (rv, b) s' ->
      rv = STATUS_SUCCESS \/ rv = STATUS_COMM_ERROR) ->
  forall echo buf s rv b s',
    ReadSerial_from_start fuel k echo buf s = Returns (rv, b) s' ->
    rv = STATUS_SUCCESS \/ rv = STATUS_COMM_ERROR.
Proof.
  intros Hk echo buf s rv b s'.
  unfold ReadSerial_from_start, ReadSerial_slot_change, ReadSerial_sync,
    ReadSerial_nak, ReadSerial_ack.
  repeat
    (match goal with
     | |- match get_bytes ?f ?n ?s with _ => _ end = _ -> _ =>
         let E := fresh "E" in
         destruct (get_bytes f n s) as [[? ?] ?| |] eqn:E;
         [apply get_bytes_status in E|discriminate|discriminate]
     | |- match memcpy_to ?a ?b ?c with _ => _ end = _ -> _ =>
         destruct (memcpy_to a b c); [|discriminate]
     | |- (if ?c then _ else _) = _ -> _ => destruct c
     | |- Undefined = Returns _ _ -> _ => discriminate
     | |- Returns _ _ = Returns _ _ -> _ => intros [= <- _ _]; auto
     | |- k _ _ _ = _ -> _ => apply Hk
     end).
Qed.

Lemma ReadSerial_start_status fuel jumps :
  forall echo buf s rv b s',
    ReadSerial_start fuel jumps echo buf s = Returns (rv, b) s' ->
    rv = STATUS_SUCCESS \/ rv = STATUS_COMM_ERROR.
Proof.
  induction jumps as [|jumps IH]; intros echo buf s rv b s'.
  - discriminate.
  - rewrite ReadSerial_start_S. apply ReadSerial_from_start_status. exact IH.
Qed.
(** ** The iteration budget *)

(** A run that returns with some budget returns the same with a larger
    one: [OutOfFuel] is the only outcome that depends on the budget. *)
Lemma ReadChunk_loop_mono BL min :
  forall fuel fuel' a s r s',
    (fuel <= fuel')%nat ->
    ReadChunk_loop fuel BL min a s = Returns r s' ->
    ReadChunk_loop fuel' BL min a s = Returns r s'.
Proof.
  induction fuel as [|fuel IH]; intros [|fuel'] a s r s' Hle H;
    try lia; simpl in *; destruct (a <? min); try discriminate; auto.
  destruct (line s) as [|[| | |bs] l]; auto.
  apply (IH fuel'); [lia|exact H].
Qed.

Lemma get_bytes_mono fuel fuel' n s r s' :
  (fuel <= fuel')%nat ->
  get_bytes fuel n s = Returns r s' ->
  get_bytes fuel' n s = Returns r s'.
Proof.
  intros Hle. unfold get_bytes.
  destruct (_ <=? _); auto.
  match goal with
  | |- match ?c with _ => _ end = _ -> _ => destruct c as [[o s0]|]
  end; auto.
  unfold ReadChunk.
  destruct (ReadChunk_loop fuel _ _ _ _) as [rv s2| |] eqn:E; try discriminate.
  rewrite (ReadChunk_loop_mono _ _ fuel fuel' _ _ _ _ Hle E). auto.
Qed.

Lemma ReadSerial_from_start_mono fuel fuel' k k' :
  (fuel <= fuel')%nat ->
  (forall echo buf s r s', k echo buf s = Returns r s' -> k' echo buf s = Returns r s') ->
  forall echo buf s r s',
    ReadSerial_from_start fuel k echo buf s = Returns r s' ->
    ReadSerial_from_start fuel' k' echo buf s = Returns r s'.
Proof.
  intros Hle Hk echo buf s r s'.
  unfold ReadSerial_from_start, ReadSerial_slot_change, ReadSerial_sync,
    ReadSerial_nak, ReadSerial_ack.
  repeat
    (match goal with
     | |- match get_bytes fuel ?n ?s with _ => _ end = _ -> _ =>
         let E := fresh "E" in
         destruct (get_bytes fuel n s) as [[? ?] ?| |] eqn:E;
         [rewrite (get_bytes_mono fuel fuel' _ _ _ _ Hle E)
         |discriminate|discriminate]
     | |- match memcpy_to ?a ?b ?c with _ => _ end = _ -> _ =>
         destruct (memcpy_to a b c); [|discriminate]
     | |- (if ?c then _ else _) = _ -> _ => destruct c
     | |- Undefined = Returns _ _ -> _ => discriminate
     | |- Returns _ _ = Returns _ _ -> _ => exact (fun H => H)
     | |- k _ _ _ = _ -> _ => apply Hk
     end).
Qed.

Lemma ReadSerial_start_mono :
  forall jumps jumps' fuel fuel' echo buf s r s',
    (jumps <= jumps')%nat -> (fuel <= fuel')%nat ->
    ReadSerial_start fuel jumps echo buf s = Returns r s' ->
    ReadSerial_start fuel' jumps' echo buf s = Returns r s'.
Proof.
  induction jumps as [|jumps IH]; intros [|jumps'] fuel fuel' echo buf s r s' Hj Hf;
    try lia; try discriminate.
  rewrite !ReadSerial_start_S.
  apply ReadSerial_from_start_mono; [exact Hf|].
  intros e b s0 r0 s0'. apply IH; lia.
Qed.

Lemma ReadSerial_mono fuel fuel' buf s r s' :
  (fuel <= fuel')%nat ->
  ReadSerial fuel buf s = Returns r s' ->
  ReadSerial fuel' buf s = Returns r s'.
Proof. intros H. apply ReadSerial_start_mono; exact H. Qed.

(** * The claims *)

(** Closes [feeds s bs] and [wf_dev d] on sample states. *)
Ltac sample_wf :=
  split; [unfold cursor_inv, GEMPCTWIN_MAXBUF; simpl; lia|reflexivity].
Ltac sample_feeds := split; [sample_wf|reflexivity].

Lemma frame_lrc_byte frame : Forall is_byte frame -> is_byte (frame_lrc frame).
Proof.
  intros H. unfold frame_lrc. apply lxor_byte.
  - unfold is_byte. simpl. lia.
  - now apply lrc_of_byte.
Qed.

Lemma ReadSerial_unfold fuel buf s :
  ReadSerial (S (S fuel)) buf s
  = ReadSerial_start (S (S fuel)) (S (S fuel)) true buf s.
Proof. reflexivity. Qed.

(** C1, as amended.  For every line that delivers two well-formed messages,
    each SYNC, ACK, a frame of [10 + L] bytes whose bytes 1 to 4 declare [L],
    and the LRC byte (the echo, then the response; the same message twice is
    a case of it), with frames that fit the slot's buffer and the caller's:
    [ReadSerial] returns [STATUS_SUCCESS] once, the caller's buffer starts
    with the frame of the second message, both messages are consumed and
    nothing is reported. *)
Theorem ReadSerial_echo_then_response :
  forall fuel buf s e Le r Lr,
    ccid_frame e Le -> ccid_frame r Lr ->
    5 + Le <= GEMPCTWIN_MAXBUF -> 5 + Lr <= GEMPCTWIN_MAXBUF ->
    10 + Le <= len buf -> 10 + Lr <= len buf ->
    feeds s (message e (frame_lrc e) ++ message r (frame_lrc r)) ->
    (2 <= fuel)%nat -> (List.length (line s) <= fuel)%nat ->
    exists b s',
      ReadSerial fuel buf s = Returns (STATUS_SUCCESS, b) s'
      /\ take (len r) b = r
      /\ feeds s' []
      /\ reported s' = reported s.
Proof.
  intros fuel buf s e Le r Lr He Hr Hce Hcr Hbe Hbr Hf H2 Hfuel.
  destruct fuel as [|[|fuel]]; try lia. rewrite ReadSerial_unfold.
  rewrite <- (app_nil_r (message r (frame_lrc r))) in Hf.
  destruct (ReadSerial_exchange (S (S fuel)) fuel buf s e Le (frame_lrc e)
              r Lr (frame_lrc r) [] He Hr) as (s' & E & Hf' & R);
    auto; try (apply frame_lrc_byte; [apply He || apply Hr]).
  exists (overwrite (overwrite buf 0 e) 0 r), s'.
  rewrite !lrc_diagnostic_good, !app_nil_r in R.
  split; [exact E|split; [apply delivered_frame|split; assumption]].
Qed.

Lemma ReadSerial_echo_then_response_witness :
  ccid_frame sample_command 0 /\ ccid_frame sample_response 2
  /\ exists b s',
      ReadSerial 2 (repeat 0 64)
        (on_line [ReadData (message sample_command (frame_lrc sample_command));
                  ReadData (message sample_response (frame_lrc sample_response))])
      = Returns (STATUS_SUCCESS, b) s'
      /\ take (len sample_response) b = sample_response
      /\ feeds s' []
      /\ reported s' = [].
Proof.
  assert (Hc : ccid_frame sample_command 0).
  { split; [|split; reflexivity].
    repeat constructor; unfold is_byte; lia. }
  assert (Hr : ccid_frame sample_response 2).
  { split; [|split; reflexivity].
    repeat constructor; unfold is_byte; lia. }
  split; [exact Hc|split; [exact Hr|]].
  apply (ReadSerial_echo_then_response 2 (repeat 0 64)
           (on_line [ReadData (message sample_command (frame_lrc sample_command));
                     ReadData (message sample_response (frame_lrc sample_response))])
           sample_command 0 sample_response 2 Hc Hr);
    try (vm_compute; congruence); try (simpl; lia).
  sample_feeds.
Defined.

(** C1, as stated, fails: two messages whose frame is a 5-byte header
    declaring no payload, each with its correct LRC, make [ReadSerial]
    return [STATUS_COMM_ERROR]. *)
Lemma ReadSerial_short_response_twice :
  short_frame short_response 0
  /\ feeds (on_line [ReadData (message short_response (frame_lrc short_response)
                               ++ message short_response (frame_lrc short_response))])
       (message short_response (frame_lrc short_response)
        ++ message short_response (frame_lrc short_response))
  /\ status_of
       (ReadSerial 16 (repeat 0 64)
          (on_line [ReadData (message short_response (frame_lrc short_response)
                              ++ message short_response (frame_lrc short_response))]))
     = Some STATUS_COMM_ERROR.
Proof.
  split; [|split].
  - split; [|split; reflexivity]. repeat constructor; unfold is_byte; lia.
  - sample_feeds.
  - vm_compute. reflexivity.
Qed.

(** C2, as amended.  When control is at [start] and the line delivers SYNC,
    NAK and one more byte [c]: if [c] is [SYNC ^ CTRL_NAK], control is back
    at [start] with the echo flag, the caller's buffer and the log of
    reports as they were; otherwise the warning "Wrong LRC" is logged and
    the decode returns [STATUS_COMM_ERROR].  Either way the three bytes are
    consumed and the caller's buffer is untouched. *)
Theorem ReadSerial_nak_handling :
  forall fuel jumps echo buf s c rest,
    feeds s (SYNC :: CTRL_NAK :: c :: rest) ->
    (List.length (line s) <= fuel)%nat ->
    exists s',
      feeds s' rest
      /\ (c = Z.lxor SYNC CTRL_NAK ->
          ReadSerial_start fuel (S jumps) echo buf s
          = ReadSerial_start fuel jumps echo buf s'
          /\ reported s' = reported s)
      /\ (c <> Z.lxor SYNC CTRL_NAK ->
          ReadSerial_start fuel (S jumps) echo buf s
          = Returns (STATUS_COMM_ERROR, buf) s'
          /\ reported s' = reported s ++ [CRITICAL_Wrong_LRC c]).
Proof.
  intros fuel jumps echo buf s c rest Hf Hfuel.
  rewrite ReadSerial_start_S.
  destruct (ReadSerial_nak_step fuel (ReadSerial_start fuel jumps) echo buf
              s c rest Hf Hfuel) as (s' & E & Hf' & R & _).
  exists s'. split; [exact Hf'|]. rewrite E, R.
  destruct (Z.eqb_spec c (Z.lxor SYNC CTRL_NAK)) as [Hc|Hc].
  - rewrite app_nil_r. split; [auto|contradiction].
  - split; [contradiction|auto].
Qed.

Lemma ReadSerial_nak_handling_witness :
  feeds (on_line [ReadData [SYNC; CTRL_NAK; 0x16]]) [SYNC; CTRL_NAK; 0x16]
  /\ exists s',
      feeds s' []
      /\ (0x16 = Z.lxor SYNC CTRL_NAK ->
          ReadSerial_start 1 (S 0) true [] (on_line [ReadData [SYNC; CTRL_NAK; 0x16]])
          = ReadSerial_start 1 0 true [] s'
          /\ reported s' = reported (on_line [ReadData [SYNC; CTRL_NAK; 0x16]]))
      /\ (0x16 <> Z.lxor SYNC CTRL_NAK ->
          ReadSerial_start 1 (S 0) true [] (on_line [ReadData [SYNC; CTRL_NAK; 0x16]])
          = Returns (STATUS_COMM_ERROR, []) s'
          /\ reported s'
             = reported (on_line [ReadData [SYNC; CTRL_NAK; 0x16]])
               ++ [CRITICAL_Wrong_LRC 0x16]).
Proof.
  assert (Hf : feeds (on_line [ReadData [SYNC; CTRL_NAK; 0x16]])
                 [SYNC; CTRL_NAK; 0x16]).
  { sample_feeds. }
  split; [exact Hf|].
  apply (ReadSerial_nak_handling 1 0 true [] _ 0x16 [] Hf). simpl. lia.
Defined.

(** C2, as stated, fails: a NAK whose third byte is not [SYNC ^ CTRL_NAK]
    ends the decode with [STATUS_COMM_ERROR], although a well-formed echo
    and response follow on the line. *)
Lemma ReadSerial_nak_wrong_lrc_is_fatal :
  status_of
    (ReadSerial 16 (repeat 0 64)
       (on_line [ReadData [SYNC; CTRL_NAK; 0x00];
                 ReadData (message sample_command (frame_lrc sample_command));
                 ReadData (message sample_response (frame_lrc sample_response))]))
  = Some STATUS_COMM_ERROR.
Proof. vm_compute. reflexivity. Qed.

(** C3.  On the ACK path a trailing LRC byte that differs from
    [SYNC ^ CTRL_ACK ^ (exclusive-or of the frame bytes)] is reported as
    "Wrong LRC" and nothing else happens: with an echo (whatever its LRC
    byte) and then a response whose LRC byte is wrong, [ReadSerial] returns
    [STATUS_SUCCESS] and the caller's buffer starts with the response. *)
Theorem ReadSerial_wrong_lrc_not_fatal :
  forall fuel buf s e Le lrc_e r Lr lrc_r rest,
    ccid_frame e Le -> ccid_frame r Lr -> is_byte lrc_e -> is_byte lrc_r ->
    5 + Le <= GEMPCTWIN_MAXBUF -> 5 + Lr <= GEMPCTWIN_MAXBUF ->
    10 + Le <= len buf -> 10 + Lr <= len buf ->
    feeds s (message e lrc_e ++ message r lrc_r ++ rest) ->
    (2 <= fuel)%nat -> (List.length (line s) <= fuel)%nat ->
    lrc_r <> frame_lrc r ->
    exists b s',
      ReadSerial fuel buf s = Returns (STATUS_SUCCESS, b) s'
      /\ take (len r) b = r
      /\ feeds s' rest
      /\ reported s'
         = reported s ++ lrc_diagnostic e lrc_e
           ++ [CRITICAL_Wrong_LRC (Z.lxor lrc_r (lrc_of r))].
Proof.
  intros fuel buf s e Le lrc_e r Lr lrc_r rest He Hr Hle Hlr Hce Hcr Hbe Hbr
    Hf H2 Hfuel Hbad.
  destruct fuel as [|[|fuel]]; try lia. rewrite ReadSerial_unfold.
  destruct (ReadSerial_exchange (S (S fuel)) fuel buf s e Le lrc_e
              r Lr lrc_r rest He Hr) as (s' & E & Hf' & R); auto.
  exists (overwrite (overwrite buf 0 e) 0 r), s'.
  rewrite (lrc_diagnostic_bad r lrc_r Hbad) in R.
  split; [exact E|split; [apply delivered_frame|split; assumption]].
Qed.

Lemma ReadSerial_wrong_lrc_not_fatal_witness :
  0x00 <> frame_lrc sample_response
  /\ exists b s',
      ReadSerial 2 (repeat 0 64)
        (on_line [ReadData (message sample_command (frame_lrc sample_command)
                            ++ message sample_response 0x00 ++ [])])
      = Returns (STATUS_SUCCESS, b) s'
      /\ take (len sample_response) b = sample_response
      /\ feeds s' []
      /\ reported s'
         = reported (on_line [ReadData (message sample_command (frame_lrc sample_command)
                                        ++ message sample_response 0x00 ++ [])])
           ++ lrc_diagnostic sample_command (frame_lrc sample_command)
           ++ [CRITICAL_Wrong_LRC (Z.lxor 0x00 (lrc_of sample_response))].
Proof.
  split; [vm_compute; congruence|].
  apply (ReadSerial_wrong_lrc_not_fatal 2 (repeat 0 64) _ sample_command 0
           (frame_lrc sample_command) sample_response 2 0x00 []);
    try (vm_compute; congruence); try (simpl; lia);
    try (unfold is_byte; vm_compute; split; congruence).
  - split; [|split; reflexivity]. repeat constructor; unfold is_byte; lia.
  - split; [|split; reflexivity]. repeat constructor; unfold is_byte; lia.
  - sample_feeds.
Defined.
(** C4.  A slot-change notification 0x50 0x03 in the middle of a valid
    exchange, in front of the echo or between the echo and the response:
    [ReadSerial] reports "Card inserted" once and, having gone back to
    [start], returns the status and the buffer it returns for the same
    exchange without the notification. *)
Theorem ReadSerial_slot_change_interleaved :
  forall fuel buf (after_echo : bool) s s0 e Le r Lr,
    ccid_frame e Le -> ccid_frame r Lr ->
    5 + Le <= GEMPCTWIN_MAXBUF -> 5 + Lr <= GEMPCTWIN_MAXBUF ->
    10 + Le <= len buf -> 10 + Lr <= len buf ->
    feeds s
      (if after_echo
       then message e (frame_lrc e)
            ++ [RDR_to_PC_NotifySlotChange; CARD_PRESENT]
            ++ message r (frame_lrc r)
       else [RDR_to_PC_NotifySlotChange; CARD_PRESENT]
            ++ message e (frame_lrc e) ++ message r (frame_lrc r)) ->
    feeds s0 (message e (frame_lrc e) ++ message r (frame_lrc r)) ->
    (3 <= fuel)%nat ->
    (List.length (line s) <= fuel)%nat -> (List.length (line s0) <= fuel)%nat ->
    exists b s' s0',
      ReadSerial fuel buf s = Returns (STATUS_SUCCESS, b) s'
      /\ ReadSerial fuel buf s0 = Returns (STATUS_SUCCESS, b) s0'
      /\ take (len r) b = r
      /\ reported s' = reported s ++ [COMM_Card_inserted]
      /\ reported s0' = reported s0
      /\ feeds s' [] /\ feeds s0' [].
Proof.
  intros fuel buf after_echo s s0 e Le r Lr He Hr Hce Hcr Hbe Hbr Hf Hf0 H3
    Hfuel Hfuel0.
  assert (Hle : is_byte (frame_lrc e)) by (apply frame_lrc_byte, He).
  assert (Hlr : is_byte (frame_lrc r)) by (apply frame_lrc_byte, Hr).
  destruct fuel as [|[|[|fuel]]]; try lia.
  set (n := S (S (S fuel))) in *.
  exists (overwrite (overwrite buf 0 e) 0 r).
  (* the exchange alone *)
  rewrite <- (app_nil_r (message r (frame_lrc r))) in Hf0.
  destruct (ReadSerial_exchange n (S fuel) buf s0 e Le (frame_lrc e)
              r Lr (frame_lrc r) [] He Hr) as (s0' & E0 & Hf0' & R0); auto.
  rewrite !lrc_diagnostic_good, !app_nil_r in R0.
  (* the exchange with the notification *)
  assert (Hrun : exists s',
             ReadSerial_start n n true buf s
             = Returns (STATUS_SUCCESS, overwrite (overwrite buf 0 e) 0 r) s'
             /\ feeds s' []
             /\ reported s' = reported s ++ [COMM_Card_inserted]).
  { destruct after_echo.
    - (* echo, notification, response *)
      unfold n at 2. rewrite ReadSerial_start_S.
      destruct (ReadSerial_frame_step n (ReadSerial_start n (S (S fuel))) true
                  buf s e Le (frame_lrc e) _ Hf He Hle Hce Hbe Hfuel)
        as (s1 & E1 & Hf1 & R1 & L1).
      rewrite E1, ReadSerial_start_S.
      destruct (ReadSerial_notification n (ReadSerial_start n (S fuel)) false
                  (overwrite buf 0 e) s1 CARD_PRESENT _ Hf1)
        as (s2 & E2 & Hf2 & R2 & L2); [lia|].
      rewrite E2, ReadSerial_start_S.
      assert (Hb1 : len (overwrite buf 0 e) = len buf).
      { destruct He as (_ & _ & Hlen). apply len_overwrite; lia. }
      rewrite <- (app_nil_r (message r (frame_lrc r))) in Hf2.
      destruct (ReadSerial_frame_step n (ReadSerial_start n fuel) false
                  (overwrite buf 0 e) s2 r Lr (frame_lrc r) _ Hf2 Hr Hlr Hcr)
        as (s3 & E3 & Hf3 & R3 & L3); [lia|lia|].
      rewrite E3. exists s3.
      split; [reflexivity|split; [exact Hf3|]].
      rewrite R3, R2, R1, !lrc_diagnostic_good, !app_nil_r. reflexivity.
    - (* notification, echo, response *)
      unfold n at 2. rewrite ReadSerial_start_S.
      destruct (ReadSerial_notification n (ReadSerial_start n (S (S fuel))) true
                  buf s CARD_PRESENT _ Hf Hfuel)
        as (s1 & E1 & Hf1 & R1 & L1).
      rewrite E1.
      rewrite <- (app_nil_r (message r (frame_lrc r))) in Hf1.
      destruct (ReadSerial_exchange n fuel buf s1 e Le (frame_lrc e)
                  r Lr (frame_lrc r) [] He Hr) as (s2 & E2 & Hf2 & R2);
        auto; [lia|].
      rewrite E2. exists s2.
      split; [reflexivity|split; [exact Hf2|]].
      rewrite R2, R1, !lrc_diagnostic_good, !app_nil_r. reflexivity. }
  destruct Hrun as (s' & E & Hf' & R).
  exists s', s0'.
  split; [exact E|]. split; [exact E0|]. split; [apply delivered_frame|].
  auto.
Qed.

Lemma ReadSerial_slot_change_interleaved_witness :
  exists b s' s0',
    ReadSerial 3 (repeat 0 64)
      (on_line [ReadData (message sample_command (frame_lrc sample_command));
                ReadData [RDR_to_PC_NotifySlotChange; CARD_PRESENT];
                ReadData (message sample_response (frame_lrc sample_response))])
    = Returns (STATUS_SUCCESS, b) s'
    /\ ReadSerial 3 (repeat 0 64)
         (on_line [ReadData (message sample_command (frame_lrc sample_command)
                             ++ message sample_response (frame_lrc sample_response))])
       = Returns (STATUS_SUCCESS, b) s0'
    /\ take (len sample_response) b = sample_response
    /\ reported s' = [] ++ [COMM_Card_inserted]
    /\ reported s0' = []
    /\ feeds s' [] /\ feeds s0' [].
Proof.
  apply (ReadSerial_slot_change_interleaved 3 (repeat 0 64) true
           (on_line [ReadData (message sample_command (frame_lrc sample_command));
                     ReadData [RDR_to_PC_NotifySlotChange; CARD_PRESENT];
                     ReadData (message sample_response (frame_lrc sample_response))])
           (on_line [ReadData (message sample_command (frame_lrc sample_command)
                               ++ message sample_response (frame_lrc sample_response))])
           sample_command 0 sample_response 2);
    try (vm_compute; congruence); try (simpl; lia); try sample_feeds.
  - split; [|split; reflexivity]. repeat constructor; unfold is_byte; lia.
  - split; [|split; reflexivity]. repeat constructor; unfold is_byte; lia.
Defined.
(** C5.  For every payload of at most [GEMPCTWIN_MAXBUF - 3] bytes,
    [WriteSerial] hands to [write] exactly SYNC 0x03, ACK 0x06, the payload
    and one LRC byte, the exclusive-or of all the bytes before it, and
    returns [STATUS_SUCCESS] exactly when [write] reports all these bytes
    written; dropping the two leading bytes and the trailing one gives the
    payload back. *)
Theorem WriteSerial_frame :
  forall write payload s,
    Forall is_byte payload ->
    len payload <= GEMPCTWIN_MAXBUF - 3 ->
    let frame := [0x03; 0x06] ++ payload ++ [lrc_of ([0x03; 0x06] ++ payload)] in
    WriteSerial write (len payload) payload s
    = (if write (fd (dev s)) frame (len payload + 3) =? len payload + 3
       then Returns STATUS_SUCCESS s
       else Returns STATUS_UNSUCCESSFUL (DEBUG CRITICAL_write_error s))
    /\ drop (len frame - 1) frame = [lrc_of (take (len frame - 1) frame)]
    /\ take (len frame - 3) (drop 2 frame) = payload.
Proof.
  intros write payload s Hbytes Hlen frame.
  pose proof (len_nonneg payload) as H0.
  assert (Hhead : Forall is_byte ([0x03; 0x06] ++ payload)).
  { repeat constructor; try (unfold is_byte; lia). exact Hbytes. }
  assert (Hl2 : len ([0x03; 0x06] ++ payload) = len payload + 2).
  { rewrite len_app. change (len [0x03; 0x06]) with 2. lia. }
  assert (Hl3 : len frame = len payload + 3).
  { unfold frame. rewrite app_assoc, len_app, Hl2.
    change (len [lrc_of ([0x03; 0x06] ++ payload)]) with 1. lia. }
  split; [|split].
  - unfold WriteSerial.
    replace (len payload >? GEMPCTWIN_MAXBUF - 3) with false
      by (symmetry; rewrite Z.gtb_ltb; apply Z.ltb_ge; lia).
    rewrite memcpy_from_ok by lia.
    rewrite drop_none by lia. rewrite (take_all (len payload) payload) by lia.
    set (X := repeat 0 (Z.to_nat GEMPCTWIN_MAXBUF)).
    assert (HX : len X = GEMPCTWIN_MAXBUF).
    { unfold X, len. rewrite repeat_length. unfold GEMPCTWIN_MAXBUF. lia. }
    assert (HXpos : 0 <= 0 <= len X) by (rewrite HX; unfold GEMPCTWIN_MAXBUF; lia).
    assert (E1 : overwrite (overwrite X 0 [0x03]) 1 [0x06]
                 = overwrite X 0 [0x03; 0x06])
      by (apply (overwrite_overwrite X 0 [0x03] [0x06]); exact HXpos).
    assert (E2 : overwrite (overwrite X 0 [0x03; 0x06]) 2 payload
                 = overwrite X 0 ([0x03; 0x06] ++ payload))
      by (apply (overwrite_overwrite X 0 [0x03; 0x06] payload); exact HXpos).
    rewrite E1, E2.
    rewrite <- Hl2. rewrite take_overwrite_frame.
    rewrite fold_uchar_lxor by (assumption || (unfold is_byte; lia)).
    rewrite Z.lxor_0_l.
    assert (E3 : overwrite (overwrite X 0 ([0x03; 0x06] ++ payload))
                   (len ([0x03; 0x06] ++ payload))
                   [lrc_of ([0x03; 0x06] ++ payload)]
                 = overwrite X 0 frame).
    { unfold frame. rewrite app_assoc.
      apply (overwrite_overwrite X 0 ([0x03; 0x06] ++ payload)). exact HXpos. }
    rewrite E3.
    replace (len ([0x03; 0x06] ++ payload) + 1) with (len payload + 3) by lia.
    rewrite <- Hl3. rewrite take_overwrite_frame.
    rewrite Hl3.
    destruct (write (fd (dev s)) frame (len payload + 3) =? len payload + 3);
      reflexivity.
  - rewrite Hl3. replace (len payload + 3 - 1) with (len ([0x03; 0x06] ++ payload)) by lia.
    unfold frame. rewrite app_assoc.
    now rewrite drop_len_app, take_len_app.
  - rewrite Hl3. replace (len payload + 3 - 3) with (len payload) by lia.
    unfold frame. change (drop 2 ([0x03; 0x06] ++ payload ++ [lrc_of ([0x03; 0x06] ++ payload)]))
      with (payload ++ [lrc_of ([0x03; 0x06] ++ payload)]).
    apply take_len_app.
Qed.

Lemma WriteSerial_frame_witness :
  WriteSerial (fun _ _ count => count) (len sample_command) sample_command (on_line [])
  = (if (fun (_ : Z) (_ : list Z) (count : Z) => count) (fd (dev (on_line [])))
          ([0x03; 0x06] ++ sample_command ++ [lrc_of ([0x03; 0x06] ++ sample_command)])
          (len sample_command + 3) =? len sample_command + 3
     then Returns STATUS_SUCCESS (on_line [])
     else Returns STATUS_UNSUCCESSFUL (DEBUG CRITICAL_write_error (on_line [])))
  /\ drop (len ([0x03; 0x06] ++ sample_command
                ++ [lrc_of ([0x03; 0x06] ++ sample_command)]) - 1)
       ([0x03; 0x06] ++ sample_command ++ [lrc_of ([0x03; 0x06] ++ sample_command)])
     = [lrc_of (take (len ([0x03; 0x06] ++ sample_command
                           ++ [lrc_of ([0x03; 0x06] ++ sample_command)]) - 1)
                  ([0x03; 0x06] ++ sample_command
                   ++ [lrc_of ([0x03; 0x06] ++ sample_command)]))]
  /\ take (len ([0x03; 0x06] ++ sample_command
                ++ [lrc_of ([0x03; 0x06] ++ sample_command)]) - 3)
       (drop 2 ([0x03; 0x06] ++ sample_command
                ++ [lrc_of ([0x03; 0x06] ++ sample_command)]))
     = sample_command.
Proof.
  apply (WriteSerial_frame (fun _ _ count => count) sample_command (on_line [])).
  - repeat constructor; unfold is_byte; lia.
  - vm_compute. congruence.
Defined.
(** C6.  A request for [N] bytes, [N] at most the capacity of the buffer,
    that finds fewer than [N] unconsumed bytes on a line that delivers
    enough data: [get_bytes] asks for fresh data once, by one call of
    [ReadChunk] whose minimum is the shortfall [N - present]; the output is
    the present bytes followed by the first [N - present] fresh ones;
    afterwards [buffer_offset] is the shortfall and [buffer_offset_last] is
    what [ReadChunk] returned, so the surplus of the chunk is what remains
    buffered. *)
Theorem get_bytes_lookahead :
  forall fuel N s D,
    wf_dev (dev s) ->
    let present := buffer_offset_last (dev s) - buffer_offset (dev s) in
    present < N -> N <= GEMPCTWIN_MAXBUF ->
    incoming (line s) = Some D -> N - present <= len D ->
    (List.length (line s) <= fuel)%nat ->
    exists rv s1 s2 s',
      get_bytes fuel N s
      = Returns (STATUS_SUCCESS, available (dev s) ++ take (N - present) D) s'
      /\ chunk_requests s' = chunk_requests s ++ [COMM_get_more_data (N - present)]
      /\ ReadChunk fuel GEMPCTWIN_MAXBUF (N - present) s1 = Returns rv s2
      /\ dev s1 = dev s /\ line s1 = line s
      /\ N - present <= rv <= GEMPCTWIN_MAXBUF
      /\ take rv (buffer (dev s2)) = take rv D
      /\ buffer (dev s') = buffer (dev s2) /\ line s' = line s2
      /\ buffer_offset (dev s') = N - present
      /\ buffer_offset_last (dev s') = rv
      /\ available (dev s') = drop (N - present) (take rv D)
      /\ incoming (line s') = Some (drop rv D).
Proof.
  intros fuel N s D Hwf present Hlt Hcap HD Hlen Hfuel.
  pose proof (get_bytes_refill fuel N s D Hwf) as R. cbv zeta in R.
  fold present in R.
  destruct Hwf as [(H0 & H1 & H2) Hbuf].
  destruct R as (rv & s' & Hrun & R1 & R2 & R3 & R4 & R5 & R6 & R7 & R8 & R9
                 & s1 & s2 & Hchunk & Hd1 & Hl1 & Hb2 & Hl2);
    [lia|subst present; lia|exact HD|lia|exact Hfuel|].
  exists rv, s1, s2, s'.
  split; [exact Hrun|]. split; [exact R9|]. split; [exact Hchunk|].
  split; [exact Hd1|]. split; [exact Hl1|]. split; [exact R1|].
  split.
  { rewrite <- Hb2, R5. unfold overwrite. rewrite (take_none 0) by lia.
    simpl app. rewrite take_app_l by (rewrite len_take; lia).
    apply take_take. lia. }
  split; [exact Hb2|]. split; [exact Hl2|]. split; [exact R3|].
  split; [exact R4|]. split; [|exact R6].
  apply (available_refilled _ _ rv (N - present) D R5 R3 R4); lia.
Qed.

Lemma get_bytes_lookahead_witness :
  wf_dev (dev (on_line_2 [ReadData [1; 2; 3; 4; 5; 6]]))
  /\ exists rv s1 s2 s',
      get_bytes 1 5 (on_line_2 [ReadData [1; 2; 3; 4; 5; 6]])
      = Returns (STATUS_SUCCESS,
                 available (dev (on_line_2 [ReadData [1; 2; 3; 4; 5; 6]]))
                 ++ take (5 - (3 - 1)) [1; 2; 3; 4; 5; 6]) s'
      /\ chunk_requests s'
         = chunk_requests (on_line_2 [ReadData [1; 2; 3; 4; 5; 6]])
           ++ [COMM_get_more_data (5 - (3 - 1))]
      /\ ReadChunk 1 GEMPCTWIN_MAXBUF (5 - (3 - 1)) s1 = Returns rv s2
      /\ dev s1 = dev (on_line_2 [ReadData [1; 2; 3; 4; 5; 6]])
      /\ line s1 = line (on_line_2 [ReadData [1; 2; 3; 4; 5; 6]])
      /\ 5 - (3 - 1) <= rv <= GEMPCTWIN_MAXBUF
      /\ take rv (buffer (dev s2)) = take rv [1; 2; 3; 4; 5; 6]
      /\ buffer (dev s') = buffer (dev s2) /\ line s' = line s2
      /\ buffer_offset (dev s') = 5 - (3 - 1)
      /\ buffer_offset_last (dev s') = rv
      /\ available (dev s') = drop (5 - (3 - 1)) (take rv [1; 2; 3; 4; 5; 6])
      /\ incoming (line s') = Some (drop rv [1; 2; 3; 4; 5; 6]).
Proof.
  assert (Hwf : wf_dev (dev (on_line_2 [ReadData [1; 2; 3; 4; 5; 6]])))
    by sample_wf.
  split; [exact Hwf|].
  apply (get_bytes_lookahead 1 5 (on_line_2 [ReadData [1; 2; 3; 4; 5; 6]])
           [1; 2; 3; 4; 5; 6] Hwf);
    try (vm_compute; congruence); try reflexivity; simpl; lia.
Defined.

(** C7.  A request that needs a chunk read on a line that delivers fewer
    bytes than the shortfall and then stays silent for the timeout of the
    connection: [get_bytes] fails (with [STATUS_COMM_ERROR], the status of
    every failure of this layer, after the diagnostic "Timeout!") and
    [buffer_offset] and [buffer_offset_last] are what they were. *)
Theorem get_bytes_timeout :
  forall fuel N s chunks tail,
    wf_dev (dev s) ->
    let present := buffer_offset_last (dev s) - buffer_offset (dev s) in
    present < N ->
    line s = map ReadData chunks ++ tail ->
    times_out tail = true ->
    len (List.concat chunks) < N - present ->
    len (List.concat chunks) <= GEMPCTWIN_MAXBUF ->
    (List.length chunks < fuel)%nat ->
    exists out s' tr,
      get_bytes fuel N s = Returns (STATUS_COMM_ERROR, out) s'
      /\ buffer_offset (dev s') = buffer_offset (dev s)
      /\ buffer_offset_last (dev s') = buffer_offset_last (dev s)
      /\ debug s' = debug s ++ tr ++ [COMM_Timeout (readTimeout (ccid (dev s)))].
Proof.
  intros fuel N s chunks tail Hwf present Hlt Hline Htail Hshort Hcap Hfuel.
  pose proof (get_bytes_fails fuel N s chunks tail Hwf) as R. cbv zeta in R.
  fold present in R.
  destruct R as (s' & tr & Hrun & R1 & R2 & R3 & _); auto.
  { destruct tail as [|[| | |bs] tl]; simpl in *; congruence. }
  exists (available (dev s)), s', tr.
  repeat split; auto.
  rewrite R3. destruct tail as [|[| | |bs] tl]; simpl in *; congruence.
Qed.

Lemma get_bytes_timeout_witness :
  wf_dev (dev (on_line_2 [ReadData [1; 2]; SelectTimeout; ReadData [3; 4]]))
  /\ exists out s' tr,
      get_bytes 2 5 (on_line_2 [ReadData [1; 2]; SelectTimeout; ReadData [3; 4]])
      = Returns (STATUS_COMM_ERROR, out) s'
      /\ buffer_offset (dev s') = 1
      /\ buffer_offset_last (dev s') = 3
      /\ debug s' = [] ++ tr ++ [COMM_Timeout 2].
Proof.
  assert (Hwf : wf_dev (dev (on_line_2 [ReadData [1; 2]; SelectTimeout;
                                        ReadData [3; 4]]))) by sample_wf.
  split; [exact Hwf|].
  apply (get_bytes_timeout 2 5
           (on_line_2 [ReadData [1; 2]; SelectTimeout; ReadData [3; 4]])
           [[1; 2]] [SelectTimeout; ReadData [3; 4]] Hwf);
    try (vm_compute; congruence); try reflexivity; simpl; lia.
Defined.
(** ** The array of slots *)

Lemma nth_error_set_nth {A} (x : A) :
  forall l n y, nth_error l n = Some y -> nth_error (set_nth n x l) n = Some x.
Proof.
  induction l as [|a l IH]; intros [|n] y H; simpl in *; try discriminate; eauto.
Qed.

Lemma channel_already_used_slot dev_name :
  forall slots i d,
    nth_error slots i = Some d -> device d = Some dev_name ->
    channel_already_used slots dev_name = true.
Proof.
  induction slots as [|a slots IH]; intros [|i] d H Hd; simpl in *;
    try discriminate.
  - injection H as ->. rewrite Hd. now rewrite String.eqb_refl.
  - destruct (device a) as [name|]; [destruct (String.eqb name dev_name)|];
      eauto.
Qed.

Lemma nth_error_set_nth_other {A} (x : A) :
  forall l n m, n <> m -> nth_error (set_nth n x l) m = nth_error l m.
Proof.
  induction l as [|a l IH]; intros [|n] [|m] H; simpl; auto; try congruence.
Qed.

Lemma update_slot_at reader f g d :
  nth_error (serialDevice g) reader = Some d ->
  update_slot reader f g = Some (put_slot reader (f d) g).
Proof. intros H. unfold update_slot. now rewrite H. Qed.

Lemma nth_error_put reader x g d :
  nth_error (serialDevice g) reader = Some d ->
  nth_error (serialDevice (put_slot reader x g)) reader = Some x.
Proof. intros H. simpl. eapply nth_error_set_nth. exact H. Qed.


(** The check of the channel looks at the [device] fields only. *)
Lemma channel_already_used_iff dev_name :
  forall slots,
    channel_already_used slots dev_name = true
    <-> exists i d, nth_error slots i = Some d /\ device d = Some dev_name.
Proof.
  induction slots as [|a slots IH]; simpl.
  - split; [discriminate|]. intros ([|i] & d & H & _); discriminate.
  - split.
    + destruct (device a) as [name|] eqn:Ea.
      * destruct (String.eqb_spec name dev_name) as [->|Hne].
        -- intros _. exists 0%nat, a. auto.
        -- intros H. apply IH in H. destruct H as (i & d & H1 & H2).
           exists (S i), d. auto.
      * intros H. apply IH in H. destruct H as (i & d & H1 & H2).
        exists (S i), d. auto.
    + intros ([|i] & d & H1 & H2); simpl in H1.
      * injection H1 as ->. rewrite H2. now rewrite String.eqb_refl.
      * assert (Hu : channel_already_used slots dev_name = true)
          by (apply IH; eauto).
        rewrite Hu. destruct (device a) as [name|];
          [destruct (String.eqb name dev_name)|]; reflexivity.
Qed.

Lemma channel_already_used_false dev_name slots :
  channel_already_used slots dev_name = false
  <-> forall i d, nth_error slots i = Some d -> device d <> Some dev_name.
Proof.
  split.
  - intros H i d Hi Hd.
    assert (Hu : channel_already_used slots dev_name = true)
      by (apply channel_already_used_iff; eauto).
    congruence.
  - intros H. destruct (channel_already_used slots dev_name) eqn:E; auto.
    apply channel_already_used_iff in E. destruct E as (i & d & Hi & Hd).
    exfalso. eapply H; eauto.
Qed.

Ltac run_update :=
  match goal with
  | |- context [update_slot ?r ?f ?g] =>
      erewrite (update_slot_at r f g)
        by (repeat (simple eapply nth_error_put || eassumption
                    || (progress cbn [serialDevice sys say])))
  end.
(** The slot that [OpenSerialByName] sets up before it talks to the reader. *)
Lemma OpenSerialByName_setup_configured :
  forall sys_open sys_tcflush sys_tcgetattr sys_tcsetattr GEMPCTWIN
         reader dev_name g d,
    channel_already_used (serialDevice g) dev_name = false ->
    nth_error (serialDevice g) reader = Some d ->
    sys_open dev_name <> -1 ->
    sys_tcgetattr (sys_open dev_name) <> -1 ->
    sys_tcsetattr (sys_open dev_name) <> -1 ->
    exists g' d' c,
      OpenSerialByName_setup sys_open sys_tcflush sys_tcgetattr sys_tcsetattr
        GEMPCTWIN reader dev_name g = Some (inr g')
      /\ syscalls g'
         = syscalls g ++ [Sys_open dev_name; Sys_tcflush (sys_open dev_name);
                          Sys_tcgetattr (sys_open dev_name);
                          Sys_tcsetattr (sys_open dev_name)]
      /\ nth_error (serialDevice g') reader = Some d'
      /\ fd d' = sys_open dev_name /\ device d' = Some dev_name
      /\ buffer d' = buffer d
      /\ buffer_offset d' = 0 /\ buffer_offset_last d' = 0
      /\ get_ccid_descriptor reader g' = Some c
      /\ readerID c = GEMPCTWIN
      /\ dwMaxCCIDMessageLength c = 271
      /\ dwMaxDataRate c = 344086
      /\ In (dwMaxDataRate c) (arrayOfSupportedDataRates c)
      /\ readTimeout c = readTimeout (ccid d)
      /\ (forall i, i <> reader ->
                    nth_error (serialDevice g') i = nth_error (serialDevice g) i)
      /\ channel_already_used (serialDevice g') dev_name = true.
Proof.
  intros sys_open sys_tcflush sys_tcgetattr sys_tcsetattr GEMPCTWIN
    reader dev_name g d Hfree Hd Hopen Hget Hset.
  unfold OpenSerialByName_setup. cbv zeta.
  change (serialDevice (say (COMM_Reader_index reader dev_name) g))
    with (serialDevice g).
  rewrite Hfree. run_update.
  replace (-1 =? sys_open dev_name) with false
    by (symmetry; apply Z.eqb_neq; congruence).
  run_update.
  replace (sys_tcgetattr (sys_open dev_name) =? -1) with false
    by (symmetry; apply Z.eqb_neq; congruence).
  replace (sys_tcsetattr (sys_open dev_name) =? -1) with false
    by (symmetry; apply Z.eqb_neq; congruence).
  assert (Hothers : forall i x1 x2 x3 x4 x5 (g0 : driver),
             serialDevice g0 = serialDevice g ->
             i <> reader ->
             nth_error
               (set_nth reader x1 (set_nth reader x2 (set_nth reader x3
                  (set_nth reader x4 (set_nth reader x5 (serialDevice g0))))))
               i = nth_error (serialDevice g) i).
  { intros i x1 x2 x3 x4 x5 g0 Hg0 Hi.
    rewrite !nth_error_set_nth_other by congruence. now rewrite Hg0. }
  destruct (negb (sys_tcflush (sys_open dev_name) =? 0));
    do 3 run_update;
    (eexists _, _, _; split; [reflexivity|]; split;
     [cbn [syscalls sys say put_slot]; rewrite <- !app_assoc; reflexivity|];
     split;
     [eapply nth_error_put, nth_error_put, nth_error_put, nth_error_put,
        nth_error_put; exact Hd|];
     split; [reflexivity|]; split; [reflexivity|]; split; [reflexivity|];
     split; [reflexivity|]; split; [reflexivity|];
     split;
     [unfold get_ccid_descriptor;
      erewrite (nth_error_put reader)
        by (eapply nth_error_put, nth_error_put, nth_error_put, nth_error_put;
            exact Hd);
      reflexivity|];
     split; [reflexivity|]; split; [reflexivity|]; split; [reflexivity|];
     split; [cbn; tauto|]; split; [reflexivity|]; split;
     [intros i Hi; cbn [serialDevice sys say put_slot];
      rewrite !nth_error_set_nth_other by congruence; reflexivity
     |apply channel_already_used_iff; eexists reader, _; split;
      [eapply nth_error_put, nth_error_put, nth_error_put, nth_error_put,
         nth_error_put; exact Hd|reflexivity]]).
Qed.

(** C8.  [0 <= buffer_offset <= buffer_offset_last <= sizeof(buffer)]
    holds in the slot that [OpenSerialByName] sets up: whatever the slot
    held before, cursors of an earlier connection among it, both cursors
    are reset to 0.  Every return of [get_bytes], successful or failed,
    preserves it ([read] hands over at most the bytes it is asked for). *)
Theorem cursor_invariant :
  (forall sys_open sys_tcflush sys_tcgetattr sys_tcsetattr GEMPCTWIN
          reader dev_name g d,
      channel_already_used (serialDevice g) dev_name = false ->
      nth_error (serialDevice g) reader = Some d ->
      sys_open dev_name <> -1 ->
      sys_tcgetattr (sys_open dev_name) <> -1 ->
      sys_tcsetattr (sys_open dev_name) <> -1 ->
      exists g' d',
        OpenSerialByName_setup sys_open sys_tcflush sys_tcgetattr sys_tcsetattr
          GEMPCTWIN reader dev_name g = Some (inr g')
        /\ nth_error (serialDevice g') reader = Some d'
        /\ buffer_offset d' = 0 /\ buffer_offset_last d' = 0
        /\ cursor_inv d')
  /\ (forall fuel n s rv out s',
         cursor_inv (dev s) ->
         get_bytes fuel n s = Returns (rv, out) s' ->
         cursor_inv (dev s')).
Proof.
  split.
  - intros sys_open sys_tcflush sys_tcgetattr sys_tcsetattr GEMPCTWIN
      reader dev_name g d Hfree Hd Hopen Hget Hset.
    destruct (OpenSerialByName_setup_configured sys_open sys_tcflush
                sys_tcgetattr sys_tcsetattr GEMPCTWIN reader dev_name g d
                Hfree Hd Hopen Hget Hset)
      as (g' & d' & c & E & _ & Hn & _ & _ & _ & Ho & Hl & _).
    exists g', d'. split; [exact E|]. split; [exact Hn|].
    split; [exact Ho|]. split; [exact Hl|].
    unfold cursor_inv, GEMPCTWIN_MAXBUF. rewrite Ho, Hl. lia.
  - intros fuel n s rv out s' Hinv Hrun.
    apply (get_bytes_cursors fuel n s rv out s' Hinv Hrun).
Qed.

Lemma cursor_invariant_witness :
  (buffer_offset closed_slot = 20 /\ buffer_offset_last closed_slot = 28
   /\ exists g' d',
       OpenSerialByName_setup (fun _ => 4) (fun _ => 0) (fun _ => 0)
         (fun _ => 0) 0 1%nat "/dev/pcsc/2"%string stale_driver
       = Some (inr g')
       /\ nth_error (serialDevice g') 1%nat = Some d'
       /\ buffer_offset d' = 0 /\ buffer_offset_last d' = 0
       /\ cursor_inv d')
  /\ (cursor_inv (dev (on_line_2 [ReadData [1; 2; 3; 4; 5; 6]]))
      /\ exists out s',
          get_bytes 1 5 (on_line_2 [ReadData [1; 2; 3; 4; 5; 6]])
          = Returns (STATUS_SUCCESS, out) s'
          /\ cursor_inv (dev s')).
Proof.
  split.
  - split; [reflexivity|]. split; [reflexivity|].
    apply (proj1 cursor_invariant (fun _ => 4) (fun _ => 0) (fun _ => 0)
             (fun _ => 0) 0 1%nat "/dev/pcsc/2"%string stale_driver
             closed_slot); try reflexivity; discriminate.
  - assert (Hinv : cursor_inv (dev (on_line_2 [ReadData [1; 2; 3; 4; 5; 6]])))
      by (unfold cursor_inv, GEMPCTWIN_MAXBUF; simpl; lia).
    split; [exact Hinv|].
    eexists _, _. split; [reflexivity|].
    eapply (proj2 cursor_invariant 1%nat 5
              (on_line_2 [ReadData [1; 2; 3; 4; 5; 6]]) STATUS_SUCCESS _ _ Hinv).
    reflexivity.
Defined.

(** C9.  An open request that names a device path owned by a slot fails:
    [OpenSerialByName] returns [STATUS_UNSUCCESSFUL] after the diagnostic
    "Device ... already in use", without a system call ([open] is not
    reached) and with every slot, the owner's among them, as it was. *)
Theorem OpenSerialByName_device_in_use :
  forall sys_open sys_tcflush sys_tcgetattr sys_tcsetattr GEMPCTWIN
         DEFAULT_COM_READ_TIMEOUT CmdEscape reader dev_name g i d,
    nth_error (serialDevice g) i = Some d ->
    device d = Some dev_name ->
    exists g',
      OpenSerialByName sys_open sys_tcflush sys_tcgetattr sys_tcsetattr
        GEMPCTWIN DEFAULT_COM_READ_TIMEOUT CmdEscape reader dev_name g
      = Some (STATUS_UNSUCCESSFUL, g')
      /\ serialDevice g' = serialDevice g
      /\ nth_error (serialDevice g') i = Some d
      /\ syscalls g' = syscalls g
      /\ messages g'
         = messages g ++ [COMM_Reader_index reader dev_name;
                          CRITICAL_Device_already_in_use dev_name].
Proof.
  intros sys_open sys_tcflush sys_tcgetattr sys_tcsetattr GEMPCTWIN
    DEFAULT_COM_READ_TIMEOUT CmdEscape reader dev_name g i d Hi Hd.
  exists (say (CRITICAL_Device_already_in_use dev_name)
            (say (COMM_Reader_index reader dev_name) g)).
  unfold OpenSerialByName, OpenSerialByName_setup. cbv zeta.
  change (serialDevice (say (COMM_Reader_index reader dev_name) g))
    with (serialDevice g).
  rewrite (channel_already_used_slot dev_name _ i d Hi Hd).
  split; [reflexivity|]. split; [reflexivity|]. split; [exact Hi|].
  split; [reflexivity|]. simpl. now rewrite <- app_assoc.
Qed.

Lemma OpenSerialByName_device_in_use_witness :
  nth_error (serialDevice sample_driver) 0 = Some sample_slot
  /\ device sample_slot = Some "/dev/pcsc/1"%string
  /\ exists g',
      OpenSerialByName (fun _ => 4) (fun _ => 0) (fun _ => 0) (fun _ => 0) 0 2
        (fun _ _ g => (true, [], g)) 1%nat "/dev/pcsc/1"%string sample_driver
      = Some (STATUS_UNSUCCESSFUL, g')
      /\ serialDevice g' = serialDevice sample_driver
      /\ nth_error (serialDevice g') 0 = Some sample_slot
      /\ syscalls g' = syscalls sample_driver
      /\ messages g'
         = messages sample_driver
           ++ [COMM_Reader_index 1 "/dev/pcsc/1"%string;
               CRITICAL_Device_already_in_use "/dev/pcsc/1"%string].
Proof.
  split; [reflexivity|split; [reflexivity|]].
  apply (OpenSerialByName_device_in_use (fun _ => 4) (fun _ => 0) (fun _ => 0)
           (fun _ => 0) 0 2 (fun _ _ g => (true, [], g)) 1%nat
           "/dev/pcsc/1"%string sample_driver 0%nat sample_slot);
    reflexivity.
Defined.
(** ** Failures of the receive path *)

Lemma ReadChunk_fails_next fuel BL min s :
  0 < min -> fails_next (line s) = true ->
  exists s',
    ReadChunk (S fuel) BL min s = Returns (-1) s'
    /\ debug s' = debug s ++ [failure_msg (readTimeout (ccid (dev s))) (line s)].
Proof.
  intros Hmin Hf. unfold ReadChunk. simpl.
  replace (0 <? min) with true by (symmetry; apply Z.ltb_lt; lia).
  destruct (line s) as [|[| | |bs] l]; try discriminate;
    eexists; split; reflexivity.
Qed.

(** With nothing buffered, a line that fails at once makes [ReadSerial]
    return [STATUS_COMM_ERROR]; the last diagnostic names the failure. *)
Lemma ReadSerial_io_failure fuel buf s :
  wf_dev (dev s) ->
  buffer_offset (dev s) = buffer_offset_last (dev s) ->
  fails_next (line s) = true ->
  exists s' tr,
    ReadSerial (S fuel) buf s = Returns (STATUS_COMM_ERROR, buf) s'
    /\ debug s' = debug s ++ tr ++ [failure_msg (readTimeout (ccid (dev s))) (line s)].
Proof.
  intros Hwf Hempty Hfail.
  unfold ReadSerial. rewrite ReadSerial_start_S. unfold ReadSerial_from_start.
  pose proof (get_bytes_fails (S fuel) 1 (DEBUG COMM_start s) [] (line s)) as R.
  cbv zeta in R. change (dev (DEBUG COMM_start s)) with (dev s) in R.
  change (len (List.concat (@nil (list Z)))) with 0 in R.
  destruct R as (s' & tr & Hrun & _ & _ & Hdebug & _);
    [exact Hwf|lia|reflexivity|exact Hfail|lia|unfold GEMPCTWIN_MAXBUF; lia
    |simpl; lia|].
  rewrite Hrun. simpl.
  exists s', (COMM_start :: tr). split; [reflexivity|].
  rewrite Hdebug. simpl. rewrite <- app_assoc. reflexivity.
Qed.

(** C10.  The receive path has one failure status.  Whatever two runs of
    [ReadSerial] fail, both return [STATUS_COMM_ERROR]; and that is what a
    timeout, an error of [select] or [read] (each makes [ReadChunk] return
    -1), a first byte below 0x80 that is neither SYNC nor the slot-change
    tag, and a byte after SYNC that is neither ACK nor NAK all lead to. *)
Theorem fatal_errors_conflated :
  (forall fuel1 buf1 s1 rv1 b1 s1' fuel2 buf2 s2 rv2 b2 s2',
      ReadSerial fuel1 buf1 s1 = Returns (rv1, b1) s1' ->
      ReadSerial fuel2 buf2 s2 = Returns (rv2, b2) s2' ->
      rv1 <> STATUS_SUCCESS -> rv2 <> STATUS_SUCCESS ->
      rv1 = rv2 /\ rv1 = STATUS_COMM_ERROR)
  /\ (forall fuel BL min s,
         0 < min -> fails_next (line s) = true ->
         exists s', ReadChunk (S fuel) BL min s = Returns (-1) s')
  /\ (forall fuel n s,
         wf_dev (dev s) ->
         buffer_offset_last (dev s) - buffer_offset (dev s) < n ->
         fails_next (line s) = true ->
         exists out s', get_bytes (S fuel) n s = Returns (STATUS_COMM_ERROR, out) s')
  /\ (forall fuel buf s,
         wf_dev (dev s) ->
         buffer_offset (dev s) = buffer_offset_last (dev s) ->
         fails_next (line s) = true ->
         exists s', ReadSerial (S fuel) buf s = Returns (STATUS_COMM_ERROR, buf) s')
  /\ (forall fuel buf s c rest,
         feeds s (c :: rest) ->
         c <> RDR_to_PC_NotifySlotChange -> c <> SYNC -> c < 0x80 ->
         (List.length (line s) <= S fuel)%nat ->
         exists s', ReadSerial (S fuel) buf s = Returns (STATUS_COMM_ERROR, buf) s')
  /\ (forall fuel buf s c rest,
         feeds s (SYNC :: c :: rest) ->
         c <> CTRL_ACK -> c <> CTRL_NAK ->
         (List.length (line s) <= S fuel)%nat ->
         exists s', ReadSerial (S fuel) buf s = Returns (STATUS_COMM_ERROR, buf) s').
Proof.
  split; [|split; [|split; [|split; [|split]]]].
  - intros fuel1 buf1 s1 rv1 b1 s1' fuel2 buf2 s2 rv2 b2 s2' H1 H2 N1 N2.
    apply ReadSerial_start_status in H1, H2.
    destruct H1 as [->| ->], H2 as [->| ->]; try contradiction. auto.
  - intros fuel BL min s Hmin Hf.
    destruct (ReadChunk_fails_next fuel BL min s Hmin Hf) as (s' & E & _). eauto.
  - intros fuel n s Hwf Hlt Hf.
    pose proof (get_bytes_fails (S fuel) n s [] (line s) Hwf) as R.
    cbv zeta in R. change (len (List.concat (@nil (list Z)))) with 0 in R.
    destruct R as (s' & tr & Hrun & _);
      [lia|reflexivity|exact Hf|lia|unfold GEMPCTWIN_MAXBUF; lia|simpl; lia|].
    eauto.
  - intros fuel buf s Hwf He Hf.
    destruct (ReadSerial_io_failure fuel buf s Hwf He Hf) as (s' & tr & E & _).
    eauto.
  - intros fuel buf s c rest Hf H1 H2 H3 Hfuel.
    unfold ReadSerial. rewrite ReadSerial_start_S.
    destruct (ReadSerial_bad_start (S fuel) (ReadSerial_start (S fuel) fuel)
                true buf s c rest Hf H1 H2 H3 Hfuel) as (s' & E & _).
    eauto.
  - intros fuel buf s c rest Hf H1 H2 Hfuel.
    unfold ReadSerial. rewrite ReadSerial_start_S.
    destruct (ReadSerial_bad_control (S fuel) (ReadSerial_start (S fuel) fuel)
                true buf s c rest Hf H1 H2 Hfuel) as (s' & E & _).
    eauto.
Qed.

Lemma fatal_errors_conflated_witness :
  status_of (ReadSerial 1 [] (on_line [SelectTimeout])) = Some STATUS_COMM_ERROR
  /\ status_of (ReadSerial 1 [] (on_line [ReadError])) = Some STATUS_COMM_ERROR
  /\ status_of (ReadSerial 1 [] (on_line [ReadData [0x7F]])) = Some STATUS_COMM_ERROR
  /\ status_of (ReadSerial 1 [] (on_line [ReadData [SYNC; 0x07]]))
     = Some STATUS_COMM_ERROR
  /\ (STATUS_COMM_ERROR = STATUS_COMM_ERROR
      /\ STATUS_COMM_ERROR = STATUS_COMM_ERROR).
Proof.
  split; [reflexivity|]. split; [reflexivity|]. split; [reflexivity|].
  split; [reflexivity|].
  eapply (proj1 fatal_errors_conflated 1%nat [] (on_line [SelectTimeout])
            STATUS_COMM_ERROR _ _ 1%nat [] (on_line [ReadData [0x7F]])
            STATUS_COMM_ERROR _ _);
    try reflexivity; discriminate.
Defined.

(** * Further properties *)

(** ** What a read keeps *)

Lemma ReadChunk_loop_keeps (P : _serialDevice -> Prop) BL min :
  (forall d b, P d -> len b = len (buffer d) -> P (set_buffer b d)) ->
  forall fuel a s rv s',
    0 <= a <= BL -> BL <= len (buffer (dev s)) ->
    P (dev s) ->
    ReadChunk_loop fuel BL min a s = Returns rv s' ->
    P (dev s') /\ len (buffer (dev s')) = len (buffer (dev s)).
Proof.
  intros HP. induction fuel as [|fuel IH]; intros a s rv s' Ha Hb Hs H;
    simpl in H; destruct (a <? min); try discriminate;
    try (injection H as <- <-; auto).
  destruct (line s) as [|[| | |bs] l];
    try (injection H as <- <-; simpl; auto).
  pose proof (len_take_min (BL - a) bs ltac:(lia)) as Hgot.
  pose proof (len_nonneg (take (BL - a) bs)) as Hgot0.
  assert (Hlen : len (overwrite (buffer (dev s)) a (take (BL - a) bs))
                 = len (buffer (dev s))) by (apply len_overwrite; lia).
  apply IH in H; simpl; try lia.
  - simpl in H. destruct H as [H1 H2]. split; [exact H1|]. congruence.
  - apply HP; assumption.
Qed.

Lemma get_bytes_keeps (P : _serialDevice -> Prop) :
  (forall d b, P d -> len b = len (buffer d) -> P (set_buffer b d)) ->
  (forall d o, P d -> P (set_buffer_offset o d)) ->
  (forall d o, P d -> P (set_buffer_offset_last o d)) ->
  forall fuel n s r s',
    len (buffer (dev s)) = GEMPCTWIN_MAXBUF -> P (dev s) ->
    get_bytes fuel n s = Returns r s' ->
    P (dev s') /\ len (buffer (dev s')) = GEMPCTWIN_MAXBUF.
Proof.
  intros HPb HPo HPl fuel n s r s' Hlen Hs. unfold get_bytes.
  destruct (_ <=? _).
  - simpl. destruct (memcpy_from _ _ _); [|discriminate].
    intros [= <- <-]. simpl. auto.
  - match goal with
    | |- match ?c with _ => _ end = _ -> _ =>
        assert (Hc : forall o s0, c = Some (o, s0) -> dev s0 = dev s);
        [|destruct c as [[o s0]|]; [specialize (Hc o s0 eq_refl)|discriminate]]
    end.
    { intros o s0. destruct (0 <? _).
      - simpl. destruct (memcpy_from _ _ _); [|discriminate].
        now intros [= <- <-].
      - now intros [= <- <-]. }
    unfold ReadChunk.
    destruct (ReadChunk_loop _ _ _ _ _) as [rv s2| |] eqn:Erun; try discriminate.
    apply (ReadChunk_loop_keeps P _ _ HPb) in Erun;
      simpl; rewrite ?Hc; auto; try (unfold GEMPCTWIN_MAXBUF in *; lia).
    simpl in Erun. rewrite Hc in Erun. destruct Erun as [E1 E2].
    destruct (rv <? 0).
    + intros [= <- <-]. split; [exact E1|congruence].
    + destruct (_ <? 0); [discriminate|].
      destruct (memcpy_from _ _ _); [|discriminate].
      intros [= <- <-]. simpl. split; [auto|congruence].
Qed.

(** A property of the slot that [get_bytes] keeps is kept by the code
    under [start], if the jump back to [start] keeps it. *)
Lemma ReadSerial_from_start_keeps (P : state -> Prop) fuel k :
  (forall m s, P s -> P (DEBUG m s)) ->
  (forall n s r s', P s -> get_bytes fuel n s = Returns r s' -> P s') ->
  (forall echo buf s r s', P s -> k echo buf s = Returns r s' -> P s') ->
  forall echo buf s r s',
    P s -> ReadSerial_from_start fuel k echo buf s = Returns r s' -> P s'.
Proof.
  intros HD Hg Hk echo buf s r s' Hs.
  unfold ReadSerial_from_start, ReadSerial_slot_change, ReadSerial_sync,
    ReadSerial_nak, ReadSerial_ack.
  repeat
    (match goal with
     | |- match get_bytes fuel ?n ?s with _ => _ end = _ -> _ =>
         let E := fresh "E" in
         destruct (get_bytes fuel n s) as [[? ?] ?| |] eqn:E;
         [apply Hg in E; [|repeat apply HD; assumption]
         |discriminate|discriminate]
     | |- match memcpy_to ?a ?b ?c with _ => _ end = _ -> _ =>
         destruct (memcpy_to a b c); [|discriminate]
     | |- Undefined = Returns _ _ -> _ => discriminate
     | |- context [if ?c then _ else _] => destruct c
     | |- Returns _ _ = Returns _ _ -> _ =>
         intros [= <- <-]; repeat apply HD; assumption
     | |- k _ _ _ = _ -> _ =>
         let H := fresh "H" in
         intros H; apply Hk in H; [exact H|repeat apply HD; assumption]
     end).
Qed.

Lemma ReadSerial_start_keeps (P : state -> Prop) fuel :
  (forall m s, P s -> P (DEBUG m s)) ->
  (forall n s r s', P s -> get_bytes fuel n s = Returns r s' -> P s') ->
  forall jumps echo buf s r s',
    P s -> ReadSerial_start fuel jumps echo buf s = Returns r s' -> P s'.
Proof.
  intros HD Hg. induction jumps as [|jumps IH]; intros echo buf s r s' Hs.
  - discriminate.
  - rewrite ReadSerial_start_S.
    apply (ReadSerial_from_start_keeps P fuel _ HD Hg IH). exact Hs.
Qed.

(** X1.  Every return of [ReadSerial], successful or not, leaves the slot with
    its descriptor, its device path and its CCID descriptor, with cursors
    inside the buffer and with a buffer of the declared size. *)
Theorem ReadSerial_keeps_slot :
  forall fuel buf s r s',
    wf_dev (dev s) ->
    ReadSerial fuel buf s = Returns r s' ->
    wf_dev (dev s')
    /\ fd (dev s') = fd (dev s)
    /\ device (dev s') = device (dev s)
    /\ ccid (dev s') = ccid (dev s).
Proof.
  intros fuel buf s r s' Hwf Hrun.
  set (P := fun t : state =>
              wf_dev (dev t) /\ fd (dev t) = fd (dev s)
              /\ device (dev t) = device (dev s) /\ ccid (dev t) = ccid (dev s)).
  apply (ReadSerial_start_keeps P fuel) with (s := s) in Hrun; auto.
  - intros n t r0 t' (Ht & Hp) Hg. destruct r0 as [rv out].
    destruct Ht as [Hinv Hlen].
    pose proof (get_bytes_cursors fuel n t rv out t' Hinv Hg) as [Hinv' _].
    apply (get_bytes_keeps
             (fun d => fd d = fd (dev s) /\ device d = device (dev s)
                       /\ ccid d = ccid (dev s))) in Hg; auto.
    destruct Hg as [Hp' Hlen']. split; [split; assumption|exact Hp'].
  - unfold P. auto.
Qed.

Lemma ReadSerial_keeps_slot_witness :
  wf_dev (dev (on_line [ReadData [0x7F]]))
  /\ exists r s',
      ReadSerial 1 [] (on_line [ReadData [0x7F]]) = Returns r s'
      /\ wf_dev (dev s')
      /\ fd (dev s') = fd (dev (on_line [ReadData [0x7F]]))
      /\ device (dev s') = device (dev (on_line [ReadData [0x7F]]))
      /\ ccid (dev s') = ccid (dev (on_line [ReadData [0x7F]])).
Proof.
  assert (Hwf : wf_dev (dev (on_line [ReadData [0x7F]])))
    by (split; [unfold cursor_inv, GEMPCTWIN_MAXBUF; simpl; lia|reflexivity]).
  split; [exact Hwf|].
  eexists _, _. split; [reflexivity|].
  eapply (ReadSerial_keeps_slot 1 [] (on_line [ReadData [0x7F]]) _ _ Hwf).
  reflexivity.
Defined.
(** ** What may come between the messages *)

Lemma ReadSerial_start_skips fuel echo buf :
  forall pre jumps s rest,
    Forall interleaved_ok pre ->
    feeds s (flat_map on_wire pre ++ rest) ->
    (List.length (line s) <= fuel)%nat ->
    exists s',
      ReadSerial_start fuel (List.length pre + jumps) echo buf s
      = ReadSerial_start fuel jumps echo buf s'
      /\ feeds s' rest
      /\ reported s' = reported s ++ flat_map report_of pre
      /\ (List.length (line s') <= List.length (line s))%nat.
Proof.
  induction pre as [|i pre IH]; intros jumps s rest Hok Hf Hfuel.
  - exists s. simpl. rewrite app_nil_r. auto.
  - inversion Hok as [|? ? Hi Hpre]; subst.
    cbn [flat_map] in Hf. rewrite <- app_assoc in Hf.
    cbn [List.length Nat.add]. rewrite ReadSerial_start_S.
    set (k := ReadSerial_start fuel (List.length pre + jumps)).
    assert (Hstep : exists s1,
               ReadSerial_from_start fuel k echo buf s = k echo buf s1
               /\ feeds s1 (flat_map on_wire pre ++ rest)
               /\ reported s1 = reported s ++ report_of i
               /\ (List.length (line s1) <= List.length (line s))%nat).
    { destruct i as [c|c|]; simpl in Hf, Hi.
      - destruct (ReadSerial_time_request fuel k echo buf s c _ Hf Hi Hfuel)
          as (s1 & E & H1 & H2 & H3).
        exists s1. simpl. rewrite app_nil_r. auto.
      - destruct (ReadSerial_notification fuel k echo buf s c _ Hf Hfuel)
          as (s1 & E & H1 & H2 & H3).
        exists s1. auto.
      - destruct (ReadSerial_nak_step fuel k echo buf s _ _ Hf Hfuel)
          as (s1 & E & H1 & H2 & H3).
        rewrite Z.eqb_refl in E, H2.
        exists s1. auto. }
    destruct Hstep as (s1 & E1 & Hf1 & R1 & L1). rewrite E1. unfold k.
    destruct (IH jumps s1 rest Hpre Hf1) as (s2 & E2 & Hf2 & R2 & L2); [lia|].
    exists s2. rewrite E2. split; [reflexivity|]. split; [exact Hf2|].
    split; [|lia]. rewrite R2, R1. cbn [flat_map]. now rewrite app_assoc.
Qed.

(** X2.  Time requests, slot-change notifications (whatever the movement code)
    and NAKs with a correct LRC, in any number and order, in front of the
    echo and between the echo and the response, are drained: [ReadSerial]
    returns [STATUS_SUCCESS] with the response in the caller's buffer, and
    reports the card movements, in order, and nothing else. *)
Theorem ReadSerial_drains_interleaved :
  forall fuel buf s pre mid e Le r Lr rest,
    Forall interleaved_ok pre -> Forall interleaved_ok mid ->
    ccid_frame e Le -> ccid_frame r Lr ->
    5 + Le <= GEMPCTWIN_MAXBUF -> 5 + Lr <= GEMPCTWIN_MAXBUF ->
    10 + Le <= len buf -> 10 + Lr <= len buf ->
    feeds s (flat_map on_wire pre ++ message e (frame_lrc e)
             ++ flat_map on_wire mid ++ message r (frame_lrc r) ++ rest) ->
    (List.length pre + List.length mid + 2 <= fuel)%nat ->
    (List.length (line s) <= fuel)%nat ->
    exists b s',
      ReadSerial fuel buf s = Returns (STATUS_SUCCESS, b) s'
      /\ take (len r) b = r
      /\ feeds s' rest
      /\ reported s'
         = reported s ++ flat_map report_of pre ++ flat_map report_of mid.
Proof.
  intros fuel buf s pre mid e Le r Lr rest Hpre Hmid He Hr Hce Hcr Hbe Hbr Hf
    Hjumps Hfuel.
  assert (Hle : is_byte (frame_lrc e)) by (apply frame_lrc_byte, He).
  assert (Hlr : is_byte (frame_lrc r)) by (apply frame_lrc_byte, Hr).
  exists (overwrite (overwrite buf 0 e) 0 r).
  assert (Hrun : exists s',
             ReadSerial_start fuel
               (List.length pre + S (List.length mid + S 0)) true buf s
             = Returns (STATUS_SUCCESS, overwrite (overwrite buf 0 e) 0 r) s'
             /\ feeds s' rest
             /\ reported s'
                = reported s ++ flat_map report_of pre ++ flat_map report_of mid).
  { destruct (ReadSerial_start_skips fuel true buf pre
                (S (List.length mid + S 0)) s _ Hpre Hf Hfuel)
      as (s1 & E1 & Hf1 & R1 & L1).
    rewrite E1, ReadSerial_start_S.
    destruct (ReadSerial_frame_step fuel
                (ReadSerial_start fuel (List.length mid + S 0)) true buf s1
                e Le (frame_lrc e) _ Hf1 He Hle Hce Hbe)
      as (s2 & E2 & Hf2 & R2 & L2); [lia|].
    rewrite E2.
    assert (Hb1 : len (overwrite buf 0 e) = len buf).
    { destruct He as (_ & _ & Hlen). apply len_overwrite; lia. }
    destruct (ReadSerial_start_skips fuel false (overwrite buf 0 e) mid
                (S 0) s2 _ Hmid Hf2)
      as (s3 & E3 & Hf3 & R3 & L3); [lia|].
    rewrite E3, ReadSerial_start_S.
    destruct (ReadSerial_frame_step fuel (ReadSerial_start fuel 0) false
                (overwrite buf 0 e) s3 r Lr (frame_lrc r) _ Hf3 Hr Hlr Hcr)
      as (s4 & E4 & Hf4 & R4 & L4); [lia|lia|].
    rewrite E4. exists s4.
    split; [reflexivity|]. split; [exact Hf4|].
    rewrite R4, R3, R2, R1, !lrc_diagnostic_good, !app_nil_r.
    now rewrite app_assoc. }
  destruct Hrun as (s' & E & Hf' & R).
  exists s'. split; [|split; [apply delivered_frame|split; assumption]].
  unfold ReadSerial.
  apply (ReadSerial_start_mono _ fuel fuel fuel) in E; [exact E|lia|lia].
Qed.

Lemma ReadSerial_drains_interleaved_witness :
  exists b s',
    ReadSerial 6 (repeat 0 64)
      (on_line
         [ReadData (flat_map on_wire [Slot_change CARD_ABSENT; Time_request 0x80]
                    ++ message sample_command (frame_lrc sample_command)
                    ++ flat_map on_wire [Nak; Slot_change 0x07]
                    ++ message sample_response (frame_lrc sample_response) ++ [])])
    = Returns (STATUS_SUCCESS, b) s'
    /\ take (len sample_response) b = sample_response
    /\ feeds s' []
    /\ reported s'
       = [] ++ flat_map report_of [Slot_change CARD_ABSENT; Time_request 0x80]
         ++ flat_map report_of [Nak; Slot_change 0x07].
Proof.
  apply (ReadSerial_drains_interleaved 6 (repeat 0 64)
           (on_line
              [ReadData (flat_map on_wire [Slot_change CARD_ABSENT; Time_request 0x80]
                         ++ message sample_command (frame_lrc sample_command)
                         ++ flat_map on_wire [Nak; Slot_change 0x07]
                         ++ message sample_response (frame_lrc sample_response)
                         ++ [])])
           [Slot_change CARD_ABSENT; Time_request 0x80] [Nak; Slot_change 0x07]
           sample_command 0 sample_response 2 []);
    try (vm_compute; congruence); try (simpl; lia); try sample_feeds.
  - repeat constructor. simpl. lia.
  - repeat constructor.
  - split; [|split; reflexivity]. repeat constructor; unfold is_byte; lia.
  - split; [|split; reflexivity]. repeat constructor; unfold is_byte; lia.
Defined.
(** ** Silence after the echo *)

Lemma failure_msg_notable t tail : notable (failure_msg t tail) = true.
Proof. destruct tail as [|[| | |bs] l]; reflexivity. Qed.

Lemma ReadChunk_loop_fails_reported BL min :
  forall chunks fuel a s tail,
    line s = map ReadData chunks ++ tail ->
    fails_next tail = true ->
    0 <= a -> a + len (List.concat chunks) < min ->
    a + len (List.concat chunks) <= BL ->
    (List.length chunks < fuel)%nat ->
    exists s',
      ReadChunk_loop fuel BL min a s = Returns (-1) s'
      /\ reported s'
         = reported s ++ [failure_msg (readTimeout (ccid (dev s))) tail]
      /\ line s' = List.tl tail
      /\ buffer (dev s') = overwrite (buffer (dev s)) a (List.concat chunks).
Proof.
  induction chunks as [|c chunks IH]; intros fuel a s tail Hl Ht Ha Hlt HBL Hfuel.
  - simpl in Hl. change (len (List.concat [])) with 0 in Hlt.
    destruct fuel as [|fuel]; [simpl in Hfuel; lia|].
    simpl. replace (a <? min) with true by (symmetry; apply Z.ltb_lt; lia).
    rewrite Hl. rewrite overwrite_nil.
    destruct tail as [|[| | |bs] tl]; try discriminate;
      eexists; (split; [reflexivity|]); rewrite reported_DEBUG; simpl;
      repeat split; auto.
  - simpl in Hl. cbn [List.concat] in Hlt, HBL |- *. rewrite len_app in Hlt, HBL.
    pose proof (len_nonneg c). pose proof (len_nonneg (List.concat chunks)).
    destruct fuel as [|fuel]; [simpl in Hfuel; lia|].
    simpl. replace (a <? min) with true by (symmetry; apply Z.ltb_lt; lia).
    rewrite Hl.
    rewrite (drop_all (BL - a) c) by lia.
    rewrite (take_all (BL - a) c) by lia.
    set (s1 := DEBUG _ _).
    destruct (IH fuel (a + len c) s1 tail) as (s' & Hrun & H1 & H2 & H3);
      try (subst s1; simpl; auto; lia).
    + simpl in Hfuel. lia.
    + exists s'. rewrite Hrun. subst s1.
      rewrite reported_DEBUG in H1. simpl in H1, H3. rewrite app_nil_r in H1.
      split; [reflexivity|]. split; [exact H1|]. split; [exact H2|].
      rewrite H3.
      (* the chunks land one after the other *)
      destruct (Z_le_gt_dec a (len (buffer (dev s)))) as [Hin|Hout].
      * apply overwrite_overwrite. lia.
      * unfold overwrite.
        rewrite !(take_all a) by (rewrite ?len_app; pose proof (len_nonneg c);
                                  rewrite ?len_take_min by lia; lia).
        rewrite !drop_all
          by (rewrite ?len_app; rewrite ?(take_all a) by lia;
              rewrite ?(drop_all (a + len c)) by lia;
              rewrite ?len_app; change (len (@nil Z)) with 0; lia).
        rewrite (take_all (a + len c)).
        -- rewrite !app_nil_r. now rewrite <- !app_assoc.
        -- rewrite !len_app. change (len (@nil Z)) with 0. lia.
Qed.
Lemma get_bytes_fails_reported fuel n s chunks tail :
  wf_dev (dev s) ->
  buffer_offset_last (dev s) - buffer_offset (dev s) < n ->
  line s = map ReadData chunks ++ tail ->
  fails_next tail = true ->
  len (List.concat chunks)
  < n - (buffer_offset_last (dev s) - buffer_offset (dev s)) ->
  len (List.concat chunks) <= GEMPCTWIN_MAXBUF ->
  (List.length chunks < fuel)%nat ->
  exists s',
    get_bytes fuel n s = Returns (STATUS_COMM_ERROR, available (dev s)) s'
    /\ buffer_offset (dev s') = buffer_offset (dev s)
    /\ buffer_offset_last (dev s') = buffer_offset_last (dev s)
    /\ reported s'
       = reported s ++ [failure_msg (readTimeout (ccid (dev s))) tail]
    /\ line s' = List.tl tail
    /\ buffer (dev s') = overwrite (buffer (dev s)) 0 (List.concat chunks).
Proof.
  intros Hwf Hlt Hline Htail Hshort Hcap Hfuel.
  set (present := buffer_offset_last (dev s) - buffer_offset (dev s)) in *.
  destruct Hwf as [(H0 & H1 & H2) Hbuf].
  unfold get_bytes. fold present.
  replace (buffer_offset (dev s) + n <=? buffer_offset_last (dev s)) with false
    by (symmetry; apply Z.leb_gt; lia).
  assert (Hout :
    exists s0,
      (if 0 <? present
       then match memcpy_from (buffer (dev (DEBUG (COMM_available present n) s)))
                    (buffer_offset (dev s)) present with
            | Some out =>
                Some (out, DEBUG (COMM_some_data_available present)
                             (DEBUG (COMM_available present n) s))
            | None => None
            end
       else Some ([], DEBUG (COMM_available present n) s))
      = Some (available (dev s), s0)
      /\ dev s0 = dev s /\ line s0 = line s /\ reported s0 = reported s).
  { destruct (Z.ltb_spec 0 present) as [E|E].
    - simpl. rewrite memcpy_from_ok by (fold present; lia).
      eexists. split; [reflexivity|].
      rewrite !reported_DEBUG. simpl. rewrite !app_nil_r. auto.
    - eexists. split.
      + unfold available. fold present. rewrite take_none by lia. reflexivity.
      + rewrite !reported_DEBUG. simpl. rewrite !app_nil_r. auto. }
  destruct Hout as (s0 & -> & Hd0 & Hl0 & Hr0).
  unfold ReadChunk.
  set (s1 := DEBUG (COMM_get_more_data (n - present)) s0).
  destruct (ReadChunk_loop_fails_reported GEMPCTWIN_MAXBUF (n - present)
              chunks fuel 0 s1 tail)
    as (s2 & Hrun & R1 & R2 & R3);
    try (subst s1; simpl; rewrite ?Hd0, ?Hl0; auto; lia).
  rewrite Hrun. simpl. exists s2.
  assert (H548 : 0 <= 0 <= GEMPCTWIN_MAXBUF) by (unfold GEMPCTWIN_MAXBUF; lia).
  pose proof (ReadChunk_loop_returns _ _ _ _ _ _ _ H548 Hrun) as (C1 & C2 & _).
  subst s1. simpl in R1, R3, C1, C2. rewrite Hd0 in R1, R3, C1, C2.
  rewrite reported_DEBUG in R1. simpl in R1. rewrite app_nil_r, Hr0 in R1.
  repeat split; auto.
Qed.

Lemma incoming_chunks :
  forall l D, incoming l = Some D ->
              exists chunks, l = map ReadData chunks /\ List.concat chunks = D.
Proof.
  induction l as [|[| | |bs] l IH]; intros D H; try discriminate.
  - injection H as <-. exists []. auto.
  - apply incoming_cons_data in H. destruct H as (D' & HD' & ->).
    destruct (IH D' HD') as (chunks & -> & <-).
    exists (bs :: chunks). auto.
Qed.

Lemma feeds_nil s :
  feeds s [] ->
  buffer_offset_last (dev s) - buffer_offset (dev s) = 0
  /\ exists chunks,
      line s = map ReadData chunks /\ List.concat chunks = [].
Proof.
  intros [Hwf Hp]. destruct (pending_Some _ _ Hp) as (D & HD & E).
  symmetry in E. apply app_eq_nil in E. destruct E as [Ea ->].
  split.
  - rewrite <- (len_available _ Hwf), Ea. reflexivity.
  - exact (incoming_chunks _ _ HD).
Qed.

(** X3.  The echo comes, with or without card movements and time requests
    around it, and then the line stays silent (the case the source
    describes: a card movement, the echo of the command but not its
    result): [ReadSerial] returns [STATUS_COMM_ERROR] after the timeout, the
    echoed command is what the caller's buffer holds, and the movements are
    reported before the timeout. *)
Theorem ReadSerial_echo_without_response :
  forall fuel buf s pre mid e Le lrc_e,
    Forall interleaved_ok pre -> Forall interleaved_ok mid ->
    ccid_frame e Le -> is_byte lrc_e ->
    5 + Le <= GEMPCTWIN_MAXBUF -> 10 + Le <= len buf ->
    feeds s (flat_map on_wire pre ++ message e lrc_e ++ flat_map on_wire mid) ->
    (List.length pre + List.length mid + 2 <= fuel)%nat ->
    (List.length (line s) < fuel)%nat ->
    exists s' t,
      ReadSerial fuel buf s = Returns (STATUS_COMM_ERROR, overwrite buf 0 e) s'
      /\ reported s'
         = reported s ++ flat_map report_of pre ++ lrc_diagnostic e lrc_e
           ++ flat_map report_of mid ++ [COMM_Timeout t].
Proof.
  intros fuel buf s pre mid e Le lrc_e Hpre Hmid He Hle Hce Hbe Hf Hjumps Hfuel.
  assert (Hrun : exists s' t,
             ReadSerial_start fuel
               (List.length pre + S (List.length mid + S 0)) true buf s
             = Returns (STATUS_COMM_ERROR, overwrite buf 0 e) s'
             /\ reported s'
                = reported s ++ flat_map report_of pre ++ lrc_diagnostic e lrc_e
                  ++ flat_map report_of mid ++ [COMM_Timeout t]).
  { destruct (ReadSerial_start_skips fuel true buf pre
                (S (List.length mid + S 0)) s _ Hpre Hf)
      as (s1 & E1 & Hf1 & R1 & L1); [lia|].
    rewrite E1, ReadSerial_start_S.
    destruct (ReadSerial_frame_step fuel
                (ReadSerial_start fuel (List.length mid + S 0)) true buf s1
                e Le lrc_e _ Hf1 He Hle Hce Hbe)
      as (s2 & E2 & Hf2 & R2 & L2); [lia|].
    rewrite E2.
    rewrite <- (app_nil_r (flat_map on_wire mid)) in Hf2.
    destruct (ReadSerial_start_skips fuel false (overwrite buf 0 e) mid
                (S 0) s2 _ Hmid Hf2)
      as (s3 & E3 & Hf3 & R3 & L3); [lia|].
    rewrite E3, ReadSerial_start_S. unfold ReadSerial_from_start.
    destruct (feeds_nil _ Hf3) as (Hempty & chunks & Hline & Hnil).
    destruct (get_bytes_fails_reported fuel 1 (DEBUG COMM_start s3) chunks [])
      as (s4 & E4 & _ & _ & R4 & _).
    - exact (proj1 Hf3).
    - simpl. lia.
    - simpl. now rewrite app_nil_r.
    - reflexivity.
    - rewrite Hnil. change (dev (DEBUG COMM_start s3)) with (dev s3).
      rewrite Hempty. change (len (@nil Z)) with 0. lia.
    - rewrite Hnil. change (len (@nil Z)) with 0. unfold GEMPCTWIN_MAXBUF. lia.
    - assert (List.length chunks = List.length (line s3))
        by (rewrite Hline; now rewrite length_map).
      lia.
    - rewrite E4. simpl. eexists _, _. split; [reflexivity|].
      rewrite R4, reported_DEBUG. simpl. rewrite app_nil_r.
      rewrite R3, R2, R1. rewrite <- !app_assoc. reflexivity. }
  destruct Hrun as (s' & t & E & R).
  exists s', t. split; [|exact R].
  unfold ReadSerial.
  apply (ReadSerial_start_mono _ fuel fuel fuel) in E; [exact E|lia|lia].
Qed.

Lemma ReadSerial_echo_without_response_witness :
  exists s' t,
    ReadSerial 3 (repeat 0 64)
      (on_line
         [ReadData (flat_map on_wire []
                    ++ message sample_command (frame_lrc sample_command)
                    ++ flat_map on_wire [Slot_change CARD_ABSENT])])
    = Returns (STATUS_COMM_ERROR, overwrite (repeat 0 64) 0 sample_command) s'
    /\ reported s'
       = [] ++ flat_map report_of []
         ++ lrc_diagnostic sample_command (frame_lrc sample_command)
         ++ flat_map report_of [Slot_change CARD_ABSENT] ++ [COMM_Timeout t].
Proof.
  apply (ReadSerial_echo_without_response 3 (repeat 0 64)
           (on_line
              [ReadData (flat_map on_wire []
                         ++ message sample_command (frame_lrc sample_command)
                         ++ flat_map on_wire [Slot_change CARD_ABSENT])])
           [] [Slot_change CARD_ABSENT] sample_command 0
           (frame_lrc sample_command));
    try (vm_compute; congruence); try (simpl; lia); try sample_feeds.
  - constructor.
  - repeat constructor.
  - split; [|split; reflexivity]. repeat constructor; unfold is_byte; lia.
  - unfold is_byte. vm_compute. split; congruence.
Defined.

(** X4.  A failed request throws away what it had read: with nothing buffered,
    bytes that arrive in front of a timeout, fewer than were asked for, are
    not returned and are not kept for the next request, which faces the
    bytes that come after the timeout. *)
Theorem get_bytes_timeout_drops_bytes :
  forall fuel n s chunks l D,
    wf_dev (dev s) ->
    buffer_offset (dev s) = buffer_offset_last (dev s) ->
    line s = map ReadData chunks ++ SelectTimeout :: l ->
    len (List.concat chunks) < n ->
    len (List.concat chunks) <= GEMPCTWIN_MAXBUF ->
    incoming l = Some D ->
    (List.length chunks < fuel)%nat ->
    exists s',
      get_bytes fuel n s = Returns (STATUS_COMM_ERROR, []) s'
      /\ feeds s' D.
Proof.
  intros fuel n s chunks l D Hwf Hempty Hline Hshort Hcap HD Hfuel.
  pose proof (len_nonneg (List.concat chunks)) as Hc0.
  destruct (get_bytes_fails_reported fuel n s chunks (SelectTimeout :: l) Hwf)
    as (s' & E & C1 & C2 & _ & Hl & Hb); auto; try lia.
  assert (Hav : available (dev s) = []).
  { unfold available. apply take_none. lia. }
  rewrite Hav in E. exists s'. split; [exact E|].
  destruct Hwf as [(H0 & H1 & H2) Hbuf].
  split; [split|].
  - unfold cursor_inv. lia.
  - rewrite Hb. rewrite len_overwrite; lia.
  - unfold pending. rewrite Hl. simpl. rewrite HD. f_equal.
    unfold available. rewrite take_none by lia. reflexivity.
Qed.

Lemma get_bytes_timeout_drops_bytes_witness :
  wf_dev (dev (on_line [ReadData [1; 2]; SelectTimeout; ReadData [3; 4; 5]]))
  /\ exists s',
      get_bytes 2 3 (on_line [ReadData [1; 2]; SelectTimeout; ReadData [3; 4; 5]])
      = Returns (STATUS_COMM_ERROR, []) s'
      /\ feeds s' [3; 4; 5].
Proof.
  assert (Hwf : wf_dev (dev (on_line [ReadData [1; 2]; SelectTimeout;
                                      ReadData [3; 4; 5]]))) by sample_wf.
  split; [exact Hwf|].
  apply (get_bytes_timeout_drops_bytes 2 3
           (on_line [ReadData [1; 2]; SelectTimeout; ReadData [3; 4; 5]])
           [[1; 2]] [ReadData [3; 4; 5]] [3; 4; 5] Hwf);
    try reflexivity; try (vm_compute; congruence); simpl; lia.
Defined.
(** ** The buffered reader *)

Lemma take_take_drop {A} (n m : Z) (l : list A) :
  0 <= n -> 0 <= m -> take n l ++ take m (drop n l) = take (n + m) l.
Proof.
  intros Hn Hm. rewrite <- (take_drop n l) at 3.
  destruct (Z_le_gt_dec n (len l)) as [H|H].
  - rewrite take_app_r by (rewrite len_take; lia).
    rewrite len_take by lia. do 2 f_equal. lia.
  - rewrite (drop_all n l) by lia. rewrite (take_all n l) by lia.
    rewrite app_nil_r. unfold take at 1. rewrite firstn_nil. rewrite app_nil_r.
    symmetry. apply take_all. lia.
Qed.

(** X5.  However the line cuts the stream into reads, asking for [n] bytes and
    then for [m] gives the bytes that asking for [n + m] at once gives, and
    leaves the same bytes in front of the decoder. *)
Theorem get_bytes_split :
  forall fuel n m s bs,
    feeds s bs -> 0 <= n -> 0 <= m -> n + m <= len bs ->
    n + m <= GEMPCTWIN_MAXBUF ->
    (List.length (line s) <= fuel)%nat ->
    exists o1 s1 o2 s2 s12,
      get_bytes fuel n s = Returns (STATUS_SUCCESS, o1) s1
      /\ get_bytes fuel m s1 = Returns (STATUS_SUCCESS, o2) s2
      /\ get_bytes fuel (n + m) s = Returns (STATUS_SUCCESS, o1 ++ o2) s12
      /\ o1 ++ o2 = take (n + m) bs
      /\ len o1 = n /\ len o2 = m
      /\ pending s2 = Some (drop (n + m) bs)
      /\ pending s12 = Some (drop (n + m) bs).
Proof.
  intros fuel n m s bs Hf Hn Hm Hlen Hcap Hfuel.
  destruct (get_bytes_feeds fuel n s bs Hf) as (s1 & E1 & Hf1 & _ & L1);
    try lia.
  destruct (get_bytes_feeds fuel m s1 (drop n bs) Hf1) as (s2 & E2 & Hf2 & _ & _);
    try lia.
  { rewrite len_drop by lia. lia. }
  destruct (get_bytes_feeds fuel (n + m) s bs Hf) as (s12 & E12 & Hf12 & _ & _);
    try lia.
  exists (take n bs), s1, (take m (drop n bs)), s2, s12.
  rewrite take_take_drop by lia.
  rewrite drop_drop in Hf2 by lia. rewrite (Z.add_comm m n) in Hf2.
  split; [exact E1|]. split; [exact E2|]. split; [exact E12|].
  split; [reflexivity|].
  split; [apply len_take; lia|].
  split; [apply len_take; rewrite len_drop by lia; lia|].
  split; [exact (proj2 Hf2)|exact (proj2 Hf12)].
Qed.

Lemma get_bytes_split_witness :
  feeds (on_line [ReadData [1; 2]; ReadData []; ReadData [3; 4; 5; 6]])
    [1; 2; 3; 4; 5; 6]
  /\ exists o1 s1 o2 s2 s12,
      get_bytes 3 1 (on_line [ReadData [1; 2]; ReadData []; ReadData [3; 4; 5; 6]])
      = Returns (STATUS_SUCCESS, o1) s1
      /\ get_bytes 3 3 s1 = Returns (STATUS_SUCCESS, o2) s2
      /\ get_bytes 3 (1 + 3)
           (on_line [ReadData [1; 2]; ReadData []; ReadData [3; 4; 5; 6]])
         = Returns (STATUS_SUCCESS, o1 ++ o2) s12
      /\ o1 ++ o2 = take (1 + 3) [1; 2; 3; 4; 5; 6]
      /\ len o1 = 1 /\ len o2 = 3
      /\ pending s2 = Some (drop (1 + 3) [1; 2; 3; 4; 5; 6])
      /\ pending s12 = Some (drop (1 + 3) [1; 2; 3; 4; 5; 6]).
Proof.
  assert (Hf : feeds (on_line [ReadData [1; 2]; ReadData []; ReadData [3; 4; 5; 6]])
                 [1; 2; 3; 4; 5; 6]) by sample_feeds.
  split; [exact Hf|].
  apply (get_bytes_split 3 1 3 _ _ Hf); try (vm_compute; congruence); simpl; lia.
Defined.

(** X6.  A request that the buffer can serve is served from it: the line is not
    touched (it may be silent or broken), no fresh data are asked for, and
    only [buffer_offset] moves. *)
Theorem get_bytes_from_buffer :
  forall fuel n s,
    wf_dev (dev s) -> 0 <= n ->
    buffer_offset (dev s) + n <= buffer_offset_last (dev s) ->
    exists s',
      get_bytes fuel n s
      = Returns (STATUS_SUCCESS, take n (available (dev s))) s'
      /\ line s' = line s
      /\ chunk_requests s' = chunk_requests s
      /\ buffer (dev s') = buffer (dev s)
      /\ buffer_offset (dev s') = buffer_offset (dev s) + n
      /\ buffer_offset_last (dev s') = buffer_offset_last (dev s)
      /\ available (dev s') = drop n (available (dev s)).
Proof.
  intros fuel n s Hwf Hn Hle.
  rewrite (get_bytes_buffered fuel n s Hwf Hn Hle).
  eexists. split; [reflexivity|].
  split; [reflexivity|]. split.
  { unfold chunk_requests. simpl. rewrite !filter_app. simpl.
    now rewrite !app_nil_r. }
  simpl. repeat split.
  destruct Hwf as [(H0 & H1 & H2) Hbuf].
  unfold available. simpl.
  rewrite drop_take by lia. rewrite drop_drop by lia.
  f_equal; [lia|f_equal; lia].
Qed.

Lemma get_bytes_from_buffer_witness :
  wf_dev (dev (on_line_2 [ReadError]))
  /\ exists s',
      get_bytes 0 2 (on_line_2 [ReadError])
      = Returns (STATUS_SUCCESS, take 2 (available (dev (on_line_2 [ReadError])))) s'
      /\ line s' = line (on_line_2 [ReadError])
      /\ chunk_requests s' = chunk_requests (on_line_2 [ReadError])
      /\ buffer (dev s') = buffer (dev (on_line_2 [ReadError]))
      /\ buffer_offset (dev s') = buffer_offset (dev (on_line_2 [ReadError])) + 2
      /\ buffer_offset_last (dev s')
         = buffer_offset_last (dev (on_line_2 [ReadError]))
      /\ available (dev s') = drop 2 (available (dev (on_line_2 [ReadError]))).
Proof.
  assert (Hwf : wf_dev (dev (on_line_2 [ReadError]))) by sample_wf.
  split; [exact Hwf|].
  apply (get_bytes_from_buffer 0 2 (on_line_2 [ReadError]) Hwf); simpl; lia.
Defined.

(** X7.  A request that exceeds what is buffered by more than the size of the
    buffer never succeeds: whatever the line does, if [get_bytes] returns,
    it returns [STATUS_COMM_ERROR]. *)
Theorem get_bytes_beyond_capacity :
  forall fuel n s rv out s',
    GEMPCTWIN_MAXBUF
    < n - (buffer_offset_last (dev s) - buffer_offset (dev s)) ->
    get_bytes fuel n s = Returns (rv, out) s' ->
    rv = STATUS_COMM_ERROR.
Proof.
  intros fuel n s rv out s' Hbig. unfold get_bytes.
  replace (buffer_offset (dev s) + n <=? buffer_offset_last (dev s)) with false
    by (symmetry; apply Z.leb_gt; unfold GEMPCTWIN_MAXBUF in Hbig; lia).
  match goal with
  | |- match ?c with _ => _ end = _ -> _ => destruct c as [[o s0]|]
  end; [|discriminate].
  unfold ReadChunk.
  destruct (ReadChunk_loop _ _ _ _ _) as [r s2| |] eqn:Erun; try discriminate.
  apply ReadChunk_loop_returns in Erun; [|unfold GEMPCTWIN_MAXBUF; lia].
  destruct Erun as (_ & _ & [->|Hr]).
  - simpl. now intros [= <- _ _].
  - lia.
Qed.

Lemma get_bytes_beyond_capacity_witness :
  GEMPCTWIN_MAXBUF
  < 549 - (buffer_offset_last (dev (on_line [ReadData [1; 2]]))
           - buffer_offset (dev (on_line [ReadData [1; 2]])))
  /\ exists rv out s',
      get_bytes 2 549 (on_line [ReadData [1; 2]]) = Returns (rv, out) s'
      /\ rv = STATUS_COMM_ERROR.
Proof.
  assert (H : GEMPCTWIN_MAXBUF
              < 549 - (buffer_offset_last (dev (on_line [ReadData [1; 2]]))
                       - buffer_offset (dev (on_line [ReadData [1; 2]]))))
    by (vm_compute; reflexivity).
  split; [exact H|].
  eexists _, _, _. split; [reflexivity|].
  eapply (get_bytes_beyond_capacity 2 549 (on_line [ReadData [1; 2]]) _ _ _ H).
  reflexivity.
Defined.

(** X8.  On a line that has more bytes waiting than the buffer can take, a chunk
    read whose minimum exceeds the size of the buffer does not return: once
    the buffer is full every [read] is asked for 0 bytes and makes no
    progress, so the loop outlasts every iteration budget. *)
Theorem ReadChunk_beyond_capacity_spins :
  forall fuel BL min s D,
    0 <= BL < min ->
    incoming (line s) = Some D -> BL < len D ->
    ReadChunk fuel BL min s = OutOfFuel.
Proof.
  intros fuel BL min s D HBL. unfold ReadChunk.
  assert (G : forall fuel a s D,
             0 <= a <= BL -> incoming (line s) = Some D -> BL - a < len D ->
             ReadChunk_loop fuel BL min a s = OutOfFuel).
  { clear s D fuel. induction fuel as [|fuel IH]; intros a s D Ha HD Hlen;
      simpl; replace (a <? min) with true by (symmetry; apply Z.ltb_lt; lia);
      [reflexivity|].
    destruct (line s) as [|[| | |bs] l] eqn:El; try discriminate.
    { injection HD as <-. change (len (@nil Z)) with 0 in Hlen. lia. }
    apply incoming_cons_data in HD. destruct HD as (D' & HD' & ->).
    rewrite len_app in Hlen. pose proof (len_nonneg bs).
    destruct (drop (BL - a) bs) as [|x r] eqn:Edrop.
    - apply drop_nil_len in Edrop.
      rewrite (take_all (BL - a) bs) by lia.
      apply (IH _ _ D'); simpl; auto; lia.
    - pose proof (drop_cons_len _ _ _ _ Edrop) as Hlt.
      rewrite (len_take (BL - a) bs) by lia.
      apply (IH _ _ ((x :: r) ++ D')).
      + lia.
      + simpl. now rewrite HD'.
      + rewrite len_app, len_cons. pose proof (len_nonneg r).
        pose proof (len_nonneg D'). lia. }
  intros HD Hlen. apply (G fuel 0 s D); auto; lia.
Qed.

Lemma ReadChunk_beyond_capacity_spins_witness :
  0 <= 2 < 3
  /\ incoming (line (on_line [ReadData [1; 2; 3]])) = Some [1; 2; 3]
  /\ 2 < len [1; 2; 3]
  /\ ReadChunk 100 2 3 (on_line [ReadData [1; 2; 3]]) = OutOfFuel.
Proof.
  split; [lia|]. split; [reflexivity|]. split; [vm_compute; reflexivity|].
  apply (ReadChunk_beyond_capacity_spins 100 2 3 (on_line [ReadData [1; 2; 3]])
           [1; 2; 3]); [lia|reflexivity|vm_compute; reflexivity].
Defined.

(** X9.  Whatever the line does, a chunk read that returns either fails with -1
    or returns a count between the minimum asked for and the size given;
    it never moves the cursors, never changes the size of the buffer and
    never touches the descriptor, the path or the CCID descriptor. *)
Theorem ReadChunk_result :
  forall fuel BL min s rv s',
    0 <= BL <= len (buffer (dev s)) ->
    ReadChunk fuel BL min s = Returns rv s' ->
    (rv = -1 \/ (min <= rv /\ 0 <= rv <= BL))
    /\ buffer_offset (dev s') = buffer_offset (dev s)
    /\ buffer_offset_last (dev s') = buffer_offset_last (dev s)
    /\ len (buffer (dev s')) = len (buffer (dev s))
    /\ fd (dev s') = fd (dev s)
    /\ device (dev s') = device (dev s)
    /\ ccid (dev s') = ccid (dev s).
Proof.
  intros fuel BL min s rv s' HBL Hrun. unfold ReadChunk in Hrun.
  pose proof (ReadChunk_loop_returns fuel BL min 0 s rv s' ltac:(lia) Hrun)
    as (C1 & C2 & C3).
  apply (ReadChunk_loop_keeps
           (fun d => fd d = fd (dev s) /\ device d = device (dev s)
                     /\ ccid d = ccid (dev s))) in Hrun; auto; try lia.
  destruct Hrun as ((F1 & F2 & F3) & Hlen).
  repeat split; auto; lia.
Qed.

Lemma ReadChunk_result_witness :
  0 <= 4 <= len (buffer (dev (on_line [ReadData [1; 2]; ReadData [3; 4; 5]])))
  /\ exists rv s',
      ReadChunk 2 4 3 (on_line [ReadData [1; 2]; ReadData [3; 4; 5]])
      = Returns rv s'
      /\ (rv = -1 \/ (3 <= rv /\ 0 <= rv <= 4))
      /\ buffer_offset (dev s') = 0
      /\ buffer_offset_last (dev s') = 0
      /\ len (buffer (dev s')) = len (buffer sample_slot)
      /\ fd (dev s') = 3
      /\ device (dev s') = device sample_slot
      /\ ccid (dev s') = sample_ccid.
Proof.
  assert (H : 0 <= 4 <= len (buffer (dev (on_line [ReadData [1; 2];
                                                  ReadData [3; 4; 5]]))))
    by (vm_compute; split; congruence).
  split; [exact H|].
  eexists _, _. split; [reflexivity|].
  eapply (ReadChunk_result 2 4 3 (on_line [ReadData [1; 2]; ReadData [3; 4; 5]])
            _ _ H).
  reflexivity.
Defined.
(** ** Sending *)

Lemma frame_lrc_written payload :
  lrc_of ([0x03; 0x06] ++ payload) = frame_lrc payload.
Proof. rewrite lrc_of_app. reflexivity. Qed.

(** What [WriteSerial] hands to [write], as a message of the protocol. *)
Lemma WriteSerial_writes write payload s :
  Forall is_byte payload ->
  len payload <= GEMPCTWIN_MAXBUF - 3 ->
  WriteSerial write (len payload) payload s
  = (if write (fd (dev s)) (message payload (frame_lrc payload)) (len payload + 3)
        =? len payload + 3
     then Returns STATUS_SUCCESS s
     else Returns STATUS_UNSUCCESSFUL (DEBUG CRITICAL_write_error s)).
Proof.
  intros Hbytes Hlen.
  pose proof (len_nonneg payload) as H0.
  set (frame := message payload (frame_lrc payload)).
  assert (Hhead : Forall is_byte ([0x03; 0x06] ++ payload)).
  { repeat constructor; try (unfold is_byte; lia). exact Hbytes. }
  assert (Hl2 : len ([0x03; 0x06] ++ payload) = len payload + 2).
  { rewrite len_app. change (len [0x03; 0x06]) with 2. lia. }
  assert (Hl3 : len frame = len payload + 3).
  { unfold frame, message. rewrite app_assoc, len_app.
    change [SYNC; CTRL_ACK] with [0x03; 0x06]. rewrite Hl2.
    change (len [frame_lrc payload]) with 1. lia. }
  unfold WriteSerial.
  replace (len payload >? GEMPCTWIN_MAXBUF - 3) with false
    by (symmetry; rewrite Z.gtb_ltb; apply Z.ltb_ge; lia).
  rewrite memcpy_from_ok by lia.
  rewrite drop_none by lia. rewrite (take_all (len payload) payload) by lia.
  set (X := repeat 0 (Z.to_nat GEMPCTWIN_MAXBUF)).
  assert (HX : len X = GEMPCTWIN_MAXBUF).
  { unfold X, len. rewrite repeat_length. unfold GEMPCTWIN_MAXBUF. lia. }
  assert (HXpos : 0 <= 0 <= len X) by (rewrite HX; unfold GEMPCTWIN_MAXBUF; lia).
  assert (E1 : overwrite (overwrite X 0 [0x03]) 1 [0x06]
               = overwrite X 0 [0x03; 0x06])
    by (apply (overwrite_overwrite X 0 [0x03] [0x06]); exact HXpos).
  assert (E2 : overwrite (overwrite X 0 [0x03; 0x06]) 2 payload
               = overwrite X 0 ([0x03; 0x06] ++ payload))
    by (apply (overwrite_overwrite X 0 [0x03; 0x06] payload); exact HXpos).
  rewrite E1, E2.
  rewrite <- Hl2. rewrite take_overwrite_frame.
  rewrite fold_uchar_lxor by (assumption || (unfold is_byte; lia)).
  rewrite Z.lxor_0_l, frame_lrc_written.
  assert (E3 : overwrite (overwrite X 0 ([0x03; 0x06] ++ payload))
                 (len ([0x03; 0x06] ++ payload)) [frame_lrc payload]
               = overwrite X 0 frame).
  { unfold frame, message. rewrite app_assoc.
    apply (overwrite_overwrite X 0 ([0x03; 0x06] ++ payload)). exact HXpos. }
  rewrite E3.
  replace (len ([0x03; 0x06] ++ payload) + 1) with (len frame) by lia.
  replace (len payload + 3) with (len frame) by lia.
  rewrite take_overwrite_frame.
  destruct (write (fd (dev s)) frame (len frame) =? len frame); reflexivity.
Qed.

(** X10.  [WriteSerial] returns [STATUS_SUCCESS] exactly when the command has at
    most [GEMPCTWIN_MAXBUF - 3] bytes and [write] reports the whole message
    written, and [STATUS_UNSUCCESSFUL] otherwise; it leaves the slot as it
    was, and a command that is too long is refused whatever [write] would
    answer. *)
Theorem WriteSerial_outcome :
  forall write payload s,
    Forall is_byte payload ->
    exists st s',
      WriteSerial write (len payload) payload s = Returns st s'
      /\ dev s' = dev s /\ line s' = line s
      /\ (st = STATUS_SUCCESS
          <-> len payload <= GEMPCTWIN_MAXBUF - 3
              /\ write (fd (dev s)) (message payload (frame_lrc payload))
                   (len payload + 3) = len payload + 3)
      /\ (st = STATUS_SUCCESS \/ st = STATUS_UNSUCCESSFUL)
      /\ (st = STATUS_SUCCESS -> s' = s)
      /\ (GEMPCTWIN_MAXBUF - 3 < len payload ->
          forall write',
            WriteSerial write' (len payload) payload s = Returns st s'
            /\ reported s'
               = reported s
                 ++ [CRITICAL_command_too_long (len payload)
                       (GEMPCTWIN_MAXBUF - 3)]).
Proof.
  intros write payload s Hbytes.
  destruct (Z_le_gt_dec (len payload) (GEMPCTWIN_MAXBUF - 3)) as [Hle|Hgt].
  - rewrite (WriteSerial_writes write payload s Hbytes Hle).
    destruct (Z.eqb_spec
                (write (fd (dev s)) (message payload (frame_lrc payload))
                   (len payload + 3)) (len payload + 3)) as [E|E].
    + exists STATUS_SUCCESS, s. repeat split; auto; lia.
    + eexists STATUS_UNSUCCESSFUL, _. split; [reflexivity|].
      repeat split; auto; try discriminate; try lia.
  - assert (Hrun : forall w,
               WriteSerial w (len payload) payload s
               = Returns STATUS_UNSUCCESSFUL
                   (DEBUG (CRITICAL_command_too_long (len payload)
                             (GEMPCTWIN_MAXBUF - 3)) s)).
    { intros w. unfold WriteSerial.
      replace (len payload >? GEMPCTWIN_MAXBUF - 3) with true
        by (symmetry; rewrite Z.gtb_ltb; apply Z.ltb_lt; lia).
      reflexivity. }
    eexists STATUS_UNSUCCESSFUL, _. split; [apply Hrun|].
    repeat split; auto; try discriminate; try lia.
    apply reported_DEBUG.
Qed.

Lemma WriteSerial_outcome_witness :
  exists st s',
    WriteSerial (fun _ _ count => count - 1) (len sample_command) sample_command
      (on_line [])
    = Returns st s'
    /\ dev s' = dev (on_line []) /\ line s' = line (on_line [])
    /\ (st = STATUS_SUCCESS
        <-> len sample_command <= GEMPCTWIN_MAXBUF - 3
            /\ (fun (_ : Z) (_ : list Z) (count : Z) => count - 1)
                 (fd (dev (on_line [])))
                 (message sample_command (frame_lrc sample_command))
                 (len sample_command + 3) = len sample_command + 3)
    /\ (st = STATUS_SUCCESS \/ st = STATUS_UNSUCCESSFUL)
    /\ (st = STATUS_SUCCESS -> s' = on_line [])
    /\ (GEMPCTWIN_MAXBUF - 3 < len sample_command ->
        forall write',
          WriteSerial write' (len sample_command) sample_command (on_line [])
          = Returns st s'
          /\ reported s'
             = reported (on_line [])
               ++ [CRITICAL_command_too_long (len sample_command)
                     (GEMPCTWIN_MAXBUF - 3)]).
Proof.
  apply (WriteSerial_outcome (fun _ _ count => count - 1) sample_command
           (on_line [])).
  repeat constructor; unfold is_byte; lia.
Defined.

(** X11.  A command and its answer.  When [write] takes the whole message, what
    [WriteSerial] has written is a well-formed message of the protocol: if
    the line echoes it and the reader's response follows, [ReadSerial]
    accepts the echo without a checksum warning and delivers the response. *)
Theorem command_exchange :
  forall write fuel buf s c Lc r Lr rest,
    ccid_frame c Lc -> ccid_frame r Lr ->
    len c <= GEMPCTWIN_MAXBUF - 3 -> 5 + Lr <= GEMPCTWIN_MAXBUF ->
    10 + Lc <= len buf -> 10 + Lr <= len buf ->
    write (fd (dev s)) (message c (frame_lrc c)) (len c + 3) = len c + 3 ->
    feeds s (message c (frame_lrc c) ++ message r (frame_lrc r) ++ rest) ->
    (2 <= fuel)%nat -> (List.length (line s) <= fuel)%nat ->
    WriteSerial write (len c) c s = Returns STATUS_SUCCESS s
    /\ exists b s',
        ReadSerial fuel buf s = Returns (STATUS_SUCCESS, b) s'
        /\ take (len r) b = r
        /\ feeds s' rest
        /\ reported s' = reported s.
Proof.
  intros write fuel buf s c Lc r Lr rest Hc Hr Hlen Hcr Hbc Hbr Hw Hf H2 Hfuel.
  split.
  - rewrite (WriteSerial_writes write c s (proj1 Hc) Hlen), Hw.
    now rewrite Z.eqb_refl.
  - destruct fuel as [|[|fuel]]; try lia. rewrite ReadSerial_unfold.
    destruct (ReadSerial_exchange (S (S fuel)) fuel buf s c Lc (frame_lrc c)
                r Lr (frame_lrc r) rest Hc Hr) as (s' & E & Hf' & R);
      auto; try (apply frame_lrc_byte; [apply Hc || apply Hr]).
    { destruct Hc as (_ & _ & Hl). unfold GEMPCTWIN_MAXBUF in *. lia. }
    exists (overwrite (overwrite buf 0 c) 0 r), s'.
    rewrite !lrc_diagnostic_good, !app_nil_r in R.
    split; [exact E|split; [apply delivered_frame|split; assumption]].
Qed.

Lemma command_exchange_witness :
  WriteSerial (fun _ _ count => count) (len sample_command) sample_command
    (on_line [ReadData (message sample_command (frame_lrc sample_command));
              ReadData (message sample_response (frame_lrc sample_response) ++ [])])
  = Returns STATUS_SUCCESS
      (on_line [ReadData (message sample_command (frame_lrc sample_command));
                ReadData (message sample_response (frame_lrc sample_response) ++ [])])
  /\ exists b s',
      ReadSerial 2 (repeat 0 64)
        (on_line [ReadData (message sample_command (frame_lrc sample_command));
                  ReadData (message sample_response (frame_lrc sample_response)
                            ++ [])])
      = Returns (STATUS_SUCCESS, b) s'
      /\ take (len sample_response) b = sample_response
      /\ feeds s' []
      /\ reported s'
         = reported
             (on_line [ReadData (message sample_command (frame_lrc sample_command));
                       ReadData (message sample_response (frame_lrc sample_response)
                                 ++ [])]).
Proof.
  apply (command_exchange (fun _ _ count => count) 2 (repeat 0 64)
           (on_line [ReadData (message sample_command (frame_lrc sample_command));
                     ReadData (message sample_response (frame_lrc sample_response)
                               ++ [])])
           sample_command 0 sample_response 2 []);
    try (vm_compute; congruence); try (simpl; lia); try sample_feeds;
    try reflexivity.
  - split; [|split; reflexivity]. repeat constructor; unfold is_byte; lia.
  - split; [|split; reflexivity]. repeat constructor; unfold is_byte; lia.
Defined.
(** ** Opening and closing the port *)

(** The run of [OpenSerialByName] when [open] fails. *)
Lemma OpenSerialByName_unopened :
  forall sys_open sys_tcflush sys_tcgetattr sys_tcsetattr GEMPCTWIN
         DEFAULT_COM_READ_TIMEOUT CmdEscape reader dev_name g d,
    channel_already_used (serialDevice g) dev_name = false ->
    nth_error (serialDevice g) reader = Some d ->
    sys_open dev_name = -1 ->
    exists g',
      OpenSerialByName sys_open sys_tcflush sys_tcgetattr sys_tcsetattr
        GEMPCTWIN DEFAULT_COM_READ_TIMEOUT CmdEscape reader dev_name g
      = Some (STATUS_UNSUCCESSFUL, g')
      /\ syscalls g' = syscalls g ++ [Sys_open dev_name]
      /\ nth_error (serialDevice g') reader = Some (set_fd (-1) d)
      /\ (forall i, i <> reader ->
                    nth_error (serialDevice g') i = nth_error (serialDevice g) i)
      /\ channel_already_used (serialDevice g') dev_name = false.
Proof.
  intros sys_open sys_tcflush sys_tcgetattr sys_tcsetattr GEMPCTWIN
    DEFAULT_COM_READ_TIMEOUT CmdEscape reader dev_name g d Hfree Hd Hopen.
  unfold OpenSerialByName, OpenSerialByName_setup. cbv zeta.
  change (serialDevice (say (COMM_Reader_index reader dev_name) g))
    with (serialDevice g).
  rewrite Hfree, Hopen. run_update. cbv beta iota. simpl (-1 =? -1).
  cbv iota.
  eexists. split; [reflexivity|]. split; [reflexivity|].
  split; [simpl; eapply nth_error_set_nth; exact Hd|].
  split.
  - intros i Hi. simpl. apply nth_error_set_nth_other. congruence.
  - apply channel_already_used_false. intros i d' Hi Hd'.
    simpl in Hi. destruct (Nat.eq_dec i reader) as [->|Hne].
    + erewrite nth_error_set_nth in Hi by exact Hd. injection Hi as <-.
      simpl in Hd'.
      apply (proj1 (channel_already_used_false dev_name _) Hfree reader d Hd Hd').
    + rewrite nth_error_set_nth_other in Hi by congruence.
      apply (proj1 (channel_already_used_false dev_name _) Hfree i d' Hi Hd').
Qed.

(** X12.  When [open] fails, [OpenSerialByName] returns [STATUS_UNSUCCESSFUL]
    after that one system call.  The slot's [fd] is -1 from then on, also
    when the slot was in use; no [device] field changes, so the path is not
    marked as used, and the other slots are as they were. *)
Theorem OpenSerialByName_open_fails :
  forall sys_open sys_tcflush sys_tcgetattr sys_tcsetattr GEMPCTWIN
         DEFAULT_COM_READ_TIMEOUT CmdEscape reader dev_name g d,
    channel_already_used (serialDevice g) dev_name = false ->
    nth_error (serialDevice g) reader = Some d ->
    sys_open dev_name = -1 ->
    exists g',
      OpenSerialByName sys_open sys_tcflush sys_tcgetattr sys_tcsetattr
        GEMPCTWIN DEFAULT_COM_READ_TIMEOUT CmdEscape reader dev_name g
      = Some (STATUS_UNSUCCESSFUL, g')
      /\ syscalls g' = syscalls g ++ [Sys_open dev_name]
      /\ nth_error (serialDevice g') reader = Some (set_fd (-1) d)
      /\ (forall i, i <> reader ->
                    nth_error (serialDevice g') i = nth_error (serialDevice g) i)
      /\ channel_already_used (serialDevice g') dev_name = false.
Proof.
  intros sys_open sys_tcflush sys_tcgetattr sys_tcsetattr GEMPCTWIN
    DEFAULT_COM_READ_TIMEOUT CmdEscape reader dev_name g d Hfree Hd Hopen.
  exact (OpenSerialByName_unopened sys_open sys_tcflush sys_tcgetattr
           sys_tcsetattr GEMPCTWIN DEFAULT_COM_READ_TIMEOUT CmdEscape reader
           dev_name g d Hfree Hd Hopen).
Qed.


Lemma OpenSerialByName_open_fails_witness :
  channel_already_used (serialDevice sample_driver) "/dev/pcsc/2" = false
  /\ exists g',
      OpenSerialByName (fun _ => -1) (fun _ => 0) (fun _ => 0) (fun _ => 0) 0 2
        (fun _ _ g => (true, [], g)) 0%nat "/dev/pcsc/2"%string sample_driver
      = Some (STATUS_UNSUCCESSFUL, g')
      /\ syscalls g' = syscalls sample_driver ++ [Sys_open "/dev/pcsc/2"]
      /\ nth_error (serialDevice g') 0 = Some (set_fd (-1) sample_slot)
      /\ (forall i, i <> 0%nat ->
                    nth_error (serialDevice g') i
                    = nth_error (serialDevice sample_driver) i)
      /\ channel_already_used (serialDevice g') "/dev/pcsc/2" = false.
Proof.
  split; [reflexivity|].
  apply (OpenSerialByName_open_fails (fun _ => -1) (fun _ => 0) (fun _ => 0)
           (fun _ => 0) 0 2 (fun _ _ g => (true, [], g)) 0%nat
           "/dev/pcsc/2"%string sample_driver sample_slot); reflexivity.
Defined.
Lemma OpenSerialByName_refuses sys_open sys_tcflush sys_tcgetattr sys_tcsetattr
    GEMPCTWIN DEFAULT_COM_READ_TIMEOUT CmdEscape reader dev_name g :
  channel_already_used (serialDevice g) dev_name = true ->
  OpenSerialByName sys_open sys_tcflush sys_tcgetattr sys_tcsetattr
    GEMPCTWIN DEFAULT_COM_READ_TIMEOUT CmdEscape reader dev_name g
  = Some (STATUS_UNSUCCESSFUL,
          say (CRITICAL_Device_already_in_use dev_name)
            (say (COMM_Reader_index reader dev_name) g)).
Proof.
  intros H. unfold OpenSerialByName, OpenSerialByName_setup. cbv zeta.
  change (serialDevice (say (COMM_Reader_index reader dev_name) g))
    with (serialDevice g).
  now rewrite H.
Qed.

(** The run of [OpenSerialByName] when the port opens but [tcgetattr] or
    [tcsetattr] fails. *)
Lemma OpenSerialByName_unconfigured sys_open sys_tcflush sys_tcgetattr
    sys_tcsetattr GEMPCTWIN DEFAULT_COM_READ_TIMEOUT CmdEscape reader dev_name
    g d :
  channel_already_used (serialDevice g) dev_name = false ->
  nth_error (serialDevice g) reader = Some d ->
  sys_open dev_name <> -1 ->
  sys_tcgetattr (sys_open dev_name) = -1
  \/ sys_tcsetattr (sys_open dev_name) = -1 ->
  exists g' calls d',
    OpenSerialByName sys_open sys_tcflush sys_tcgetattr sys_tcsetattr
      GEMPCTWIN DEFAULT_COM_READ_TIMEOUT CmdEscape reader dev_name g
    = Some (STATUS_UNSUCCESSFUL, g')
    /\ syscalls g'
       = syscalls g ++ Sys_open dev_name :: calls
         ++ [Sys_close (sys_open dev_name)]
    /\ nth_error (serialDevice g') reader = Some d'
    /\ fd d' = -1 /\ device d' = Some dev_name
    /\ forall i, i <> reader ->
                 nth_error (serialDevice g') i = nth_error (serialDevice g) i.
Proof.
  intros Hfree Hd Hopen Hcfg.
  unfold OpenSerialByName, OpenSerialByName_setup. cbv zeta.
  change (serialDevice (say (COMM_Reader_index reader dev_name) g))
    with (serialDevice g).
  rewrite Hfree. run_update.
  replace (-1 =? sys_open dev_name) with false
    by (symmetry; apply Z.eqb_neq; congruence).
  run_update.
  set (fd0 := sys_open dev_name).
  destruct (negb (sys_tcflush fd0 =? 0));
    (destruct (Z.eqb_spec (sys_tcgetattr fd0) (-1)) as [Eg|Eg];
     [run_update;
      eexists _, [Sys_tcflush fd0; Sys_tcgetattr fd0], _
     |destruct (Z.eqb_spec (sys_tcsetattr fd0) (-1)) as [Es|Es];
      [run_update;
       eexists _, [Sys_tcflush fd0; Sys_tcgetattr fd0; Sys_tcsetattr fd0], _
      |exfalso; destruct Hcfg; contradiction]]);
    (split; [reflexivity|]; split;
     [cbn [syscalls sys say put_slot]; rewrite <- !app_assoc; reflexivity
     |split; [eapply nth_error_put, nth_error_put, nth_error_put; exact Hd|];
      split; [reflexivity|]; split; [reflexivity|];
      intros i Hi; cbn [serialDevice sys say put_slot];
      rewrite !nth_error_set_nth_other by congruence; reflexivity]).
Qed.

(** X13.  When the port opens but cannot be configured ([tcgetattr] or
    [tcsetattr] returns -1), [OpenSerialByName] closes the descriptor and
    returns [STATUS_UNSUCCESSFUL] with [fd] at -1, but the slot keeps the
    device path: until the slot is closed, every further open of that path,
    on any slot, is refused as "already in use" without a system call. *)
Theorem OpenSerialByName_config_fails :
  forall sys_open sys_tcflush sys_tcgetattr sys_tcsetattr GEMPCTWIN
         DEFAULT_COM_READ_TIMEOUT CmdEscape reader dev_name g d,
    channel_already_used (serialDevice g) dev_name = false ->
    nth_error (serialDevice g) reader = Some d ->
    sys_open dev_name <> -1 ->
    sys_tcgetattr (sys_open dev_name) = -1
    \/ sys_tcsetattr (sys_open dev_name) = -1 ->
    exists g' calls d',
      OpenSerialByName sys_open sys_tcflush sys_tcgetattr sys_tcsetattr
        GEMPCTWIN DEFAULT_COM_READ_TIMEOUT CmdEscape reader dev_name g
      = Some (STATUS_UNSUCCESSFUL, g')
      /\ syscalls g'
         = syscalls g ++ Sys_open dev_name :: calls
           ++ [Sys_close (sys_open dev_name)]
      /\ nth_error (serialDevice g') reader = Some d'
      /\ fd d' = -1 /\ device d' = Some dev_name
      /\ forall sys_open' sys_tcflush' sys_tcgetattr' sys_tcsetattr' CmdEscape'
                reader',
          exists g'',
            OpenSerialByName sys_open' sys_tcflush' sys_tcgetattr' sys_tcsetattr'
              GEMPCTWIN DEFAULT_COM_READ_TIMEOUT CmdEscape' reader' dev_name g'
            = Some (STATUS_UNSUCCESSFUL, g'')
            /\ syscalls g'' = syscalls g'
            /\ serialDevice g'' = serialDevice g'.
Proof.
  intros sys_open sys_tcflush sys_tcgetattr sys_tcsetattr GEMPCTWIN
    DEFAULT_COM_READ_TIMEOUT CmdEscape reader dev_name g d Hfree Hd Hopen Hcfg.
  destruct (OpenSerialByName_unconfigured sys_open sys_tcflush sys_tcgetattr
              sys_tcsetattr GEMPCTWIN DEFAULT_COM_READ_TIMEOUT CmdEscape reader
              dev_name g d Hfree Hd Hopen Hcfg)
    as (g' & calls & d' & E & Hs & Hn & Hfd & Hdev & _).
  exists g', calls, d'. repeat split; auto.
  intros sys_open' sys_tcflush' sys_tcgetattr' sys_tcsetattr' CmdEscape' reader'.
  rewrite OpenSerialByName_refuses
    by (apply channel_already_used_iff; eauto).
  eexists. split; [reflexivity|]. split; reflexivity.
Qed.

Lemma OpenSerialByName_config_fails_witness :
  channel_already_used (serialDevice sample_driver) "/dev/pcsc/2" = false
  /\ exists g' calls d',
      OpenSerialByName (fun _ => 4) (fun _ => 0) (fun _ => -1) (fun _ => 0) 0 2
        (fun _ _ g => (true, [], g)) 1%nat "/dev/pcsc/2"%string sample_driver
      = Some (STATUS_UNSUCCESSFUL, g')
      /\ syscalls g'
         = syscalls sample_driver ++ Sys_open "/dev/pcsc/2" :: calls
           ++ [Sys_close 4]
      /\ nth_error (serialDevice g') 1 = Some d'
      /\ fd d' = -1 /\ device d' = Some "/dev/pcsc/2"%string
      /\ forall sys_open' sys_tcflush' sys_tcgetattr' sys_tcsetattr' CmdEscape'
                reader',
          exists g'',
            OpenSerialByName sys_open' sys_tcflush' sys_tcgetattr' sys_tcsetattr'
              0 2 CmdEscape' reader' "/dev/pcsc/2"%string g'
            = Some (STATUS_UNSUCCESSFUL, g'')
            /\ syscalls g'' = syscalls g'
            /\ serialDevice g'' = serialDevice g'.
Proof.
  split; [reflexivity|].
  apply (OpenSerialByName_config_fails (fun _ => 4) (fun _ => 0) (fun _ => -1)
           (fun _ => 0) 0 2 (fun _ _ g => (true, [], g)) 1%nat
           "/dev/pcsc/2"%string sample_driver free_slot);
    try reflexivity.
  - discriminate.
  - left. reflexivity.
Defined.

(** X14.  When the port opens and is configured, the slot is set up by four
    system calls, [open], [tcflush], [tcgetattr], [tcsetattr]: it holds the
    descriptor and the path, empty cursors over the buffer it had, and the
    CCID descriptor of the GemPC Twin, whose read timeout is not set yet;
    the other slots are as they were. *)
Theorem OpenSerialByName_setup_slot :
  forall sys_open sys_tcflush sys_tcgetattr sys_tcsetattr GEMPCTWIN
         reader dev_name g d,
    channel_already_used (serialDevice g) dev_name = false ->
    nth_error (serialDevice g) reader = Some d ->
    sys_open dev_name <> -1 ->
    sys_tcgetattr (sys_open dev_name) <> -1 ->
    sys_tcsetattr (sys_open dev_name) <> -1 ->
    exists g' d' c,
      OpenSerialByName_setup sys_open sys_tcflush sys_tcgetattr sys_tcsetattr
        GEMPCTWIN reader dev_name g = Some (inr g')
      /\ syscalls g'
         = syscalls g ++ [Sys_open dev_name; Sys_tcflush (sys_open dev_name);
                          Sys_tcgetattr (sys_open dev_name);
                          Sys_tcsetattr (sys_open dev_name)]
      /\ nth_error (serialDevice g') reader = Some d'
      /\ fd d' = sys_open dev_name /\ device d' = Some dev_name
      /\ buffer d' = buffer d
      /\ buffer_offset d' = 0 /\ buffer_offset_last d' = 0
      /\ get_ccid_descriptor reader g' = Some c
      /\ readerID c = GEMPCTWIN
      /\ dwMaxCCIDMessageLength c = 271
      /\ dwMaxDataRate c = 344086
      /\ In (dwMaxDataRate c) (arrayOfSupportedDataRates c)
      /\ readTimeout c = readTimeout (ccid d)
      /\ (forall i, i <> reader ->
                    nth_error (serialDevice g') i = nth_error (serialDevice g) i)
      /\ channel_already_used (serialDevice g') dev_name = true.
Proof.
  intros sys_open sys_tcflush sys_tcgetattr sys_tcsetattr GEMPCTWIN
    reader dev_name g d Hfree Hd Hopen Hget Hset.
  exact (OpenSerialByName_setup_configured sys_open sys_tcflush sys_tcgetattr
           sys_tcsetattr GEMPCTWIN reader dev_name g d Hfree Hd Hopen Hget Hset).
Qed.


Lemma OpenSerialByName_setup_slot_witness :
  channel_already_used (serialDevice sample_driver) "/dev/pcsc/2" = false
  /\ exists g' d' c,
      OpenSerialByName_setup (fun _ => 4) (fun _ => 0) (fun _ => 0) (fun _ => 0)
        0 1%nat "/dev/pcsc/2"%string sample_driver = Some (inr g')
      /\ syscalls g'
         = syscalls sample_driver
           ++ [Sys_open "/dev/pcsc/2"; Sys_tcflush 4; Sys_tcgetattr 4;
               Sys_tcsetattr 4]
      /\ nth_error (serialDevice g') 1 = Some d'
      /\ fd d' = 4 /\ device d' = Some "/dev/pcsc/2"%string
      /\ buffer d' = buffer free_slot
      /\ buffer_offset d' = 0 /\ buffer_offset_last d' = 0
      /\ get_ccid_descriptor 1 g' = Some c
      /\ readerID c = 0
      /\ dwMaxCCIDMessageLength c = 271
      /\ dwMaxDataRate c = 344086
      /\ In (dwMaxDataRate c) (arrayOfSupportedDataRates c)
      /\ readTimeout c = readTimeout (ccid free_slot)
      /\ (forall i, i <> 1%nat ->
                    nth_error (serialDevice g') i
                    = nth_error (serialDevice sample_driver) i)
      /\ channel_already_used (serialDevice g') "/dev/pcsc/2" = true.
Proof.
  split; [reflexivity|].
  apply (OpenSerialByName_setup_slot (fun _ => 4) (fun _ => 0) (fun _ => 0)
           (fun _ => 0) 0 1%nat "/dev/pcsc/2"%string sample_driver free_slot);
    try reflexivity; discriminate.
Defined.
(** X15.  [CloseSerial] never fails and never looks at the slot: it calls [close]
    on whatever [fd] holds, also -1, sets [fd] to -1 and frees the path, and
    leaves the buffer, the cursors, the descriptor and the other slots as
    they are.  Afterwards a path counts as used exactly when another slot
    owned it before. *)
Theorem CloseSerial_releases :
  forall reader g d,
    nth_error (serialDevice g) reader = Some d ->
    exists g' d',
      CloseSerial reader g = Some (STATUS_SUCCESS, g')
      /\ syscalls g' = syscalls g ++ [Sys_close (fd d)]
      /\ messages g' = messages g
      /\ nth_error (serialDevice g') reader = Some d'
      /\ fd d' = -1 /\ device d' = None
      /\ buffer d' = buffer d
      /\ buffer_offset d' = buffer_offset d
      /\ buffer_offset_last d' = buffer_offset_last d
      /\ ccid d' = ccid d
      /\ (forall i, i <> reader ->
                    nth_error (serialDevice g') i = nth_error (serialDevice g) i)
      /\ forall dev_name,
          channel_already_used (serialDevice g') dev_name = true
          <-> exists i d0, i <> reader
                           /\ nth_error (serialDevice g) i = Some d0
                           /\ device d0 = Some dev_name.
Proof.
  intros reader g d Hd. unfold CloseSerial. rewrite Hd.
  do 2 run_update.
  eexists _, _. split; [reflexivity|].
  split; [reflexivity|]. split; [reflexivity|].
  split; [eapply nth_error_put, nth_error_put; exact Hd|].
  do 6 (split; [reflexivity|]).
  assert (Hothers : forall i, i <> reader ->
             nth_error
               (serialDevice
                  (put_slot reader (set_device None (set_fd (-1) d))
                     (put_slot reader (set_fd (-1) d)
                        (sys (Sys_close (fd d)) g)))) i
             = nth_error (serialDevice g) i).
  { intros i Hi. cbn [serialDevice sys say put_slot].
    rewrite !nth_error_set_nth_other by congruence. reflexivity. }
  split; [exact Hothers|].
  intros dev_name. rewrite channel_already_used_iff. split.
  - intros (i & d0 & Hi & Hd0).
    destruct (Nat.eq_dec i reader) as [->|Hne].
    + erewrite nth_error_put in Hi
        by (eapply nth_error_put; exact Hd).
      injection Hi as <-. discriminate Hd0.
    + rewrite Hothers in Hi by exact Hne. eauto.
  - intros (i & d0 & Hne & Hi & Hd0). exists i, d0.
    rewrite Hothers by exact Hne. auto.
Qed.

Lemma CloseSerial_releases_witness :
  exists g' d',
    CloseSerial 0 sample_driver = Some (STATUS_SUCCESS, g')
    /\ syscalls g' = syscalls sample_driver ++ [Sys_close (fd sample_slot)]
    /\ messages g' = messages sample_driver
    /\ nth_error (serialDevice g') 0 = Some d'
    /\ fd d' = -1 /\ device d' = None
    /\ buffer d' = buffer sample_slot
    /\ buffer_offset d' = buffer_offset sample_slot
    /\ buffer_offset_last d' = buffer_offset_last sample_slot
    /\ ccid d' = ccid sample_slot
    /\ (forall i, i <> 0%nat ->
                  nth_error (serialDevice g') i
                  = nth_error (serialDevice sample_driver) i)
    /\ forall dev_name,
        channel_already_used (serialDevice g') dev_name = true
        <-> exists i d0, i <> 0%nat
                         /\ nth_error (serialDevice sample_driver) i = Some d0
                         /\ device d0 = Some dev_name.
Proof.
  apply (CloseSerial_releases 0 sample_driver sample_slot). reflexivity.
Defined.

(** X16.  A failed configuration followed by [CloseSerial]: the descriptor that
    [OpenSerialByName] already closed is not closed again, [CloseSerial]
    calls [close(-1)]; the path is free afterwards, so the port can be
    opened again. *)
Theorem CloseSerial_after_config_failure :
  forall sys_open sys_tcflush sys_tcgetattr sys_tcsetattr GEMPCTWIN
         DEFAULT_COM_READ_TIMEOUT CmdEscape reader dev_name g d,
    channel_already_used (serialDevice g) dev_name = false ->
    nth_error (serialDevice g) reader = Some d ->
    sys_open dev_name <> -1 ->
    sys_tcgetattr (sys_open dev_name) = -1
    \/ sys_tcsetattr (sys_open dev_name) = -1 ->
    exists g1 g2 calls,
      OpenSerialByName sys_open sys_tcflush sys_tcgetattr sys_tcsetattr
        GEMPCTWIN DEFAULT_COM_READ_TIMEOUT CmdEscape reader dev_name g
      = Some (STATUS_UNSUCCESSFUL, g1)
      /\ channel_already_used (serialDevice g1) dev_name = true
      /\ CloseSerial reader g1 = Some (STATUS_SUCCESS, g2)
      /\ syscalls g2
         = syscalls g ++ Sys_open dev_name :: calls
           ++ [Sys_close (sys_open dev_name); Sys_close (-1)]
      /\ channel_already_used (serialDevice g2) dev_name = false.
Proof.
  intros sys_open sys_tcflush sys_tcgetattr sys_tcsetattr GEMPCTWIN
    DEFAULT_COM_READ_TIMEOUT CmdEscape reader dev_name g d Hfree Hd Hopen Hcfg.
  destruct (OpenSerialByName_unconfigured sys_open sys_tcflush sys_tcgetattr
              sys_tcsetattr GEMPCTWIN DEFAULT_COM_READ_TIMEOUT CmdEscape reader
              dev_name g d Hfree Hd Hopen Hcfg)
    as (g1 & calls & d1 & E & Hs & Hn & Hfd & Hdev & Hothers).
  assert (Hclose : CloseSerial reader g1
                   = Some (STATUS_SUCCESS,
                           put_slot reader (set_device None (set_fd (-1) d1))
                             (put_slot reader (set_fd (-1) d1)
                                (sys (Sys_close (fd d1)) g1)))).
  { unfold CloseSerial. rewrite Hn. do 2 run_update. reflexivity. }
  eexists g1, _, calls. split; [exact E|].
  split; [apply channel_already_used_iff; eauto|].
  split; [exact Hclose|].
  split.
  - cbn [syscalls sys say put_slot]. rewrite Hs, Hfd.
    rewrite <- !app_assoc. cbn [app]. rewrite <- !app_assoc. reflexivity.
  - apply channel_already_used_false. intros i d0 Hi Hd0.
    destruct (Nat.eq_dec i reader) as [->|Hne].
    + erewrite nth_error_put in Hi
        by (eapply nth_error_put; exact Hn).
      injection Hi as <-. discriminate Hd0.
    + cbn [serialDevice sys say put_slot] in Hi.
      rewrite !nth_error_set_nth_other in Hi by congruence.
      rewrite Hothers in Hi by exact Hne.
      apply (proj1 (channel_already_used_false dev_name _) Hfree i d0 Hi Hd0).
Qed.

Lemma CloseSerial_after_config_failure_witness :
  channel_already_used (serialDevice sample_driver) "/dev/pcsc/2" = false
  /\ exists g1 g2 calls,
      OpenSerialByName (fun _ => 4) (fun _ => 0) (fun _ => 0) (fun _ => -1) 0 2
        (fun _ _ g => (true, [], g)) 1%nat "/dev/pcsc/2"%string sample_driver
      = Some (STATUS_UNSUCCESSFUL, g1)
      /\ channel_already_used (serialDevice g1) "/dev/pcsc/2" = true
      /\ CloseSerial 1 g1 = Some (STATUS_SUCCESS, g2)
      /\ syscalls g2
         = syscalls sample_driver ++ Sys_open "/dev/pcsc/2" :: calls
           ++ [Sys_close 4; Sys_close (-1)]
      /\ channel_already_used (serialDevice g2) "/dev/pcsc/2" = false.
Proof.
  split; [reflexivity|].
  apply (CloseSerial_after_config_failure (fun _ => 4) (fun _ => 0)
           (fun _ => 0) (fun _ => -1) 0 2 (fun _ _ g => (true, [], g)) 1%nat
           "/dev/pcsc/2"%string sample_driver free_slot);
    [reflexivity|reflexivity|discriminate|right; reflexivity].
Defined.






(** ** OpenSerial *)



Lemma legacy_channel_neg (channel : Z) :
  legacy_channel channel < 0 <-> channel < 0.
Proof.
  unfold legacy_channel.
  repeat match goal with
         | |- context [?a =? ?b] => destruct (Z.eqb_spec a b)
         end; lia.
Qed.

(** X19.  [OpenSerial] refuses a negative channel, and a channel whose path some
    slot owns, also under its old CHANNELID: it returns
    [STATUS_UNSUCCESSFUL], makes no system call and changes no slot, whether
    or not [reader_index] is a slot of the array. *)
Theorem OpenSerial_refused :
  forall sys_open sys_tcflush sys_tcgetattr sys_tcsetattr GEMPCTWIN
         DEFAULT_COM_READ_TIMEOUT CmdEscape reader_index channel g,
    channel < 0 \/ owned (sprintf_dev_name (legacy_channel channel)) g ->
    exists g',
      snd (OpenSerial sys_open sys_tcflush sys_tcgetattr sys_tcsetattr
             GEMPCTWIN DEFAULT_COM_READ_TIMEOUT CmdEscape reader_index channel g)
      = Some (STATUS_UNSUCCESSFUL, g')
      /\ syscalls g' = syscalls g
      /\ serialDevice g' = serialDevice g
      /\ (channel < 0 ->
          g' = g
          /\ fst (OpenSerial sys_open sys_tcflush sys_tcgetattr sys_tcsetattr
                    GEMPCTWIN DEFAULT_COM_READ_TIMEOUT CmdEscape reader_index
                    channel g)
             = [COMM_Reader_index_Channel reader_index channel;
                CRITICAL_wrong_port_number channel]).
Proof.
  intros sys_open sys_tcflush sys_tcgetattr sys_tcsetattr GEMPCTWIN
    DEFAULT_COM_READ_TIMEOUT CmdEscape reader_index channel g H.
  unfold OpenSerial. cbv zeta. fold (legacy_channel channel).
  destruct (Z.ltb_spec (legacy_channel channel) 0) as [Hneg|Hpos].
  - exists g. cbn [fst snd].
    repeat split; auto.
    unfold legacy_channel.
    repeat match goal with
           | |- context [?a =? ?b] => destruct (Z.eqb_spec a b)
           end; try lia; reflexivity.
  - destruct H as [H|H]; [apply (proj2 (legacy_channel_neg _)) in H; lia|].
    cbn [fst snd]. rewrite OpenSerialByName_refuses
      by (apply channel_already_used_iff; exact H).
    eexists. split; [reflexivity|]. split; [reflexivity|].
    split; [reflexivity|]. intros Hneg.
    apply (proj2 (legacy_channel_neg _)) in Hneg. lia.
Qed.

Lemma OpenSerial_refused_witness :
  (0x0103F8 < 0 \/ owned (sprintf_dev_name (legacy_channel 0x0103F8)) sample_driver)
  /\ exists g',
      snd (OpenSerial (fun _ => 4) (fun _ => 0) (fun _ => 0) (fun _ => 0) 0 2
             (fun _ _ g => (true, [], g)) 1%nat 0x0103F8 sample_driver)
      = Some (STATUS_UNSUCCESSFUL, g')
      /\ syscalls g' = syscalls sample_driver
      /\ serialDevice g' = serialDevice sample_driver
      /\ (0x0103F8 < 0 ->
          g' = sample_driver
          /\ fst (OpenSerial (fun _ => 4) (fun _ => 0) (fun _ => 0) (fun _ => 0)
                    0 2 (fun _ _ g => (true, [], g)) 1%nat 0x0103F8 sample_driver)
             = [COMM_Reader_index_Channel 1 0x0103F8;
                CRITICAL_wrong_port_number 0x0103F8]).
Proof.
  assert (H : owned (sprintf_dev_name (legacy_channel 0x0103F8)) sample_driver)
    by (exists 0%nat, sample_slot; split; reflexivity).
  split; [right; exact H|].
  apply (OpenSerial_refused (fun _ => 4) (fun _ => 0) (fun _ => 0) (fun _ => 0)
           0 2 (fun _ _ g => (true, [], g)) 1%nat 0x0103F8 sample_driver).
  right. exact H.
Defined.


(** ** The caller's buffer *)

(** A frame longer than the caller's buffer is stored past its end. *)
Lemma ReadSerial_frame_overrun fuel k echo buf s frame L lrc rest :
  feeds s (message frame lrc ++ rest) ->
  ccid_frame frame L ->
  5 + L <= GEMPCTWIN_MAXBUF -> len buf < 10 + L ->
  (List.length (line s) <= fuel)%nat ->
  ReadSerial_from_start fuel k echo buf s = Undefined.
Proof.
  intros Hf (Hbytes & HL & Hlen) Hcap Hbuf Hfuel.
  pose proof (dw2i_nonneg frame 1 Hbytes) as HL0. rewrite HL in HL0.
  change (message frame lrc ++ rest)
    with (SYNC :: CTRL_ACK :: (frame ++ [lrc]) ++ rest) in Hf.
  rewrite <- app_assoc in Hf. simpl app in Hf.
  unfold ReadSerial_from_start.
  apply (feeds_DEBUG COMM_start) in Hf.
  read_byte Hf s1.
  change (SYNC =? RDR_to_PC_NotifySlotChange) with false.
  change (SYNC =? SYNC) with true. cbv beta iota.
  unfold ReadSerial_sync.
  apply (feeds_DEBUG COMM_sync) in Hf.
  read_byte Hf s2.
  change (CTRL_ACK =? CTRL_ACK) with true. cbv beta iota.
  unfold ReadSerial_ack.
  apply (feeds_DEBUG COMM_ack) in Hf.
  destruct (get_bytes_feeds fuel 5 _ _ Hf) as (s3 & E3 & Hf3 & R3 & L3).
  { rewrite len_app. pose proof (len_nonneg (lrc :: rest)). lia. }
  { unfold GEMPCTWIN_MAXBUF. lia. }
  { simpl. lia. }
  simpl in L3.
  rewrite E3. clear E3 Hf. cbv beta iota.
  rewrite take_app_l by lia.
  assert (H5 : len (take 5 frame) = 5) by (rewrite len_take; lia).
  destruct (Z_lt_le_dec (len buf) 5) as [Hshort|Hlong].
  { unfold memcpy_to. rewrite H5.
    replace (0 + 5 <=? len buf) with false by (symmetry; apply Z.leb_gt; lia).
    reflexivity. }
  rewrite memcpy_to_ok by lia.
  change (failed STATUS_SUCCESS) with false. cbv beta iota.
  rewrite dw2i_header by lia. rewrite HL.
  rewrite drop_app_l in Hf3 by lia.
  cbv zeta. frame_in_int Hf3 L.
  apply (feeds_DEBUG (COMM_frame_size (10 + L))) in Hf3.
  destruct (get_bytes_feeds fuel (10 + L - 5) _ _ Hf3) as (s4 & E4 & Hf4 & R4 & L4).
  { rewrite len_app, len_drop by lia. pose proof (len_nonneg (lrc :: rest)). lia. }
  { lia. }
  { simpl. lia. }
  rewrite E4. clear E4 Hf3. cbv beta iota.
  assert (Hrest : len (drop 5 frame) = 10 + L - 5) by (rewrite len_drop; lia).
  replace (take (10 + L - 5) (drop 5 frame ++ lrc :: rest)) with (drop 5 frame)
    by (rewrite <- Hrest; symmetry; apply take_len_app).
  unfold memcpy_to. rewrite Hrest, len_overwrite by lia.
  replace (5 + (10 + L - 5) <=? len buf) with false
    by (symmetry; apply Z.leb_gt; lia).
  reflexivity.
Qed.

(** X21.  [ReadSerial] does not bound what it stores by the size of the caller's
    buffer (its parameter [length] is unused): when the frame of the echo or
    of the response is longer than the buffer, the bytes are written past
    its end. *)
Theorem ReadSerial_overruns_buffer :
  forall fuel buf s e Le lrc_e r Lr lrc_r rest,
    ccid_frame e Le -> ccid_frame r Lr -> is_byte lrc_e ->
    5 + Le <= GEMPCTWIN_MAXBUF -> 5 + Lr <= GEMPCTWIN_MAXBUF ->
    feeds s (message e lrc_e ++ message r lrc_r ++ rest) ->
    (2 <= fuel)%nat -> (List.length (line s) <= fuel)%nat ->
    len buf < 10 + Le \/ len buf < 10 + Lr ->
    ReadSerial fuel buf s = Undefined.
Proof.
  intros fuel buf s e Le lrc_e r Lr lrc_r rest He Hr Hle Hce Hcr Hf H2 Hfuel
    Hover.
  destruct fuel as [|[|fuel]]; try lia. rewrite ReadSerial_unfold.
  rewrite ReadSerial_start_S.
  destruct (Z_lt_le_dec (len buf) (10 + Le)) as [Hsmall|Hfits].
  { exact (ReadSerial_frame_overrun _ _ true buf s e Le lrc_e _ Hf He Hce
             Hsmall Hfuel). }
  destruct Hover as [Hover|Hover]; [lia|].
  destruct (ReadSerial_frame_step (S (S fuel))
              (ReadSerial_start (S (S fuel)) (S fuel)) true
              buf s e Le lrc_e _ Hf He Hle Hce Hfits Hfuel)
    as (s1 & E1 & Hf1 & R1 & L1).
  rewrite E1. rewrite ReadSerial_start_S.
  assert (Hb1 : len (overwrite buf 0 e) = len buf).
  { destruct He as (_ & _ & Hlen). apply len_overwrite; lia. }
  apply (ReadSerial_frame_overrun _ _ false (overwrite buf 0 e) s1 r Lr lrc_r
           rest Hf1 Hr Hcr); lia.
Qed.

Lemma ReadSerial_overruns_buffer_witness :
  ccid_frame sample_command 0 /\ ccid_frame sample_response 2
  /\ ReadSerial 2 (repeat 0 10)
       (on_line [ReadData (message sample_command (frame_lrc sample_command)
                           ++ message sample_response
                                (frame_lrc sample_response))])
     = Undefined.
Proof.
  assert (He : ccid_frame sample_command 0)
    by (repeat split; repeat constructor; vm_compute; congruence).
  assert (Hr : ccid_frame sample_response 2)
    by (repeat split; repeat constructor; vm_compute; congruence).
  split; [exact He|]. split; [exact Hr|].
  apply (ReadSerial_overruns_buffer 2 (repeat 0 10) _ sample_command 0
           (frame_lrc sample_command) sample_response 2
           (frame_lrc sample_response) [] He Hr).
  - vm_compute. split; congruence.
  - vm_compute. congruence.
  - vm_compute. congruence.
  - rewrite app_nil_r. sample_feeds.
  - lia.
  - simpl. lia.
  - right. vm_compute. reflexivity.
Defined.

(** ** The declared length *)




(** X23.  The frame that [ReadSerial] reads is as long as the [int] it
    computes from the header, which counts the declared length modulo
    [2 ^ 32]: an echo and a response of that length (for a header that
    declares 0xFFFFFFFF, 9 bytes) are decoded with [STATUS_SUCCESS], the
    response is delivered and only the LRC warnings are reported. *)
Theorem ReadSerial_frame_length_is_int :
  forall fuel buf s e lrc_e r lrc_r rest,
    wire_frame e -> wire_frame r -> is_byte lrc_e -> is_byte lrc_r ->
    len e - 5 <= GEMPCTWIN_MAXBUF -> len r - 5 <= GEMPCTWIN_MAXBUF ->
    len e <= len buf -> len r <= len buf ->
    feeds s (message e lrc_e ++ message r lrc_r ++ rest) ->
    (2 <= fuel)%nat -> (List.length (line s) <= fuel)%nat ->
    exists b s',
      ReadSerial fuel buf s = Returns (STATUS_SUCCESS, b) s'
      /\ take (len r) b = r
      /\ feeds s' rest
      /\ reported s'
         = reported s ++ lrc_diagnostic e lrc_e ++ lrc_diagnostic r lrc_r.
Proof.
  intros fuel buf s e lrc_e r lrc_r rest (Hbe & Hle & H5e) (Hbr & Hlr & H5r)
    Hlrc_e Hlrc_r Hce Hcr Hfe Hfr Hf H2 Hfuel.
  destruct fuel as [|[|fuel]]; try lia. rewrite ReadSerial_unfold.
  rewrite ReadSerial_start_S.
  destruct (ReadSerial_frame_read (S (S fuel))
              (ReadSerial_start (S (S fuel)) (S fuel)) true
              buf s e lrc_e _ Hf Hbe Hlrc_e Hle H5e Hce Hfe Hfuel)
    as (s1 & E1 & Hf1 & R1 & L1).
  rewrite E1. rewrite ReadSerial_start_S.
  assert (Hb1 : len (overwrite buf 0 e) = len buf)
    by (apply len_overwrite; lia).
  destruct (ReadSerial_frame_read (S (S fuel))
              (ReadSerial_start (S (S fuel)) fuel) false
              (overwrite buf 0 e) s1 r lrc_r rest Hf1 Hbr Hlrc_r Hlr H5r Hcr)
    as (s2 & E2 & Hf2 & R2 & L2); [lia|lia|].
  rewrite E2. exists (overwrite (overwrite buf 0 e) 0 r), s2.
  split; [reflexivity|]. split; [apply delivered_frame|].
  split; [exact Hf2|]. rewrite R2, R1. now rewrite app_assoc.
Qed.

Lemma ReadSerial_frame_length_is_int_witness :
  wire_frame sample_command /\ wire_frame wrapped_response
  /\ dw2i wrapped_response 1 = 2 ^ 32 - 1 /\ len wrapped_response = 9
  /\ exists b s',
      ReadSerial 2 (repeat 0 64)
        (on_line [ReadData (message sample_command (frame_lrc sample_command));
                  ReadData (message wrapped_response
                              (frame_lrc wrapped_response))])
      = Returns (STATUS_SUCCESS, b) s'
      /\ take (len wrapped_response) b = wrapped_response
      /\ feeds s' []
      /\ reported s'
         = reported
             (on_line
                [ReadData (message sample_command (frame_lrc sample_command));
                 ReadData (message wrapped_response
                             (frame_lrc wrapped_response))])
           ++ lrc_diagnostic sample_command (frame_lrc sample_command)
           ++ lrc_diagnostic wrapped_response (frame_lrc wrapped_response).
Proof.
  assert (He : wire_frame sample_command).
  { split; [repeat constructor; unfold is_byte; lia|].
    split; [reflexivity|vm_compute; discriminate]. }
  assert (Hr : wire_frame wrapped_response).
  { split; [repeat constructor; unfold is_byte; lia|].
    split; [reflexivity|vm_compute; discriminate]. }
  split; [exact He|]. split; [exact Hr|].
  split; [reflexivity|]. split; [reflexivity|].
  apply (ReadSerial_frame_length_is_int 2 (repeat 0 64)
           (on_line [ReadData (message sample_command (frame_lrc sample_command));
                     ReadData (message wrapped_response
                                 (frame_lrc wrapped_response))])
           sample_command (frame_lrc sample_command)
           wrapped_response (frame_lrc wrapped_response) [] He Hr);
    try (vm_compute; split; congruence); try (vm_compute; congruence);
    try (simpl; lia).
  sample_feeds.
Defined.
